(** * ESOREFLEX automation: batch orchestration and artifact reconciliation

    A shallow embedding of [automation/sphere_batch_processor.py] (the batch
    pipeline) and [automation/automate.py] (the single-item script), and the
    properties of the locator, the relocator, the engine invoker and the two
    command-line entry points.

    Conventions of the embedding:
    - a path below a root directory is the list of its components;
    - a directory tree is a rose tree whose children are listed in the order
      in which the operating system enumerates them;
    - the ledger is the list of records handed to [logging], oldest first;
    - what the outside world decides (what the engine prints and returns, which
      I/O operation fails, what the clock reads) is supplied by an
      [environment] of oracles, indexed by how many such operations happened
      before. *)

From Stdlib Require Import ZArith Ascii String.
From Stdlib Require Import Strings.Byte.
From stdpp Require Import gmap strings list fin_maps pretty sorting.

#[local] Set Warnings "-register-all".

Local Open Scope Z_scope.
Local Open Scope nat_scope.

(** ** Strings as Python uses them *)

(** [sub in s] on [str]: [sub] occurs in [s] as a contiguous substring. *)
Fixpoint str_in (sub s : string) : bool :=
  if String.prefix sub s then true
  else match s with
       | EmptyString => false
       | String _ s' => str_in sub s'
       end.

(** [s.rfind(c)]: the index of the last occurrence, [None] for Python's -1. *)
Fixpoint rfind (c : ascii) (s : string) : option nat :=
  match s with
  | EmptyString => None
  | String a s' =>
      match rfind c s' with
      | Some i => Some (S i)
      | None => if Ascii.eqb a c then Some 0 else None
      end
  end.

(** [s[:i]] and [s[i:]]. *)
Fixpoint str_take (i : nat) (s : string) : string :=
  match i, s with
  | S i', String a s' => String a (str_take i' s')
  | _, _ => EmptyString
  end.

Fixpoint str_drop (i : nat) (s : string) : string :=
  match i, s with
  | S i', String _ s' => str_drop i' s'
  | _, _ => s
  end.

(** [s.endswith(suf)]. *)
Definition endswith (suf s : string) : bool :=
  String.eqb (str_drop (String.length s - String.length suf) s) suf.

(** [sep.join(parts)]. *)
Definition join (sep : string) (parts : list string) : string :=
  String.concat sep parts.

(** [c * n] for a one-character string. *)
Fixpoint str_repeat (c : string) (n : nat) : string :=
  match n with
  | 0 => EmptyString
  | S n' => c +:+ str_repeat c n'
  end.

(** ** pathlib *)

(** A path relative to a known root: its components, outermost first. *)
Definition path := list string.

(** [PurePath.name]: the final component. *)
Definition path_name (p : path) : string := List.last p EmptyString.

(** The test [0 < i < len(name) - 1] that [PurePath.suffix] and
    [PurePath.stem] share, on [i = name.rfind('.')]. *)
Definition dot_splits (name : string) : option nat :=
  match rfind "."%char name with
  | Some i => if (0 <? i) && (S i <? String.length name) then Some i else None
  | None => None
  end.

(** [PurePath.suffix] of a file name. *)
Definition suffix (name : string) : string :=
  match dot_splits name with
  | Some i => str_drop i name
  | None => EmptyString
  end.

(** [PurePath.stem] of a file name. *)
Definition stem (name : string) : string :=
  match dot_splits name with
  | Some i => str_take i name
  | None => name
  end.

(** The pattern ["*.fits"] of [glob]/[rglob]; pathlib matches the whole name,
    case-sensitively on POSIX, and lets [*] match a leading dot. *)
Definition fnmatch_fits (name : string) : bool := endswith ".fits" name.

(** The pattern ["*"]. *)
Definition fnmatch_any (name : string) : bool := true.

(** ** Directory trees *)

Inductive node : Type :=
  | File (name : string) (data : list Byte.byte)
  | Dir (name : string) (children : list node).

Definition node_name (n : node) : string :=
  match n with
  | File name _ => name
  | Dir name _ => name
  end.

Definition is_dir (n : node) : bool :=
  match n with
  | File _ _ => false
  | Dir _ _ => true
  end.

(** The entries of a directory; a file has none. *)
Definition node_children (n : node) : list node :=
  match n with
  | File _ _ => []
  | Dir _ children => children
  end.

(** pathlib's recursive wildcard: the directory itself, then every directory
    below it, depth first, each with the path that leads to it. *)
Fixpoint walk_node (parent : path) (n : node) : list (path * list node) :=
  match n with
  | File _ _ => []
  | Dir d children =>
      (parent ++ [d], children) :: flat_map (walk_node (parent ++ [d])) children
  end.

Definition iterate_directories (parent : path) (entries : list node)
  : list (path * list node) :=
  (parent, entries) :: flat_map (walk_node parent) entries.

(** The entries of one directory whose name matches the pattern. *)
Definition select_from (pat : string -> bool) (dir : path * list node)
  : list (path * node) :=
  map (fun c => (fst dir ++ [node_name c], c))
      (List.filter (fun c => pat (node_name c)) (snd dir)).

(** [Path.rglob(pattern)] on the directory at [parent] whose entries are
    [entries]: every entry below it whose name matches, files and
    directories alike, the directory itself excluded.  Sibling names are
    distinct on a file system, so no path is produced twice and pathlib's
    [yielded] set never filters anything. *)
Definition rglob (pat : string -> bool) (parent : path) (entries : list node)
  : list (path * node) :=
  flat_map (select_from pat) (iterate_directories parent entries).

(** The entry found by following a path from a directory's entries. *)
Fixpoint lookup_path (entries : list node) (p : path) : option node :=
  match p with
  | [] => None
  | c :: p' =>
      match List.find (fun n => String.eqb (node_name n) c) entries with
      | None => None
      | Some n =>
          match p', n with
          | [], _ => Some n
          | _, Dir _ children => lookup_path children p'
          | _, File _ _ => None
          end
      end
  end.

(** [entry_at entries q n]: following [q] from a directory with the entries
    [entries] can lead to [n]. *)
Inductive entry_at : list node -> path -> node -> Prop :=
  | entry_here entries n :
      In n entries -> entry_at entries [node_name n] n
  | entry_below entries d children q n :
      In (Dir d children) entries ->
      entry_at children q n ->
      entry_at entries (d :: q) n.

Definition newline : string := String (ascii_of_nat 10) EmptyString.

(** ASCII white space, as [str.strip] removes it. *)
Definition is_space (c : ascii) : bool :=
  let n := nat_of_ascii c in
  ((9 <=? n) && (n <=? 13)) || ((28 <=? n) && (n <=? 32)).

Fixpoint lstrip (s : string) : string :=
  match s with
  | EmptyString => EmptyString
  | String c s' => if is_space c then lstrip s' else s
  end.

(** [s.strip()]. *)
Definition strip (s : string) : string :=
  String.rev (lstrip (String.rev (lstrip s))).

(** ** Exceptions, the ledger and the world *)

(** A raised Python exception: its class name and [str(e)].  The faults of
    this model are those of the child process and of file I/O ([OSError] and
    its subclasses, [UnicodeDecodeError], [ValueError]): all derive from
    [Exception], so [except Exception] catches every one of them. *)
Record exn : Type := Exn { exn_class : string; exn_str : string }.

(** How a call ends: it returns, it raises, or it calls [sys.exit], whose
    [SystemExit] is not an [Exception] and passes through [except Exception]. *)
Inductive result (A : Type) : Type :=
  | Ok (a : A)
  | Raise (e : exn)
  | Exit (status : Z).
Arguments Ok {A} a.
Arguments Raise {A} e.
Arguments Exit {A} status.

Inductive level : Type := INFO | WARNING | ERROR.

(** What one launch of the engine does, as the orchestrator observes it;
    [T] is the type of the directory the engine writes its products to. *)
Record invocation (T : Type) : Type := {
  (** [subprocess.Popen] raises: the engine is missing, not executable, ... *)
  popen_fault : option exn;
  (** opening the per-input log for writing raises *)
  log_open_fault : option exn;
  (** the lines of the merged stdout/stderr stream, each with the fault, if
      any, that the call of [write] for it raises *)
  stdout : list (string * option exn);
  (** the stream raises after its last line instead of reaching its end *)
  read_fault : option exn;
  (** closing the log when the [with] block is left raises: the text still
      in the buffer cannot be written *)
  close_fault : option exn;
  (** when a write or the close raises: how many characters, of the text
      written through the file object, are in the file once it is closed *)
  flushed : nat;
  (** what [process.wait()] returns *)
  returncode : Z;
  (** the product tree as the engine leaves it *)
  products_after : T
}.
Arguments popen_fault {T} _.
Arguments log_open_fault {T} _.
Arguments stdout {T} _.
Arguments read_fault {T} _.
Arguments close_fault {T} _.
Arguments flushed {T} _.
Arguments returncode {T} _.
Arguments products_after {T} _.

Record environment : Type := {
  (** the k-th launch of the engine *)
  engine : nat -> invocation (option (list node));
  (** [datetime.datetime.now().strftime("%Y%m%d_%H%M%S")] at the k-th reading
      of the clock *)
  now : nat -> string;
  (** the I/O fault of the k-th [shutil.copy2], if any (disk full, ...) *)
  copy_fault : nat -> option exn;
  (** the exception, if any, that searching the product tree raises once
      the engine has been launched k times: [exists], [rglob] and [is_dir]
      raise [PermissionError] on a directory that may not be searched *)
  search_fault : nat -> option exn
}.

Record world : Type := {
  (** the names in [RAW_DATA_DIR], in the order the directory lists them *)
  raw_data : list string;
  (** the entries of [REFLEX_PRODUCTS_ROOT]; [None] when it does not exist *)
  products : option (list node);
  (** [REDUCED_DATA_DIR], a flat directory of regular files *)
  reduced : gmap string (list Byte.byte);
  (** the per-input logs in [LOG_DIR]: file name to text *)
  logs : gmap string string;
  (** the records handed to the logger *)
  ledger : list (level * string);
  popen_calls : nat;
  clock_reads : nat;
  copy_calls : nat
}.

Definition set_products (t : option (list node)) (w : world) : world :=
  {| raw_data := raw_data w; products := t; reduced := reduced w;
     logs := logs w; ledger := ledger w; popen_calls := popen_calls w;
     clock_reads := clock_reads w; copy_calls := copy_calls w |}.

Definition set_reduced (d : gmap string (list Byte.byte)) (w : world) : world :=
  {| raw_data := raw_data w; products := products w; reduced := d;
     logs := logs w; ledger := ledger w; popen_calls := popen_calls w;
     clock_reads := clock_reads w; copy_calls := copy_calls w |}.

Definition set_logs (l : gmap string string) (w : world) : world :=
  {| raw_data := raw_data w; products := products w; reduced := reduced w;
     logs := l; ledger := ledger w; popen_calls := popen_calls w;
     clock_reads := clock_reads w; copy_calls := copy_calls w |}.

Definition set_ledger (l : list (level * string)) (w : world) : world :=
  {| raw_data := raw_data w; products := products w; reduced := reduced w;
     logs := logs w; ledger := l; popen_calls := popen_calls w;
     clock_reads := clock_reads w; copy_calls := copy_calls w |}.

Definition tick_popen (w : world) : world :=
  {| raw_data := raw_data w; products := products w; reduced := reduced w;
     logs := logs w; ledger := ledger w; popen_calls := S (popen_calls w);
     clock_reads := clock_reads w; copy_calls := copy_calls w |}.

Definition tick_clock (w : world) : world :=
  {| raw_data := raw_data w; products := products w; reduced := reduced w;
     logs := logs w; ledger := ledger w; popen_calls := popen_calls w;
     clock_reads := S (clock_reads w); copy_calls := copy_calls w |}.

Definition tick_copy (w : world) : world :=
  {| raw_data := raw_data w; products := products w; reduced := reduced w;
     logs := logs w; ledger := ledger w; popen_calls := popen_calls w;
     clock_reads := clock_reads w; copy_calls := S (copy_calls w) |}.

(** ** Computations that change the world and may raise *)

Definition M (W A : Type) : Type := W -> result A * W.

Definition ret {W A} (a : A) : M W A := fun w => (Ok a, w).

Definition bind {W A B} (m : M W A) (k : A -> M W B) : M W B :=
  fun w => match m w with
           | (Ok a, w') => k a w'
           | (Raise e, w') => (Raise e, w')
           | (Exit status, w') => (Exit status, w')
           end.

Definition raise {W A} (e : exn) : M W A := fun w => (Raise e, w).

(** [sys.exit(status)]. *)
Definition sys_exit {W A} (status : Z) : M W A := fun w => (Exit status, w).

(** [try: body except Exception as e: handler(e)]. *)
Definition try_except {W A} (body : M W A) (handler : exn -> M W A) : M W A :=
  fun w => match body w with
           | (Raise e, w') => handler e w'
           | r => r
           end.

(** [with ... as f: body], once the file is open: [close] runs when the body
    ends, also when the body raises, and an exception of [close] takes the
    place of the body's. *)
Definition with_closing {W A} (close : M W unit) (body : M W A) : M W A :=
  fun w => match body w with
           | (r, w') =>
               match close w' with
               | (Ok _, w'') => (r, w'')
               | (Raise e, w'') => (Raise e, w'')
               | (Exit status, w'') => (Exit status, w'')
               end
           end.

#[global] Instance M_ret {W} : MRet (M W) := @ret W.
#[global] Instance M_bind {W} : MBind (M W) := fun A B k m => bind m k.

(** [for x in xs: body(x)]. *)
Fixpoint for_each {W A} (xs : list A) (body : A -> M W unit) : M W unit :=
  match xs with
  | [] => ret tt
  | x :: xs' => body x;; for_each xs' body
  end.

(** The exit status of the interpreter when the script's last call ended as
    [r]: an uncaught exception prints a traceback and exits with status 1. *)
Definition status_of {A} (on_return : A -> Z) (r : result A) : Z :=
  match r with
  | Ok a => on_return a
  | Raise _ => 1%Z
  | Exit status => status
  end.

(** [sorted(xs)] on paths of one directory, that is, on their names: Python
    compares [str] by code point, which is byte order on UTF-8. *)
Fixpoint insert_sorted (x : string) (xs : list string) : list string :=
  match xs with
  | [] => [x]
  | y :: ys => if String.leb x y then x :: xs else y :: insert_sorted x ys
  end.

Definition sorted (xs : list string) : list string :=
  foldr insert_sorted [] xs.

(** ** sphere_batch_processor.py *)

Module SphereBatch.

Definition BASE_DIR : string := "/home/michael/repo/automation".
Definition RAW_DATA_DIR : string := BASE_DIR +:+ "/raw_data".
Definition REDUCED_DATA_DIR : string := BASE_DIR +:+ "/reduced_data".
Definition LOG_DIR : string := BASE_DIR +:+ "/logs".
Definition TEMP_DIR : string := BASE_DIR +:+ "/temp".
Definition REFLEX_WORKFLOW : string :=
  "/home/michael/install/share/reflex/workflows/spher-0.58.1/sphere_ifs_custom1.kar".
Definition ESOREFLEX_BIN : string :=
  "/home/michael/install/esoreflex-2.11.5/esoreflex/bin/esoreflex".
Definition REFLEX_DATA_ROOT : string := "/home/michael/reflex_data".
Definition REFLEX_PRODUCTS_ROOT : string :=
  REFLEX_DATA_ROOT +:+ "/reflex_end_products".

(** [str(root / p)] for a path below a root directory. *)
Definition str_path (root : string) (p : path) : string :=
  join "/" (root :: p).

Definition log (lvl : level) (msg : string) : M world unit :=
  fun w => (Ok tt, set_ledger (ledger w ++ [(lvl, msg)]) w).

Definition log_info : string -> M world unit := log INFO.
Definition log_error : string -> M world unit := log ERROR.
Definition log_warning : string -> M world unit := log WARNING.

(** [time.sleep]: no effect on the world of this model. *)
Definition sleep (seconds : nat) : M world unit := ret tt.

(** [d.mkdir(parents=True, exist_ok=True)] on one of the configured
    directories: they are present in every [world], so nothing changes. *)
Definition mkdir (d : string) : M world unit := ret tt.

Definition ensure_directories : M world unit :=
  for_each [RAW_DATA_DIR; REDUCED_DATA_DIR; LOG_DIR; TEMP_DIR; REFLEX_DATA_ROOT] mkdir.

(** [setup_logging] installs the handlers; the ledger is the list of records
    they receive. *)
Definition setup_logging : M world unit := ret tt.

(** An input file is known by its name in [RAW_DATA_DIR]. *)
Definition get_fits_files : M world (list string) :=
  fun w =>
    let fits_files := List.filter fnmatch_fits (raw_data w) in
    (log_info ("Found " +:+ pretty (length fits_files) +:+ " FITS file(s) to process");;
     mret (sorted fits_files)) w.

(** The products that the search loop of [find_output_products] collects:
    for every entry below the root that is a directory and whose name
    contains the stem, every entry below it that matches ["*.fits"]. *)
Definition collect_products (input_stem : string) (root : list node) : list path :=
  flat_map
    (fun product_dir : path * node =>
       if is_dir (snd product_dir)
          && str_in input_stem (node_name (snd product_dir))
       then map fst (rglob fnmatch_fits (fst product_dir)
                           (node_children (snd product_dir)))
       else [])
    (rglob fnmatch_any [] root).

Section WithEnvironment.

Variable env : environment.

(** Nothing of the search is guarded: an exception of [exists], [rglob] or
    [is_dir] leaves the function, before any record is logged. *)
Definition find_output_products (fits_file : string) : M world (list path) :=
  fun w =>
    let input_stem := stem fits_file in
    match search_fault env (popen_calls w) with
    | Some e => (Raise e, w)
    | None =>
        match products w with
        | None =>
            (log_warning ("Reflex products directory does not exist: "
                          +:+ REFLEX_PRODUCTS_ROOT);;
             mret []) w
        | Some root =>
            let found := collect_products input_stem root in
            (log_info ("Found " +:+ pretty (length found)
                       +:+ " output product(s) for " +:+ fits_file);;
             mret found) w
        end
    end.

(** [datetime.datetime.now().strftime("%Y%m%d_%H%M%S")]. *)
Definition timestamp_now : M world string :=
  fun w => (Ok (now env (clock_reads w)), tick_clock w).

(** [shutil.copy2(str(product), str(dest))] with [dest] a name in
    [REDUCED_DATA_DIR]: the source is read from the product tree and the
    destination file is created or replaced. *)
Definition copy2 (product : path) (dest : string) : M world unit :=
  fun w =>
    let w' := tick_copy w in
    let src := str_path REFLEX_PRODUCTS_ROOT product in
    match products w ≫= (fun root => lookup_path root product) with
    | None =>
        (Raise (Exn "FileNotFoundError"
                    ("[Errno 2] No such file or directory: '" +:+ src +:+ "'")), w')
    | Some (Dir _ _) =>
        (Raise (Exn "IsADirectoryError"
                    ("[Errno 21] Is a directory: '" +:+ src +:+ "'")), w')
    | Some (File _ data) =>
        match copy_fault env (copy_calls w) with
        | Some e => (Raise e, w')
        | None => (Ok tt, set_reduced (<[dest := data]> (reduced w')) w')
        end
    end.

(** [dest.exists()] for a name in [REDUCED_DATA_DIR]. *)
Definition dest_exists (dest : string) : M world bool :=
  fun w => (Ok (bool_decide (is_Some (reduced w !! dest))), w).

(** The body of the loop of [move_products_to_reduced_dir]. *)
Definition move_one (product : path) : M world unit :=
  let dest := path_name product in
  collision ← dest_exists dest;
  dest ← (if collision : bool
          then timestamp ← timestamp_now;
               mret (stem (path_name product) +:+ "_" +:+ timestamp
                     +:+ suffix (path_name product))
          else mret dest);
  copy2 product dest;;
  log_info ("Moved " +:+ path_name product +:+ " to " +:+ REDUCED_DATA_DIR).

Definition move_products_to_reduced_dir (found : list path) (fits_file : string)
  : M world bool :=
  mkdir REDUCED_DATA_DIR;;
  match found with
  | [] =>
      log_warning ("No products found to move for " +:+ fits_file);;
      mret false
  | _ =>
      try_except
        (for_each found move_one;; mret true)
        (fun e => log_error ("Failed to move products: " +:+ exn_str e);;
                  mret false)
  end.

(** [subprocess.Popen(cmd, ...)]: the next launch of the engine.  A child
    that starts owns the product tree from then on; the tree it leaves is
    what the orchestrator finds afterwards. *)
Definition popen (cmd : list string)
  : M world (invocation (option (list node))) :=
  fun w =>
    let process := engine env (popen_calls w) in
    match popen_fault process with
    | Some e => (Raise e, tick_popen w)
    | None => (Ok process, set_products (products_after process) (tick_popen w))
    end.

(** [log_file.open("w")]: the file is created or truncated. *)
Definition open_w (process : invocation (option (list node)))
    (log_file : string) : M world unit :=
  fun w =>
    match log_open_fault process with
    | Some e => (Raise e, w)
    | None => (Ok tt, set_logs (<[log_file := EmptyString]> (logs w)) w)
    end.

(** [f.write(line)] on the block-buffered text file.  The text of a write
    that returns is in the file at the latest when the file is closed, and
    nothing reads the file before; when a write raises, the file keeps, of
    the text written so far, what had reached the disk. *)
Definition write (process : invocation (option (list node)))
    (log_file : string) (line : string * option exn) : M world unit :=
  fun w =>
    let text := default EmptyString (logs w !! log_file) +:+ fst line in
    match snd line with
    | Some e =>
        (Raise e,
         set_logs (<[log_file := str_take (flushed process) text]> (logs w)) w)
    | None => (Ok tt, set_logs (<[log_file := text]> (logs w)) w)
    end.

(** The close of [f] when the [with] block is left: it writes what is still
    buffered. *)
Definition close_w (process : invocation (option (list node)))
    (log_file : string) : M world unit :=
  fun w =>
    match close_fault process with
    | Some e =>
        (Raise e,
         set_logs (<[log_file := str_take (flushed process)
                                   (default EmptyString (logs w !! log_file))]>
                     (logs w)) w)
    | None => (Ok tt, w)
    end.

(** The end of [for line in process.stdout]. *)
Definition end_of_stream (process : invocation (option (list node)))
  : M world unit :=
  match read_fault process with
  | Some e => raise e
  | None => mret tt
  end.

(** [process.wait()]. *)
Definition wait (process : invocation (option (list node))) : M world Z :=
  mret (returncode process).

(** The body of the loop over the lines of the child's output. *)
Definition log_line (process : invocation (option (list node)))
    (log_file : string) (line : string * option exn) : M world unit :=
  write process log_file line;;
  if str_in "Dataset has been reduced" (fst line)
     || str_in "reduced and saved" (fst line)
  then log_info ("Pipeline completed: " +:+ strip (fst line))
  else mret tt.

(** [process.stdout] is a pipe, hence always true in [if process.stdout]. *)
Definition launch_reflex_with_gui_automation (fits_file : string)
  : M world bool :=
  log_info ("Launching Reflex for " +:+ fits_file);;
  let cmd := [ESOREFLEX_BIN; REFLEX_WORKFLOW] in
  try_except
    (process ← popen cmd;
     let log_file := "reflex_" +:+ stem fits_file +:+ ".log" in
     open_w process log_file;;
     with_closing (close_w process log_file)
       (for_each (stdout process) (log_line process log_file);;
        end_of_stream process);;
     returncode ← wait process;
     if (returncode =? 0)%Z
     then log_info ("Reflex finished successfully for " +:+ fits_file);;
          mret true
     else log_error ("Reflex exited with code " +:+ pretty returncode
                     +:+ " for " +:+ fits_file);;
          mret false)
    (fun e => log_error ("Failed to launch Reflex: " +:+ exn_str e);;
              mret false).

Definition process_single_file (fits_file : string) : M world bool :=
  log_info (str_repeat "=" 60);;
  log_info ("Processing: " +:+ fits_file);;
  log_info (str_repeat "=" 60);;
  log_info ("Using FITS file from raw_data: " +:+ fits_file);;
  log_warning (str_repeat "=" 60);;
  log_warning "MANUAL INTERACTION REQUIRED:";;
  log_warning "1. Reflex GUI should open in 3 seconds...";;
  log_warning "2. SELECT the dataset row for this FITS file";;
  log_warning "3. CLICK the 'Start' button";;
  log_warning "4. WAIT for the pipeline to complete";;
  log_warning "5. You will see 'reduced and saved' in the console";;
  log_warning (str_repeat "=" 60);;
  sleep 3;;
  launched ← launch_reflex_with_gui_automation fits_file;
  if negb launched
  then log_error ("Skipping " +:+ fits_file +:+ " - Reflex failed");;
       mret false
  else
    sleep 5;;
    found ← find_output_products fits_file;
    moved ← move_products_to_reduced_dir found fits_file;
    if negb moved
    then log_error ("Failed to move products for " +:+ fits_file);;
         mret false
    else log_info ("Successfully processed " +:+ fits_file);;
         mret true.

(** The loop of [main] over the input files, with its two counters. *)
Fixpoint batch_loop (fits_files : list string) (successful failed : nat)
  : M world (nat * nat) :=
  match fits_files with
  | [] => mret (successful, failed)
  | fits_file :: rest =>
      ok ← process_single_file fits_file;
      sleep 2;;
      if ok : bool
      then batch_loop rest (S successful) failed
      else batch_loop rest successful (S failed)
  end.

Definition main : M world Z :=
  ensure_directories;;
  setup_logging;;
  log_info (str_repeat "=" 70);;
  log_info "SPHERE IFS Batch Processing Pipeline";;
  log_info (str_repeat "=" 70);;
  log_info ("Raw data directory: " +:+ RAW_DATA_DIR);;
  log_info ("Reduced data directory: " +:+ REDUCED_DATA_DIR);;
  log_info ("Reflex workflow: " +:+ REFLEX_WORKFLOW);;
  fits_files ← get_fits_files;
  match fits_files with
  | [] =>
      log_warning "No FITS files found in raw_data directory";;
      mret 0%Z
  | _ =>
      counters ← batch_loop fits_files 0 0;
      let successful := fst counters in
      let failed := snd counters in
      log_info (str_repeat "=" 70);;
      log_info "BATCH PROCESSING COMPLETE";;
      log_info ("Successfully processed: " +:+ pretty successful
                +:+ "/" +:+ pretty (length fits_files));;
      log_info ("Failed: " +:+ pretty failed +:+ "/" +:+ pretty (length fits_files));;
      log_info ("Output directory: " +:+ REDUCED_DATA_DIR);;
      log_info (str_repeat "=" 70);;
      mret (if failed =? 0 then 0%Z else 1%Z)
  end.

(** [sys.exit(main())]: the exit status of the process. *)
Definition exit_status (w : world) : Z := status_of id (fst (main w)).

End WithEnvironment.

End SphereBatch.


(** ** automate.py *)

Module Automate.

Definition REFLEX_WORKFLOW : string :=
  "/home/michael/install/share/reflex/workflows/spher-0.58.1/sphere_ifs_custom1.kar".
Definition PIPELINE_OUTPUT_DIR : string := "/home/michael/automation/pipeline_products".
Definition FINAL_REDUCED_DIR : string := "/home/michael/automation/reduced_data".
Definition LOG_DIR : string := "/home/michael/automation/logs".

Record surroundings : Type := {
  (** the k-th launch of the engine; it leaves the regular files of
      [PIPELINE_OUTPUT_DIR] as given *)
  launch : nat -> invocation (gmap string (list Byte.byte));
  (** [datetime.datetime.now().isoformat()] at the k-th reading of the clock *)
  isoformat_now : nat -> string;
  (** [str(Path(p).resolve())]: absolute, without [.], [..] or a trailing
      slash *)
  resolve : string -> string;
  (** [os.getcwd()] *)
  getcwd : string;
  (** the fault, if any, of the k-th appending of a record to
      [sphere_pipeline.log] by [append_log] (the file cannot be opened or
      written), with the number of characters of the record that are in the
      file afterwards *)
  append_fault : nat -> option (exn * nat)
}.

Record state : Type := {
  (** the regular files directly in [PIPELINE_OUTPUT_DIR], by name; [glob]
      does not descend into its directories *)
  pipeline_products : gmap string (list Byte.byte);
  (** [FINAL_REDUCED_DIR], a flat directory of regular files *)
  final_dir : gmap string (list Byte.byte);
  (** the text of [LOG_DIR / "sphere_pipeline.log"] *)
  pipeline_log : string;
  (** what was printed *)
  console : list string;
  launches : nat;
  clock : nat;
  (** the calls of [append_log] so far *)
  appends : nat
}.

Definition set_dirs (src dst : gmap string (list Byte.byte)) (s : state) : state :=
  {| pipeline_products := src; final_dir := dst; pipeline_log := pipeline_log s;
     console := console s; launches := launches s; clock := clock s;
     appends := appends s |}.

Definition set_pipeline_log (l : string) (s : state) : state :=
  {| pipeline_products := pipeline_products s; final_dir := final_dir s;
     pipeline_log := l; console := console s; launches := launches s;
     clock := clock s; appends := appends s |}.

Definition set_console (c : list string) (s : state) : state :=
  {| pipeline_products := pipeline_products s; final_dir := final_dir s;
     pipeline_log := pipeline_log s; console := c; launches := launches s;
     clock := clock s; appends := appends s |}.

Definition tick_launch (s : state) : state :=
  {| pipeline_products := pipeline_products s; final_dir := final_dir s;
     pipeline_log := pipeline_log s; console := console s;
     launches := S (launches s); clock := clock s; appends := appends s |}.

Definition tick_clock (s : state) : state :=
  {| pipeline_products := pipeline_products s; final_dir := final_dir s;
     pipeline_log := pipeline_log s; console := console s;
     launches := launches s; clock := S (clock s); appends := appends s |}.

Definition tick_append (s : state) : state :=
  {| pipeline_products := pipeline_products s; final_dir := final_dir s;
     pipeline_log := pipeline_log s; console := console s;
     launches := launches s; clock := clock s; appends := S (appends s) |}.

(** [Path(p).name] of a resolved path: what follows its last slash. *)
Definition basename (p : string) : string :=
  match rfind "/"%char p with
  | Some i => str_drop (S i) p
  | None => p
  end.

Definition print (text : string) : M state unit :=
  fun s => (Ok tt, set_console (console s ++ [text]) s).

Definition mkdir (d : string) : M state unit := ret tt.

(** [PIPELINE_OUTPUT_DIR.glob("*.fits")], listed before the loop runs. *)
Definition glob_fits : M state (list string) :=
  fun s =>
    (Ok (List.filter fnmatch_fits (map fst (map_to_list (pipeline_products s)))),
     s).

(** [shutil.move(str(f), dest)] for a regular file [f] of
    [PIPELINE_OUTPUT_DIR] and [dest = FINAL_REDUCED_DIR / f.name]:
    [os.rename] replaces a file already at [dest]. *)
Definition shutil_move (name : string) : M state string :=
  fun s =>
    match pipeline_products s !! name with
    | None =>
        (Raise (Exn "FileNotFoundError"
                    ("[Errno 2] No such file or directory: '"
                     +:+ PIPELINE_OUTPUT_DIR +:+ "/" +:+ name +:+ "'")), s)
    | Some data =>
        (Ok (FINAL_REDUCED_DIR +:+ "/" +:+ name),
         set_dirs (delete name (pipeline_products s))
                  (<[name := data]> (final_dir s)) s)
    end.

Section WithSurroundings.

Variable env : surroundings.

(** [datetime.datetime.now().isoformat()]. *)
Definition now_isoformat : M state string :=
  fun s => (Ok (isoformat_now env (clock s)), tick_clock s).

(** [with (LOG_DIR / "sphere_pipeline.log").open("a") as f: f.write(text)]:
    the record is added at the end of the file, whole unless opening,
    writing or closing raises. *)
Definition append_to_log (text : string) : M state unit :=
  fun s =>
    match append_fault env (appends s) with
    | Some (e, n) =>
        (Raise e,
         set_pipeline_log (pipeline_log s +:+ str_take n text) (tick_append s))
    | None => (Ok tt, set_pipeline_log (pipeline_log s +:+ text) (tick_append s))
    end.

Definition append_log (message : string) : M state unit :=
  stamp ← now_isoformat;
  let msg := stamp +:+ " " +:+ message in
  print msg;;
  mkdir LOG_DIR;;
  append_to_log (msg +:+ newline).

(** The loop of [move_outputs] over the listed names. *)
Fixpoint move_loop (input_name : string) (fs : list string) (moved : list string)
  : M state (list string) :=
  match fs with
  | [] => mret moved
  | f :: rest =>
      if str_in input_name f
      then dest ← shutil_move f;
           move_loop input_name rest (moved ++ [dest])
      else move_loop input_name rest moved
  end.

Definition move_outputs (input_fits_file : string) : M state unit :=
  mkdir FINAL_REDUCED_DIR;;
  let input_name := stem (basename input_fits_file) in
  fs ← glob_fits;
  moved ← move_loop input_name fs [];
  append_log ("[move_outputs] Moved " +:+ pretty (length moved)
              +:+ " file(s) for " +:+ input_fits_file).

Definition popen (cmd : list string)
  : M state (invocation (gmap string (list Byte.byte))) :=
  fun s =>
    let process := launch env (launches s) in
    match popen_fault process with
    | Some e => (Raise e, tick_launch s)
    | None =>
        (Ok process,
         set_dirs (products_after process) (final_dir s) (tick_launch s))
    end.

(** [(LOG_DIR / "sphere_pipeline.log").open("a")]: the file object is known
    by the position at which it starts to append. *)
Definition open_a (process : invocation (gmap string (list Byte.byte)))
  : M state nat :=
  fun s =>
    match log_open_fault process with
    | Some e => (Raise e, s)
    | None => (Ok (String.length (pipeline_log s)), s)
    end.

(** [logf.write(line)] on the block-buffered text file: when it raises, the
    file keeps, of the text written through [logf], what had reached the
    disk. *)
Definition write (process : invocation (gmap string (list Byte.byte)))
    (logf : nat) (line : string * option exn) : M state unit :=
  fun s =>
    let text := pipeline_log s +:+ fst line in
    match snd line with
    | Some e =>
        (Raise e, set_pipeline_log (str_take (logf + flushed process) text) s)
    | None => (Ok tt, set_pipeline_log text s)
    end.

(** The close of [logf] when the [with] block is left. *)
Definition close_a (process : invocation (gmap string (list Byte.byte)))
    (logf : nat) : M state unit :=
  fun s =>
    match close_fault process with
    | Some e =>
        (Raise e,
         set_pipeline_log (str_take (logf + flushed process) (pipeline_log s)) s)
    | None => (Ok tt, s)
    end.

Definition end_of_stream (process : invocation (gmap string (list Byte.byte)))
  : M state unit :=
  match read_fault process with
  | Some e => raise e
  | None => mret tt
  end.

Definition run_pipeline (input_fits_file : string) : M state unit :=
  let input_fits_file := resolve env input_fits_file in
  print ("[run_pipeline] Called with: " +:+ input_fits_file);;
  print ("[run_pipeline] CWD: " +:+ getcwd env);;
  let cmd := ["/home/michael/install/esoreflex-2.11.5/esoreflex/bin/esoreflex";
              "/home/michael/install/share/reflex/workflows/spher-0.58.1/sphere_ifs_custom1.kar"] in
  append_log ("[run_pipeline] Launching: " +:+ join " " cmd);;
  process ← popen cmd;
  logf ← open_a process;
  with_closing (close_a process logf)
    (for_each (stdout process)
       (fun line => print (fst line);; write process logf line);;
     end_of_stream process);;
  let returncode := returncode process in
  append_log ("[run_pipeline] Exit code: " +:+ pretty returncode);;
  if (returncode =? 0)%Z
  then move_outputs input_fits_file
  else append_log ("[ERROR] Pipeline failed for " +:+ input_fits_file).

Definition main (argv : list string) : M state unit :=
  if negb (length argv =? 2)
  then print "Usage: run_sphere_pipeline.py <fits_file>";;
       sys_exit 1%Z
  else run_pipeline (nth 1 argv EmptyString).

(** The exit status of [python automate.py ...]. *)
Definition exit_status (argv : list string) (s : state) : Z :=
  status_of (fun _ : unit => 0%Z) (fst (main argv s)).

End WithSurroundings.

End Automate.

(** Induction on a tree, with the hypothesis for every child of a directory. *)
Fixpoint node_induction (P : node -> Prop)
    (HFile : forall name data, P (File name data))
    (HDir : forall name children, Forall P children -> P (Dir name children))
    (n : node) : P n :=
  match n with
  | File name data => HFile name data
  | Dir name children =>
      HDir name children
        ((fix all (l : list node) : Forall P l :=
            match l with
            | [] => List.Forall_nil P
            | c :: l' => @List.Forall_cons _ P c l' (node_induction P HFile HDir c) (all l')
            end) children)
  end.

(** ** Vocabulary of the statements *)

(** The name in [REDUCED_DATA_DIR] that the relocation loop writes for a
    product, in a given world: the product's own name, or on a collision the
    name with the timestamp between stem and suffix. *)
Definition move_target (env : environment) (product : path) (w : world) : string :=
  if bool_decide (is_Some (reduced w !! path_name product))
  then stem (path_name product) +:+ "_" +:+ now env (clock_reads w)
       +:+ suffix (path_name product)
  else path_name product.

(** The content of the regular file at a path of the product tree. *)
Definition product_data (w : world) (product : path) : option (list Byte.byte) :=
  match products w ≫= (fun root => lookup_path root product) with
  | Some (File _ data) => Some data
  | _ => None
  end.

Definition no_fault (o : option exn) : bool :=
  match o with
  | None => true
  | Some _ => false
  end.

(** The invoker gets as far as [process.wait()]: the engine started and its
    output was copied to the per-input log without an exception. *)
Definition reaches_wait {T} (process : invocation T) : bool :=
  no_fault (popen_fault process)
  && no_fault (log_open_fault process)
  && forallb (fun line => no_fault (snd line)) (stdout process)
  && no_fault (read_fault process)
  && no_fault (close_fault process).

(** The engine started, its output reached the log, and it exited with
    status 0. *)
Definition engine_succeeds {T} (process : invocation T) : bool :=
  reaches_wait process && (returncode process =? 0)%Z.

(** The text of the lines of the engine's output. *)
Definition stream_text (lines : list (string * option exn)) : string :=
  foldr (fun line text => fst line +:+ text) EmptyString lines.

(** Only the ledger and the per-input logs differ between two worlds. *)
Definition same_files (w w' : world) : Prop :=
  raw_data w' = raw_data w /\ products w' = products w
  /\ reduced w' = reduced w /\ popen_calls w' = popen_calls w
  /\ clock_reads w' = clock_reads w /\ copy_calls w' = copy_calls w.

(** The outcomes of the input files that are attempted when they are
    processed one after the other, each in the world its predecessors left:
    a call that does not return ends the loop. *)
Fixpoint item_outcomes (env : environment) (fits_files : list string) (w : world)
  : list (result bool) :=
  match fits_files with
  | [] => []
  | fits_file :: rest =>
      let r := SphereBatch.process_single_file env fits_file w in
      fst r :: match fst r with
               | Ok _ => item_outcomes env rest (snd r)
               | _ => []
               end
  end.

Definition succeeded (r : result bool) : bool :=
  match r with
  | Ok true => true
  | _ => false
  end.

(** The ledger records that [main] writes before it looks at the input
    files, and the scanner's record. *)
Definition at_loop_start (w : world) : world :=
  set_ledger
    (ledger w
     ++ [(INFO, str_repeat "=" 70);
         (INFO, "SPHERE IFS Batch Processing Pipeline");
         (INFO, str_repeat "=" 70);
         (INFO, "Raw data directory: " +:+ SphereBatch.RAW_DATA_DIR);
         (INFO, "Reduced data directory: " +:+ SphereBatch.REDUCED_DATA_DIR);
         (INFO, "Reflex workflow: " +:+ SphereBatch.REFLEX_WORKFLOW);
         (INFO, "Found "
                +:+ pretty (length (List.filter fnmatch_fits (raw_data w)))
                +:+ " FITS file(s) to process")])
    w.

(** An engine run of which only the text of the output lines may differ. *)
Definition same_but_text {T} (p p' : invocation T) : Prop :=
  popen_fault p' = popen_fault p /\ log_open_fault p' = log_open_fault p
  /\ map snd (stdout p') = map snd (stdout p)
  /\ read_fault p' = read_fault p /\ close_fault p' = close_fault p
  /\ returncode p' = returncode p.

(** The name a collision gives a product, for a timestamp. *)
Definition timestamped (name timestamp : string) : string :=
  stem name +:+ "_" +:+ timestamp +:+ suffix name.


(** ** Concrete worlds *)

Definition bytes_of (s : string) : list Byte.byte := String.list_byte_of_string s.

(** An engine that starts, prints a completion marker and exits with status
    [status], leaving [tree]; a clock that stands still; no I/O fault, and
    a product tree that can be searched. *)
Definition steady_environment (status : Z) (tree : option (list node))
  : environment :=
  {| engine := fun _ =>
       {| popen_fault := None; log_open_fault := None;
          stdout := [("Dataset has been reduced" +:+ newline, None)];
          read_fault := None; close_fault := None; flushed := 0;
          returncode := status; products_after := tree |};
     now := fun _ => "20260101_120000";
     copy_fault := fun _ => None;
     search_fault := fun _ => None |}.

Definition world_of (inputs : list string) (tree : option (list node))
    (dest : gmap string (list Byte.byte)) : world :=
  {| raw_data := inputs; products := tree; reduced := dest; logs := ∅;
     ledger := []; popen_calls := 0; clock_reads := 0; copy_calls := 0 |}.

(** A product whose own name contains the stem, in a directory whose name
    does not. *)
Definition stray_tree : list node :=
  [Dir "run1" [File "A_out.fits" (bytes_of "stray")]].

(** Two products of the same name below one matching directory. *)
Definition twin_tree : list node :=
  [Dir "A_tpl" [Dir "x" [File "out.fits" (bytes_of "first")];
                Dir "y" [File "out.fits" (bytes_of "second")]]].


Definition script_surroundings (status : Z)
    (outputs : gmap string (list Byte.byte)) : Automate.surroundings :=
  {| Automate.launch := fun _ =>
       {| popen_fault := None; log_open_fault := None; stdout := [];
          read_fault := None; close_fault := None; flushed := 0;
          returncode := status; products_after := outputs |};
     Automate.isoformat_now := fun _ => "2026-01-01T12:00:00";
     Automate.resolve := fun p => "/home/michael/automation/raw_data/" +:+ p;
     Automate.getcwd := "/home/michael/automation";
     Automate.append_fault := fun _ => None |}.

Definition script_state (outputs dest : gmap string (list Byte.byte))
  : Automate.state :=
  {| Automate.pipeline_products := outputs; Automate.final_dir := dest;
     Automate.pipeline_log := EmptyString; Automate.console := [];
     Automate.launches := 0; Automate.clock := 0; Automate.appends := 0 |}.

Definition stray_world : world := world_of [] (Some stray_tree) ∅.

Definition twin_world : world :=
  world_of [] (Some twin_tree) {[ "out.fits" := bytes_of "old" ]}.


(** A source directory without any [.fits] file. *)
Definition idle_world : world := world_of ["notes.txt"; "README"] None ∅.

(** The script's output directory holds a product whose name the
    destination already has. *)
Definition clash_state : Automate.state :=
  script_state {[ "A_1.fits" := bytes_of "new" ]}
               {[ "A_1.fits" := bytes_of "old" ]}.

(** The scenario of the specification: inputs [A.fits] and [B.fits]; the
    engine exits with status 0 for the first and leaves
    [run1/A_tpl/out1.fits], and exits with status 1 for the second. *)
Definition scenario_tree : list node :=
  [Dir "run1" [Dir "A_tpl" [File "out1.fits" (bytes_of "reduced")]]].

Definition scenario_environment : environment :=
  {| engine := fun k =>
       {| popen_fault := None; log_open_fault := None;
          stdout := [("Dataset has been reduced" +:+ newline, None)];
          read_fault := None; close_fault := None; flushed := 0;
          returncode := Z.of_nat k; products_after := Some scenario_tree |};
     now := fun _ => "20260101_120000";
     copy_fault := fun _ => None;
     search_fault := fun _ => None |}.

Definition scenario_world : world := world_of ["B.fits"; "A.fits"] None ∅.

(** The scenario again, with a product tree that the orchestrator may not
    search: the engine leaves a directory without search permission. *)
Definition locked_environment : environment :=
  {| engine := fun _ =>
       {| popen_fault := None; log_open_fault := None;
          stdout := [("Dataset has been reduced" +:+ newline, None)];
          read_fault := None; close_fault := None; flushed := 0;
          returncode := 0%Z; products_after := Some scenario_tree |};
     now := fun _ => "20260101_120000";
     copy_fault := fun _ => None;
     search_fault := fun _ =>
       Some (Exn "PermissionError" "[Errno 13] Permission denied") |}.

(** An engine that starts and exits with status 0, while the per-input log
    cannot be opened. *)
Definition unloggable_environment : environment :=
  {| engine := fun _ =>
       {| popen_fault := None;
          log_open_fault :=
            Some (Exn "PermissionError" "[Errno 13] Permission denied");
          stdout := [("Dataset has been reduced" +:+ newline, None)];
          read_fault := None; close_fault := None; flushed := 0;
          returncode := 0%Z; products_after := Some scenario_tree |};
     now := fun _ => "20260101_120000";
     copy_fault := fun _ => None;
     search_fault := fun _ => None |}.

(** A clock that reads differently every time. *)
Definition ticking_environment : environment :=
  {| engine := engine (steady_environment 0 None);
     now := fun k => pretty k;
     copy_fault := fun _ => None;
     search_fault := fun _ => None |}.

(** ** Vocabulary of the further properties *)

(** The text handed to [write] up to and including the first line whose
    write raises; the text of all the lines when none does. *)
Fixpoint attempted_text (lines : list (string * option exn)) : string :=
  match lines with
  | [] => EmptyString
  | line :: rest =>
      match snd line with
      | None => fst line +:+ attempted_text rest
      | Some _ => fst line
      end
  end.

(** Sibling names are distinct at every level, as on a file system. *)
Fixpoint distinct_names (n : node) : bool :=
  match n with
  | File _ _ => true
  | Dir _ children =>
      bool_decide (NoDup (map node_name children))
      && forallb distinct_names children
  end.

Definition distinct_entries (entries : list node) : bool :=
  bool_decide (NoDup (map node_name entries)) && forallb distinct_names entries.

(** ** copy_to_reflex_data_tree *)

(** What [copy_to_reflex_data_tree] works on: the regular files of
    [RAW_DATA_DIR] by name, the flat directory
    [REFLEX_DATA_ROOT / "automation_input"] ([None] while it does not
    exist), and the ledger. *)
Record staging : Type := {
  raw_files : gmap string (list Byte.byte);
  automation_input : option (gmap string (list Byte.byte));
  staging_ledger : list (level * string)
}.

Definition staging_log (lvl : level) (msg : string) : M staging unit :=
  fun s =>
    (Ok tt,
     {| raw_files := raw_files s; automation_input := automation_input s;
        staging_ledger := staging_ledger s ++ [(lvl, msg)] |}).

(** [automation_input_dir.mkdir(parents=True, exist_ok=True)]; [fault] is
    the exception it raises, if any (a parent that is not writable, a file
    in the place of the directory). *)
Definition staging_mkdir (fault : option exn) : M staging unit :=
  fun s =>
    match fault with
    | Some e => (Raise e, s)
    | None =>
        (Ok tt,
         {| raw_files := raw_files s;
            automation_input := Some (default ∅ (automation_input s));
            staging_ledger := staging_ledger s |})
    end.

(** [shutil.copy2(str(fits_file), str(dest))] for an input file of
    [RAW_DATA_DIR] and [dest = automation_input_dir / fits_file.name].
    [fault] is the I/O fault the copy meets, if any, with the number of
    bytes written to [dest] when it had been opened: the copy truncates the
    destination before it writes. *)
Definition staging_copy2 (fault : option (exn * option nat)) (name : string)
  : M staging unit :=
  fun s =>
    let put (data : list Byte.byte) :=
      {| raw_files := raw_files s;
         automation_input :=
           Some (<[name := data]> (default ∅ (automation_input s)));
         staging_ledger := staging_ledger s |} in
    match raw_files s !! name with
    | None =>
        (Raise (Exn "FileNotFoundError"
                    ("[Errno 2] No such file or directory: '"
                     +:+ SphereBatch.RAW_DATA_DIR +:+ "/" +:+ name +:+ "'")), s)
    | Some data =>
        match fault with
        | Some (e, None) => (Raise e, s)
        | Some (e, Some n) => (Raise e, put (take n data))
        | None => (Ok tt, put data)
        end
    end.

(** The directory is made before the [try]: an exception of [mkdir] leaves
    the function. *)
Definition copy_to_reflex_data_tree (mkdir_fault : option exn)
    (fault : option (exn * option nat)) (fits_file : string) : M staging bool :=
  staging_mkdir mkdir_fault;;
  try_except
    (staging_copy2 fault fits_file;;
     staging_log INFO ("Copied " +:+ fits_file +:+ " to Reflex data tree");;
     mret true)
    (fun e =>
       staging_log ERROR ("Failed to copy " +:+ fits_file
                          +:+ " to Reflex tree: " +:+ exn_str e);;
       mret false).

(** * Properties *)

(** ** Strings *)

Lemma prefix_app_l (sub a b : string) :
  String.prefix sub a = true -> String.prefix sub (a +:+ b) = true.
Proof.
  revert a. induction sub as [|c sub IH]; intros a H.
  - now destruct (a +:+ b).
  - destruct a as [|c' a]; simpl in *; [discriminate|].
    destruct (ascii_dec c c'); [auto | discriminate].
Qed.

Lemma str_in_cons (sub : string) (c : ascii) (s : string) :
  str_in sub (String c s)
  = if String.prefix sub (String c s) then true else str_in sub s.
Proof. reflexivity. Qed.

Lemma str_in_app_l (sub a b : string) :
  str_in sub a = true -> str_in sub (a +:+ b) = true.
Proof.
  induction a as [|c a IH].
  - destruct sub; simpl; [|discriminate]. intros _.
    change (EmptyString +:+ b) with b. destruct b; reflexivity.
  - change (String c a +:+ b) with (String c (a +:+ b)).
    rewrite !str_in_cons.
    destruct (String.prefix sub (String c a)) eqn:E.
    + apply (prefix_app_l _ _ b) in E.
      change (String c a +:+ b) with (String c (a +:+ b)) in E.
      now rewrite E.
    + intros H. rewrite (IH H).
      destruct (String.prefix sub (String c (a +:+ b))); reflexivity.
Qed.

Lemma str_in_app_r (sub a b : string) :
  str_in sub b = true -> str_in sub (a +:+ b) = true.
Proof.
  intros H. induction a as [|c a IH]; [exact H|].
  change (String c a +:+ b) with (String c (a +:+ b)).
  rewrite str_in_cons, IH.
  destruct (String.prefix sub (String c (a +:+ b))); reflexivity.
Qed.

Lemma str_in_join (sub sep : string) (parts : list string) (part : string) :
  In part parts -> str_in sub part = true -> str_in sub (join sep parts) = true.
Proof.
  unfold join. induction parts as [|x xs IH]; intros Hin Hsub; [destruct Hin|].
  destruct xs as [|y ys].
  - destruct Hin as [->|[]]. exact Hsub.
  - change (String.concat sep (x :: y :: ys))
      with (x +:+ sep +:+ String.concat sep (y :: ys)).
    destruct Hin as [->|Hin].
    + now apply str_in_app_l.
    + apply str_in_app_r, str_in_app_r. now apply IH.
Qed.

Lemma str_take_drop (i : nat) (s : string) : str_take i s +:+ str_drop i s = s.
Proof.
  revert s. induction i as [|i IH]; intros s; [reflexivity|].
  destruct s as [|c s]; [reflexivity|].
  change (String c (str_take i s +:+ str_drop i s) = String c s).
  now rewrite IH.
Qed.

Lemma stem_suffix (name : string) : stem name +:+ suffix name = name.
Proof.
  unfold stem, suffix. destruct (dot_splits name).
  - apply str_take_drop.
  - induction name as [|c s IH]; [reflexivity|].
    change (String c (s +:+ EmptyString) = String c s). now f_equal.
Qed.

Lemma length_append (a b : string) :
  String.length (a +:+ b) = String.length a + String.length b.
Proof.
  induction a as [|c a IH]; [reflexivity|].
  change (String c a +:+ b) with (String c (a +:+ b)). simpl. now rewrite IH.
Qed.

Lemma append_assoc (a b c : string) : (a +:+ b) +:+ c = a +:+ b +:+ c.
Proof.
  induction a as [|x a IH]; [reflexivity|].
  change ((String x a +:+ b) +:+ c) with (String x ((a +:+ b) +:+ c)).
  now rewrite IH.
Qed.

Lemma append_nil_r (a : string) : a +:+ EmptyString = a.
Proof.
  induction a as [|x a IH]; [reflexivity|].
  change (String x a +:+ EmptyString) with (String x (a +:+ EmptyString)).
  now rewrite IH.
Qed.

(** The name chosen on a collision differs from the artifact's own name. *)
Lemma timestamped_name_fresh (name timestamp : string) :
  stem name +:+ "_" +:+ timestamp +:+ suffix name <> name.
Proof.
  intros H. apply (f_equal String.length) in H.
  rewrite <- (stem_suffix name) in H at 3.
  rewrite !length_append in H. simpl in H. lia.
Qed.

(** pathlib on the names the pipeline meets. *)
Example stem_of_sphere_file :
  stem "SPHER.2015-04-23T07-29-47.926.fits" = "SPHER.2015-04-23T07-29-47.926"
  /\ suffix "SPHER.2015-04-23T07-29-47.926.fits" = ".fits"
  /\ stem ".fits" = ".fits" /\ suffix ".fits" = EmptyString
  /\ fnmatch_fits "out1.fits" = true /\ fnmatch_fits ".fits" = true
  /\ fnmatch_fits "out1.FITS" = false /\ fnmatch_fits "fits" = false.
Proof. repeat split; reflexivity. Qed.

Example sorted_input_files :
  sorted ["b.fits"; "A.fits"; "a.fits"; "B.fits"]
  = ["A.fits"; "B.fits"; "a.fits"; "b.fits"].
Proof. reflexivity. Qed.

(** ** Directory trees and [rglob] *)

Lemma entry_at_nonempty entries q n : entry_at entries q n -> q <> [].
Proof. now destruct 1. Qed.

Lemma entry_at_last entries q n : entry_at entries q n -> path_name q = node_name n.
Proof.
  unfold path_name. induction 1 as [entries n Hin | entries d children q n Hin H IH].
  - reflexivity.
  - destruct q as [|c q]; [now apply entry_at_nonempty in H|exact IH].
Qed.

(** An entry of a directory that was reached is reached one step further. *)
Lemma entry_at_snoc entries q d children n :
  entry_at entries q (Dir d children) -> In n children ->
  entry_at entries (q ++ [node_name n]) n.
Proof.
  intros H Hn. remember (Dir d children) as dir eqn:E.
  induction H as [entries m Hin | entries d' children' q m Hin H IH]; subst.
  - simpl. eapply entry_below; [exact Hin|]. now apply entry_here.
  - simpl. eapply entry_below; [exact Hin|]. now apply IH.
Qed.

(** Every reached entry is an entry of the start, or of a reached directory. *)
Lemma entry_at_inv entries q n :
  entry_at entries q n ->
  (q = [node_name n] /\ In n entries)
  \/ exists q0 d children,
       q = q0 ++ [node_name n] /\ entry_at entries q0 (Dir d children)
       /\ In n children.
Proof.
  induction 1 as [entries n Hin | entries d children q n Hin H IH].
  - now left.
  - right. destruct IH as [[-> Hn] | (q0 & d0 & ch0 & -> & H0 & Hn)].
    + exists [d], d, children. split; [reflexivity|]. split; [|exact Hn].
      now apply (entry_here entries (Dir d children)).
    + exists (d :: q0), d0, ch0. split; [reflexivity|]. split; [|exact Hn].
      eapply entry_below; eauto.
Qed.

(** Reaching an entry below a reached directory. *)
Lemma entry_at_app entries q d children r n :
  entry_at entries q (Dir d children) -> entry_at children r n ->
  entry_at entries (q ++ r) n.
Proof.
  intros H Hr. remember (Dir d children) as dir eqn:E.
  induction H as [entries m Hin | entries d' children' q m Hin H IH]; subst.
  - simpl. eapply entry_below; eauto.
  - simpl. eapply entry_below; [exact Hin|]. now apply IH.
Qed.

Lemma entry_at_lift c entries q n :
  In c entries -> entry_at [c] q n -> entry_at entries q n.
Proof.
  intros Hc H. remember [c] as one eqn:E.
  induction H as [one n Hin | one d children q n Hin H IH]; subst.
  - destruct Hin as [->|[]]. now apply entry_here.
  - destruct Hin as [->|[]]. eapply entry_below; eauto.
Qed.

Lemma entry_at_split entries q n :
  entry_at entries q n -> exists c, In c entries /\ entry_at [c] q n.
Proof.
  destruct 1 as [entries n Hin | entries d children q n Hin H].
  - exists n. split; [exact Hin|]. apply entry_here. now left.
  - exists (Dir d children). split; [exact Hin|].
    eapply entry_below; [now left | exact H].
Qed.

Lemma entry_at_dir_inv name kids q n :
  entry_at [Dir name kids] q n ->
  (q = [name] /\ n = Dir name kids)
  \/ exists q0, q = name :: q0 /\ entry_at kids q0 n.
Proof.
  intros H. remember [Dir name kids] as one eqn:E.
  destruct H as [one n Hin | one d children q n Hin H]; subst.
  - destruct Hin as [<-|[]]. now left.
  - destruct Hin as [E|[]]. injection E as -> ->. right. now exists q.
Qed.

Lemma entry_at_file_inv name data q n :
  entry_at [File name data] q n -> q = [name] /\ n = File name data.
Proof.
  intros H. remember [File name data] as one eqn:E.
  destruct H as [one n Hin | one d children q n Hin H]; subst.
  - destruct Hin as [<-|[]]. now split.
  - destruct Hin as [E|[]]. discriminate.
Qed.

Lemma walk_node_spec n : forall parent p children,
  In (p, children) (walk_node parent n) <->
  exists q d, p = parent ++ q /\ entry_at [n] q (Dir d children).
Proof.
  induction n as [name data | name kids IH] using node_induction;
    intros parent p children.
  - split; [intros []|]. intros (q & d & _ & H).
    apply entry_at_file_inv in H as [_ H]. discriminate.
  - rewrite Forall_forall in IH. simpl. split.
    + intros [E | Hin].
      * injection E as <- <-. exists [name], name. split; [reflexivity|].
        apply (entry_here [Dir name kids] (Dir name kids)). now left.
      * apply in_flat_map in Hin as (c & Hc & Hin).
        apply (IH c (proj2 (list_elem_of_In _ _) Hc)) in Hin
          as (q & d & -> & Hq).
        exists (name :: q), d. split; [now rewrite <- app_assoc|].
        eapply entry_below; [now left|]. now apply (entry_at_lift c).
    + intros (q & d & -> & H).
      apply entry_at_dir_inv in H as [[-> E] | (q0 & -> & H)].
      * injection E as <- <-. now left.
      * right. apply entry_at_split in H as (c & Hc & Hq).
        apply in_flat_map. exists c. split; [exact Hc|].
        apply (IH c (proj2 (list_elem_of_In _ _) Hc)).
        exists q0, d. split; [now rewrite <- app_assoc | exact Hq].
Qed.

Lemma iterate_directories_spec parent entries p children :
  In (p, children) (iterate_directories parent entries) <->
  (p = parent /\ children = entries)
  \/ exists q d, p = parent ++ q /\ entry_at entries q (Dir d children).
Proof.
  unfold iterate_directories. simpl. rewrite in_flat_map. split.
  - intros [E | (c & Hc & Hin)].
    + injection E as <- <-. now left.
    + right. apply walk_node_spec in Hin as (q & d & -> & Hq).
      exists q, d. split; [reflexivity|]. now apply (entry_at_lift c).
  - intros [[-> ->] | (q & d & -> & Hq)]; [now left|]. right.
    apply entry_at_split in Hq as (c & Hc & Hq). exists c. split; [exact Hc|].
    apply walk_node_spec. now exists q, d.
Qed.

Lemma select_from_spec pat dir p n :
  In (p, n) (select_from pat dir) <->
  In n (snd dir) /\ pat (node_name n) = true /\ p = fst dir ++ [node_name n].
Proof.
  unfold select_from. rewrite in_map_iff. split.
  - intros (c & E & Hc). injection E as <- <-.
    apply filter_In in Hc as [Hc Hpat]. auto.
  - intros (Hn & Hpat & ->). exists n. split; [reflexivity|].
    apply filter_In. auto.
Qed.

(** [rglob] yields exactly the entries below the directory whose name
    matches the pattern, each with the path that leads to it. *)
Lemma rglob_spec pat parent entries p n :
  In (p, n) (rglob pat parent entries) <->
  exists q, p = parent ++ q /\ entry_at entries q n /\ pat (node_name n) = true.
Proof.
  unfold rglob. rewrite in_flat_map. split.
  - intros ([p0 ch] & Hdir & Hsel).
    apply select_from_spec in Hsel as (Hn & Hpat & ->). simpl in *.
    apply iterate_directories_spec in Hdir as [[-> ->] | (q & d & -> & Hq)].
    + exists [node_name n]. split; [reflexivity|]. split; [|exact Hpat].
      now apply entry_here.
    + exists (q ++ [node_name n]). split; [now rewrite app_assoc|].
      split; [|exact Hpat]. eapply entry_at_snoc; eauto.
  - intros (q & -> & Hq & Hpat).
    apply entry_at_inv in Hq as [[-> Hn] | (q0 & d & ch & -> & Hq & Hn)].
    + exists (parent, entries). split.
      * apply iterate_directories_spec. now left.
      * apply select_from_spec. auto.
    + exists (parent ++ q0, ch). split.
      * apply iterate_directories_spec. right. now exists q0, d.
      * apply select_from_spec. simpl. rewrite app_assoc. auto.
Qed.

(** What the search loop of [find_output_products] collects. *)
Lemma collect_products_spec input_stem root p :
  In p (SphereBatch.collect_products input_stem root) <->
  exists q d children r n,
    entry_at root q (Dir d children) /\ str_in input_stem d = true
    /\ entry_at children r n /\ fnmatch_fits (node_name n) = true
    /\ p = q ++ r.
Proof.
  unfold SphereBatch.collect_products. rewrite in_flat_map. split.
  - intros ([q m] & Hdir & Hin).
    destruct m as [|d children]; [destruct Hin|]. cbn in Hin.
    destruct (str_in input_stem d) eqn:Hstem; [|destruct Hin].
    apply in_map_iff in Hin as ([p' n] & E & Hin). simpl in E. subst p'.
    apply rglob_spec in Hin as (r & -> & Hr & Hpat).
    apply rglob_spec in Hdir as (q' & E & Hq & _). simpl in E. subst q'.
    now exists q, d, children, r, n.
  - intros (q & d & children & r & n & Hq & Hstem & Hr & Hpat & ->).
    exists (q, Dir d children). split.
    + apply rglob_spec. exists q. auto.
    + cbn. rewrite Hstem. apply in_map_iff. exists (q ++ r, n).
      split; [reflexivity|]. apply rglob_spec. now exists r.
Qed.

(** Every collected path has a directory component that contains the stem. *)
Lemma collect_products_component input_stem root p :
  In p (SphereBatch.collect_products input_stem root) ->
  exists d, In d p /\ str_in input_stem d = true.
Proof.
  intros (q & d & children & r & n & Hq & Hstem & _ & _ & ->)%collect_products_spec.
  exists d. split; [|exact Hstem]. apply in_or_app. left.
  pose proof (entry_at_last _ _ _ Hq) as Hl. simpl in Hl. rewrite <- Hl.
  unfold path_name. destruct q as [|c q _] using rev_ind.
  - now apply entry_at_nonempty in Hq.
  - rewrite last_last. apply in_or_app. right. now left.
Qed.

(** ** Running computations *)

Ltac run :=
  unfold mbind, M_bind, bind, mret, M_ret, ret, raise, sys_exit, try_except in *.

Lemma bind_run {W A B} (m : M W A) (k : A -> M W B) (w : W) :
  (m ≫= k) w
  = match m w with
    | (Ok a, w') => k a w'
    | (Raise e, w') => (Raise e, w')
    | (Exit status, w') => (Exit status, w')
    end.
Proof. reflexivity. Qed.

(** ** The relocator *)

Lemma move_one_summary env product w :
  exists r w',
    SphereBatch.move_one env product w = (r, w')
    /\ (r = Ok tt \/ exists e, r = Raise e)
    /\ products w' = products w /\ raw_data w' = raw_data w
    /\ logs w' = logs w /\ popen_calls w' = popen_calls w
    /\ (forall k, k <> move_target env product w ->
                  reduced w' !! k = reduced w !! k)
    /\ ledger w'
       = ledger w
         ++ match r with
            | Ok _ => [(INFO, "Moved " +:+ path_name product +:+ " to "
                              +:+ SphereBatch.REDUCED_DATA_DIR)]
            | _ => []
            end
    /\ (r = Ok tt ->
        exists data, product_data w product = Some data
                     /\ reduced w' !! move_target env product w = Some data).
Proof.
  unfold SphereBatch.move_one, move_target, product_data,
    SphereBatch.dest_exists, SphereBatch.timestamp_now, SphereBatch.copy2,
    SphereBatch.log_info, SphereBatch.log.
  run. simpl.
  destruct (bool_decide (is_Some (reduced w !! path_name product))); simpl;
    destruct (option_bind _ _ (fun root => lookup_path root product) (products w))
      as [[name data | name children] |]; simpl;
    try destruct (copy_fault env (copy_calls w)) as [e|]; simpl;
    eexists _, _; (split; [reflexivity|]); simpl;
    repeat match goal with
      | |- _ /\ _ => split
      | |- Ok tt = Ok tt \/ _ => left; reflexivity
      | |- _ \/ (exists e, Raise _ = Raise e) => right; eexists; reflexivity
      | |- _ = _ ++ [] => symmetry; apply app_nil_r
      | |- _ => reflexivity
      | |- forall k, _ -> <[_ := _]> _ !! k = _ =>
          intros k Hk; apply lookup_insert_ne; congruence
      | |- forall k, _ -> _ => intros ? ?; reflexivity
      | |- Raise _ = Ok _ -> _ => discriminate
      | |- Ok tt = Ok tt -> _ =>
          intros _; eexists; split; [reflexivity | apply lookup_insert_eq]
      end.
Qed.

Lemma move_all_summary env found : forall w,
  exists r w',
    for_each found (SphereBatch.move_one env) w = (r, w')
    /\ (r = Ok tt \/ exists e, r = Raise e)
    /\ products w' = products w /\ raw_data w' = raw_data w
    /\ logs w' = logs w /\ popen_calls w' = popen_calls w
    /\ exists records,
         ledger w' = ledger w ++ records
         /\ Forall (fun record => fst record = INFO) records.
Proof.
  induction found as [|product rest IH]; intros w.
  - exists (Ok tt), w. split_and!; auto. exists []. now rewrite app_nil_r.
  - destruct (move_one_summary env product w)
      as (r & w1 & E & Hr & Hp & Hraw & Hlogs & Hpopen & _ & Hledger & _).
    simpl. rewrite bind_run, E.
    destruct Hr as [-> | [e ->]].
    + destruct (IH w1) as (r2 & w2 & E2 & Hr2 & Hp2 & Hraw2 & Hlogs2 & Hpopen2
                           & records & Hledger2 & Hinfo).
      exists r2, w2. rewrite E2. split_and!; try congruence.
      eexists (_ :: records). rewrite Hledger2, Hledger, <- app_assoc.
      split; [reflexivity|]. now constructor.
    + exists (Raise e), w1. split_and!; eauto.
Qed.

Lemma relocate_summary env found fits_file w :
  exists b w',
    SphereBatch.move_products_to_reduced_dir env found fits_file w = (Ok b, w')
    /\ products w' = products w /\ raw_data w' = raw_data w
    /\ logs w' = logs w /\ popen_calls w' = popen_calls w
    /\ exists moved tail,
         ledger w' = ledger w ++ moved ++ tail
         /\ Forall (fun record => fst record = INFO) moved
         /\ (b = true -> found <> [] /\ tail = [])
         /\ (b = false ->
             (found = [] /\ moved = [] /\ reduced w' = reduced w
              /\ tail = [(WARNING, "No products found to move for " +:+ fits_file)])
             \/ (found <> []
                 /\ exists e, tail = [(ERROR, "Failed to move products: "
                                              +:+ exn_str e)])).
Proof.
  unfold SphereBatch.move_products_to_reduced_dir, SphereBatch.mkdir.
  destruct found as [|product rest].
  - exists false. eexists. split; [reflexivity|]. simpl.
    split_and!; try reflexivity.
    exists [], [(WARNING, "No products found to move for " +:+ fits_file)].
    split_and!; auto; try discriminate.
  - destruct (move_all_summary env (product :: rest) w)
      as (r & w1 & E & Hr & Hp & Hraw & Hlogs & Hpopen & records & Hledger & Hinfo).
    rewrite bind_run. cbn [ret]. unfold try_except. rewrite bind_run, E.
    destruct Hr as [-> | [e ->]].
    + exists true, w1. split; [reflexivity|]. split_and!; auto.
      exists records, []. rewrite app_nil_r. split_and!; auto; discriminate.
    + exists false. eexists. split; [reflexivity|]. simpl. split_and!; auto.
      exists records, [(ERROR, "Failed to move products: " +:+ exn_str e)].
      rewrite Hledger, <- app_assoc. split_and!; auto; try discriminate.
      intros _. right. split; [discriminate|]. now exists e.
Qed.

Lemma find_output_products_run env fits_file w :
  SphereBatch.find_output_products env fits_file w
  = match search_fault env (popen_calls w) with
    | Some e => (Raise e, w)
    | None =>
        match products w with
        | None =>
            (Ok [],
             set_ledger (ledger w ++ [(WARNING, "Reflex products directory does not exist: "
                                                +:+ SphereBatch.REFLEX_PRODUCTS_ROOT)]) w)
        | Some root =>
            let found := SphereBatch.collect_products (stem fits_file) root in
            (Ok found,
             set_ledger (ledger w ++ [(INFO, "Found " +:+ pretty (length found)
                                             +:+ " output product(s) for " +:+ fits_file)]) w)
        end
    end.
Proof.
  unfold SphereBatch.find_output_products.
  destruct (search_fault env (popen_calls w)); [reflexivity|].
  now destruct (products w).
Qed.

(** What the locator returns when it returns, and when it does. *)
Lemma find_output_products_found env fits_file w found :
  fst (SphereBatch.find_output_products env fits_file w) = Ok found ->
  search_fault env (popen_calls w) = None
  /\ found = match products w with
             | Some root => SphereBatch.collect_products (stem fits_file) root
             | None => []
             end.
Proof.
  rewrite find_output_products_run.
  destruct (search_fault env (popen_calls w)); [discriminate|].
  destruct (products w); cbn [fst]; intros [= <-]; now split.
Qed.

(** ** The engine invoker *)

Lemma same_files_refl w : same_files w w.
Proof. now repeat split. Qed.

Lemma same_files_trans w1 w2 w3 :
  same_files w1 w2 -> same_files w2 w3 -> same_files w1 w3.
Proof. unfold same_files. intuition congruence. Qed.

Lemma log_line_run process log_file line w :
  exists r w',
    SphereBatch.log_line process log_file line w = (r, w') /\ same_files w w'
    /\ r = match snd line with Some e => Raise e | None => Ok tt end.
Proof.
  unfold SphereBatch.log_line, SphereBatch.write, SphereBatch.log_info,
    SphereBatch.log.
  rewrite bind_run. cbv zeta. destruct (snd line) as [e|].
  - eexists _, _. split; [reflexivity|]. split; [|reflexivity]. now repeat split.
  - destruct (str_in _ _ || str_in _ _);
      eexists _, _; (split; [reflexivity|]); split; try reflexivity;
      now repeat split.
Qed.

Lemma stream_loop_run process log_file lines : forall w,
  exists r w',
    for_each lines (SphereBatch.log_line process log_file) w = (r, w')
    /\ same_files w w'
    /\ (forallb (fun line => no_fault (snd line)) lines = true -> r = Ok tt)
    /\ (forallb (fun line => no_fault (snd line)) lines = false ->
        exists e, r = Raise e).
Proof.
  induction lines as [|line rest IH]; intros w.
  - exists (Ok tt), w. split_and!; auto using same_files_refl. discriminate.
  - destruct (log_line_run process log_file line w) as (r & w1 & E & Hsame & Hr).
    simpl. rewrite bind_run, E. destruct (snd line) as [e|]; subst r; simpl.
    + exists (Raise e), w1. split_and!; auto; [discriminate | eauto].
    + destruct (IH w1) as (r2 & w2 & E2 & Hsame2 & Hok & Hraise).
      exists r2, w2. split_and!; eauto using same_files_trans.
Qed.

(** The [with] block of the invoker: it is left without an exception when
    no write, the stream and the close raise none. *)
Lemma stream_block_run process log_file w :
  exists r w',
    with_closing (SphereBatch.close_w process log_file)
      (for_each (stdout process) (SphereBatch.log_line process log_file);;
       SphereBatch.end_of_stream process) w = (r, w')
    /\ same_files w w'
    /\ (forallb (fun line => no_fault (snd line)) (stdout process)
        && no_fault (read_fault process)
        && no_fault (close_fault process) = true -> r = Ok tt)
    /\ (forallb (fun line => no_fault (snd line)) (stdout process)
        && no_fault (read_fault process)
        && no_fault (close_fault process) = false ->
        exists e, r = Raise e).
Proof.
  unfold with_closing. rewrite bind_run.
  destruct (stream_loop_run process log_file (stdout process) w)
    as (r1 & w1 & E & Hsame & Hok & Hraise).
  rewrite E. unfold SphereBatch.end_of_stream, SphereBatch.close_w.
  destruct (forallb _ (stdout process)).
  - rewrite (Hok eq_refl).
    destruct (read_fault process) as [e|], (close_fault process) as [e'|];
      cbn; eexists _, _; (split; [reflexivity|]);
      (split; [destruct Hsame as (? & ? & ? & ? & ? & ?); now repeat split|]);
      (split; [try discriminate; reflexivity|]); try discriminate; eauto.
  - destruct (Hraise eq_refl) as [e ->].
    destruct (close_fault process) as [e'|];
      cbn; eexists _, _; (split; [reflexivity|]);
      (split; [destruct Hsame as (? & ? & ? & ? & ? & ?); now repeat split|]);
      (split; [discriminate|]); eauto.
Qed.

(** What a call of the invoker returns, and what it leaves. *)
Lemma launch_run env fits_file w :
  let process := engine env (popen_calls w) in
  exists w',
    SphereBatch.launch_reflex_with_gui_automation env fits_file w
    = (Ok (reaches_wait process && (returncode process =? 0)%Z), w')
    /\ popen_calls w' = S (popen_calls w)
    /\ raw_data w' = raw_data w /\ reduced w' = reduced w
    /\ products w'
       = if no_fault (popen_fault process) then products_after process
         else products w.
Proof.
  intros process.
  unfold SphereBatch.launch_reflex_with_gui_automation, reaches_wait,
    SphereBatch.log_info, SphereBatch.log_error, SphereBatch.log.
  rewrite bind_run. cbv beta iota. unfold try_except. rewrite bind_run.
  unfold SphereBatch.popen. cbn [popen_calls set_ledger].
  fold process. destruct (popen_fault process) as [e|]; simpl.
  { eexists. split; [reflexivity|]. now repeat split. }
  rewrite bind_run. unfold SphereBatch.open_w.
  destruct (log_open_fault process) as [e|]; simpl.
  { eexists. split; [reflexivity|]. now repeat split. }
  rewrite bind_run.
  match goal with
  | |- context [with_closing (SphereBatch.close_w _ ?f) _ ?w0] =>
      destruct (stream_block_run process f w0)
        as (r & w1 & E & Hsame & Hok & Hraise); rewrite E
  end.
  destruct Hsame as (Hraw & Hp & Hred & Hpopen & _ & _). simpl in *.
  destruct (forallb _ (stdout process) && no_fault (read_fault process)
            && no_fault (close_fault process)).
  - rewrite (Hok eq_refl). unfold SphereBatch.wait. run. simpl.
    destruct (returncode process =? 0)%Z;
      eexists; (split; [reflexivity|]); simpl; now repeat split.
  - destruct (Hraise eq_refl) as [e ->]. simpl.
    eexists. split; [reflexivity|]. simpl. now repeat split.
Qed.

(** ** The batch controller *)

Lemma log_bind {A} lvl msg (k : unit -> M world A) w :
  (SphereBatch.log lvl msg ≫= k) w
  = k tt (set_ledger (ledger w ++ [(lvl, msg)]) w).
Proof. reflexivity. Qed.

Lemma ret_bind {W A B} (a : A) (k : A -> M W B) w : (ret a ≫= k) w = k a w.
Proof. reflexivity. Qed.

(** One input file: the engine is launched once, and the call returns
    unless the engine succeeds and the search of the product tree raises. *)
Lemma process_single_file_run env fits_file w :
  let process := engine env (popen_calls w) in
  exists r w',
    SphereBatch.process_single_file env fits_file w = (r, w')
    /\ popen_calls w' = S (popen_calls w) /\ raw_data w' = raw_data w
    /\ ((exists b,
           r = Ok b
           /\ (engine_succeeds process = false -> b = false)
           /\ (engine_succeeds process = true ->
               search_fault env (S (popen_calls w)) = None))
        \/ (exists e,
              r = Raise e /\ engine_succeeds process = true
              /\ search_fault env (S (popen_calls w)) = Some e)).
Proof.
  intros process.
  unfold SphereBatch.process_single_file, SphereBatch.log_info,
    SphereBatch.log_warning, SphereBatch.log_error, SphereBatch.sleep.
  repeat (rewrite log_bind; cbv beta). rewrite ret_bind. rewrite bind_run.
  match goal with
  | |- context [SphereBatch.launch_reflex_with_gui_automation env fits_file ?w0] =>
      destruct (launch_run env fits_file w0)
        as (w1 & E & Hpopen & Hraw & _); rewrite E
  end.
  simpl in Hpopen, Hraw. cbn [popen_calls set_ledger]. fold process.
  unfold engine_succeeds.
  destruct (reaches_wait process && (returncode process =? 0)%Z); cbn [negb].
  - rewrite ret_bind, bind_run, find_output_products_run, Hpopen.
    destruct (search_fault env (S (popen_calls w))) as [e|].
    { eexists _, _. split; [reflexivity|]. split; [exact Hpopen|].
      split; [exact Hraw|]. right. now exists e. }
    destruct (products w1) as [root|]; cbv zeta; cbv beta iota;
      rewrite bind_run;
      match goal with
      | |- context [SphereBatch.move_products_to_reduced_dir env ?found
                      fits_file ?w2] =>
          destruct (relocate_summary env found fits_file w2)
            as (b & w3 & E3 & _ & Hraw3 & _ & Hpopen3 & _); rewrite E3
      end;
      simpl in Hraw3, Hpopen3;
      destruct b; cbn [negb]; rewrite log_bind;
      eexists _, _; (split; [reflexivity|]); simpl;
      (split; [congruence|]); (split; [congruence|]);
      left; eexists; (split; [reflexivity|]); (split; [discriminate | reflexivity]).
  - rewrite log_bind. eexists _, _. split; [reflexivity|]. simpl.
    split; [exact Hpopen|]. split; [exact Hraw|].
    left. exists false. split; [reflexivity|]. split; [reflexivity | discriminate].
Qed.

Lemma item_outcomes_length env fits_files : forall w,
  length (item_outcomes env fits_files w) <= length fits_files.
Proof.
  induction fits_files as [|f rest IH]; intros w; simpl; [lia|].
  destruct (fst _); simpl; [specialize (IH (snd (SphereBatch.process_single_file env f w)))|..];
    lia.
Qed.

(** The loop attempts the files one by one and stops at the first call that
    raises: every outcome before the last is a Boolean, and the last is a
    Boolean or an exception. *)
Lemma item_outcomes_shape env fits_files : forall w,
  let outcomes := item_outcomes env fits_files w in
  (Forall (fun r => exists b, r = Ok b) outcomes
   /\ length outcomes = length fits_files)
  \/ (exists attempted e,
        outcomes = attempted ++ [Raise e]
        /\ Forall (fun r => exists b, r = Ok b) attempted).
Proof.
  induction fits_files as [|f rest IH]; intros w; cbn [item_outcomes length].
  - left. split; [constructor | reflexivity].
  - destruct (process_single_file_run env f w)
      as (r & w1 & E & _ & _ & [(b & -> & _) | (e & -> & _)]);
      rewrite E; cbn [fst snd].
    + destruct (IH w1) as [[Hall Hlen] | (attempted & e & Hsplit & Hall)].
      * left. split; [constructor; eauto | cbn; now rewrite Hlen].
      * right. exists (Ok b :: attempted), e. rewrite Hsplit.
        split; [reflexivity | constructor; eauto].
    + right. exists [], e. split; [reflexivity | constructor].
Qed.

(** When no attempted file has its search raise, every file is attempted
    and every call returns. *)
Lemma item_outcomes_return env fits_files : forall w,
  (forall j, j < length fits_files ->
             engine_succeeds (engine env (popen_calls w + j)) = true ->
             search_fault env (popen_calls w + S j) = None) ->
  Forall (fun r => exists b, r = Ok b) (item_outcomes env fits_files w)
  /\ length (item_outcomes env fits_files w) = length fits_files.
Proof.
  induction fits_files as [|f rest IH]; intros w Hsearch; cbn [item_outcomes length].
  - split; [constructor | reflexivity].
  - destruct (process_single_file_run env f w)
      as (r & w1 & E & Hpopen & _ & [(b & -> & _) | (e & -> & Hengine & Hfault)]);
      rewrite E; cbn [fst snd].
    + destruct (IH w1) as [Hall Hlen].
      { intros j Hj. rewrite Hpopen.
        replace (S (popen_calls w) + j) with (popen_calls w + S j) by lia.
        replace (S (popen_calls w) + S j) with (popen_calls w + S (S j)) by lia.
        apply Hsearch. cbn. lia. }
      split; [constructor; eauto | cbn; now rewrite Hlen].
    + specialize (Hsearch 0). rewrite Nat.add_0_r, Nat.add_1_r in Hsearch.
      rewrite Hsearch in Hfault; [discriminate | cbn; lia | exact Hengine].
Qed.

(** When the file number [k] is the first whose search raises, it is the
    last file attempted. *)
Lemma item_outcomes_abort env fits_files : forall w k e,
  k < length fits_files ->
  (forall j, j < k ->
             engine_succeeds (engine env (popen_calls w + j)) = true ->
             search_fault env (popen_calls w + S j) = None) ->
  engine_succeeds (engine env (popen_calls w + k)) = true ->
  search_fault env (popen_calls w + S k) = Some e ->
  exists attempted,
    item_outcomes env fits_files w = attempted ++ [Raise e]
    /\ length attempted = k
    /\ Forall (fun r => exists b, r = Ok b) attempted.
Proof.
  induction fits_files as [|f rest IH]; intros w k e Hk Hbefore Hengine Hfault;
    [cbn in Hk; lia|].
  cbn [item_outcomes].
  destruct (process_single_file_run env f w)
    as (r & w1 & E & Hpopen & _ & Hr); rewrite E; cbn [fst snd].
  destruct k as [|k].
  - rewrite Nat.add_0_r in Hengine. rewrite Nat.add_1_r in Hfault.
    destruct Hr as [(b & -> & _ & Hnone) | (e' & -> & _ & Hsome)].
    + rewrite (Hnone Hengine) in Hfault. discriminate.
    + exists []. rewrite Hfault in Hsome. injection Hsome as <-.
      split; [reflexivity|]. split; [reflexivity | constructor].
  - destruct Hr as [(b & -> & _) | (e' & -> & Hengine' & Hsome)].
    + destruct (IH w1 k e) as (attempted & Hsplit & Hlen & Hall).
      * cbn in Hk. lia.
      * intros j Hj. rewrite Hpopen.
        replace (S (popen_calls w) + j) with (popen_calls w + S j) by lia.
        replace (S (popen_calls w) + S j) with (popen_calls w + S (S j)) by lia.
        apply Hbefore. lia.
      * rewrite Hpopen.
        now replace (S (popen_calls w) + k) with (popen_calls w + S k) by lia.
      * rewrite Hpopen.
        now replace (S (popen_calls w) + S k) with (popen_calls w + S (S k)) by lia.
      * exists (Ok b :: attempted). rewrite Hsplit.
        split; [reflexivity|]. split; [cbn; now rewrite Hlen | constructor; eauto].
    + specialize (Hbefore 0). rewrite Nat.add_0_r, Nat.add_1_r in Hbefore.
      rewrite Hbefore in Hsome; [discriminate | lia | exact Hengine'].
Qed.

(** The loop and the list of outcomes: the engine is launched once per
    attempted file; when every call returns, the counters count the
    outcomes; when a call raises, the loop raises. *)
Lemma batch_loop_run env fits_files : forall successful failed w,
  let outcomes := item_outcomes env fits_files w in
  exists r w',
    SphereBatch.batch_loop env fits_files successful failed w = (r, w')
    /\ popen_calls w' = popen_calls w + length outcomes
    /\ (Forall (fun r => exists b, r = Ok b) outcomes ->
        r = Ok (successful + length (List.filter succeeded outcomes),
                failed + length (List.filter (fun r => negb (succeeded r))
                                             outcomes)))
    /\ (forall attempted e, outcomes = attempted ++ [Raise e] -> r = Raise e).
Proof.
  induction fits_files as [|f rest IH]; intros successful failed w.
  - exists (Ok (successful, failed)), w. cbn. split; [reflexivity|].
    split; [lia|]. split.
    + intros _. now rewrite !Nat.add_0_r.
    + intros [|? ?] e; discriminate.
  - destruct (process_single_file_run env f w)
      as (r & w1 & E & Hpopen & _ & [(b & -> & _) | (e & -> & _)]).
    + cbn [item_outcomes SphereBatch.batch_loop]. rewrite bind_run, E.
      unfold SphereBatch.sleep. rewrite ret_bind. cbn [fst snd].
      destruct b.
      * destruct (IH (S successful) failed w1) as (r2 & w2 & E2 & Hpopen2 & Hok & Habort).
        exists r2, w2. rewrite E2. cbn [List.filter succeeded negb length].
        split; [reflexivity|]. split; [lia|]. split.
        -- intros Hall. apply Forall_cons_1 in Hall as [_ Hall].
           rewrite (Hok Hall). do 2 f_equal. lia.
        -- intros [|r0 attempted] e; cbn [app]; [discriminate|].
           intros [= _ Hsplit]. eapply Habort, Hsplit.
      * destruct (IH successful (S failed) w1) as (r2 & w2 & E2 & Hpopen2 & Hok & Habort).
        exists r2, w2. rewrite E2. cbn [List.filter succeeded negb length].
        split; [reflexivity|]. split; [lia|]. split.
        -- intros Hall. apply Forall_cons_1 in Hall as [_ Hall].
           rewrite (Hok Hall). do 2 f_equal. lia.
        -- intros [|r0 attempted] e; cbn [app]; [discriminate|].
           intros [= _ Hsplit]. eapply Habort, Hsplit.
    + cbn [item_outcomes SphereBatch.batch_loop]. rewrite bind_run, E.
      cbn [fst snd length]. exists (Raise e), w1.
      split; [reflexivity|]. split; [lia|]. split.
      * intros Hall. apply Forall_cons_1 in Hall as [[b Hb] _]. discriminate.
      * intros [|r0 [|r1 attempted]] e'; cbn [app]; [|discriminate..].
        now intros [= ->].
Qed.

Lemma sorted_nil_iff xs : sorted xs = [] <-> xs = [].
Proof.
  split; [|now intros ->]. destruct xs as [|x xs]; [reflexivity|].
  unfold sorted. simpl. now destruct (foldr insert_sorted [] xs); simpl;
    try destruct (String.leb _ _).
Qed.

Lemma main_run env w :
  let fits_files := sorted (List.filter fnmatch_fits (raw_data w)) in
  let w0 := at_loop_start w in
  let outcomes := item_outcomes env fits_files w0 in
  let failed := length (List.filter (fun r => negb (succeeded r)) outcomes) in
  match fits_files with
  | [] =>
      SphereBatch.main env w
      = (Ok 0%Z,
         set_ledger (ledger w0 ++ [(WARNING, "No FITS files found in raw_data directory")])
                    w0)
  | _ =>
      exists r w',
        SphereBatch.main env w = (r, w')
        /\ popen_calls w' = popen_calls w + length outcomes
        /\ (Forall (fun r => exists b, r = Ok b) outcomes ->
            r = Ok (if failed =? 0 then 0%Z else 1%Z))
        /\ (forall attempted e, outcomes = attempted ++ [Raise e] -> r = Raise e)
  end.
Proof.
  intros fits_files w0 outcomes failed.
  assert (SphereBatch.main env w
          = (match fits_files with
             | [] =>
                 SphereBatch.log_warning "No FITS files found in raw_data directory";;
                 mret 0%Z
             | _ =>
                 counters ← SphereBatch.batch_loop env fits_files 0 0;
                 SphereBatch.log_info (str_repeat "=" 70);;
                 SphereBatch.log_info "BATCH PROCESSING COMPLETE";;
                 SphereBatch.log_info
                   ("Successfully processed: " +:+ pretty (fst counters)
                    +:+ "/" +:+ pretty (length fits_files));;
                 SphereBatch.log_info
                   ("Failed: " +:+ pretty (snd counters) +:+ "/"
                    +:+ pretty (length fits_files));;
                 SphereBatch.log_info
                   ("Output directory: " +:+ SphereBatch.REDUCED_DATA_DIR);;
                 SphereBatch.log_info (str_repeat "=" 70);;
                 mret (if snd counters =? 0 then 0%Z else 1%Z)
             end) w0) as ->.
  { unfold SphereBatch.main, SphereBatch.ensure_directories, SphereBatch.mkdir,
      SphereBatch.setup_logging, SphereBatch.get_fits_files, w0, at_loop_start.
    cbn [for_each]. unfold SphereBatch.log_info, SphereBatch.log_warning.
    cbv beta. rewrite bind_run, !ret_bind. cbn [ret]. rewrite ret_bind.
    repeat (rewrite log_bind; cbv beta).
    rewrite bind_run. cbv beta zeta. rewrite log_bind.
    cbn [mret M_ret ret raw_data set_ledger ledger].
    rewrite <- !app_assoc. reflexivity. }
  unfold SphereBatch.log_info, SphereBatch.log_warning.
  destruct fits_files as [|f rest] eqn:Efiles.
  - rewrite log_bind. reflexivity.
  - rewrite bind_run.
    destruct (batch_loop_run env (f :: rest) 0 0 w0)
      as (r & w1 & E & Hpopen & Hok & Habort).
    fold outcomes in Hpopen, Hok, Habort. fold failed in Hok.
    rewrite E. destruct (item_outcomes_shape env (f :: rest) w0)
      as [[Hall _] | (attempted & e & Hsplit & _)];
      [fold outcomes in Hall | fold outcomes in Hsplit].
    + rewrite (Hok Hall). cbn [fst snd]. repeat (rewrite log_bind; cbv beta).
      eexists _, _. split; [reflexivity|]. split; [exact Hpopen|].
      split; [reflexivity|]. intros attempted e Hsplit. rewrite Hsplit in Hall.
      apply Forall_app in Hall as [_ Hall].
      apply Forall_cons_1 in Hall as [[b Hb] _]. discriminate.
    + rewrite (Habort _ _ Hsplit). eexists _, _. split; [reflexivity|].
      split; [exact Hpopen|]. split.
      * intros Hall. rewrite Hsplit in Hall. apply Forall_app in Hall as [_ Hall].
        apply Forall_cons_1 in Hall as [[b Hb] _]. discriminate.
      * intros attempted' e' Hsplit'. rewrite Hsplit in Hsplit'.
        apply app_inj_tail in Hsplit' as [_ [= ->]]. reflexivity.
Qed.

(** ** The single-item script *)

Lemma glob_fits_run s :
  exists fs,
    Automate.glob_fits s = (Ok fs, s) /\ List.NoDup fs
    /\ forall k, In k fs <->
                 fnmatch_fits k = true /\ is_Some (Automate.pipeline_products s !! k).
Proof.
  eexists. split; [reflexivity|]. split.
  - apply List.NoDup_filter, NoDup_ListNoDup, NoDup_fst_map_to_list.
  - intros k. rewrite filter_In, <- list_elem_of_In, list_elem_of_fmap. split.
    + intros [([k' data] & -> & Hin%elem_of_map_to_list) Hpat]. eauto.
    + intros [Hpat [data Hdata]]. split; [|exact Hpat].
      exists (k, data). split; [reflexivity|]. now apply elem_of_map_to_list.
Qed.

(** The loop moves the listed files whose name contains the stem, replacing
    what the destination holds under their names, and nothing else. *)
Lemma move_loop_run input_name fs : forall moved s,
  List.NoDup fs ->
  (forall f, In f fs -> is_Some (Automate.pipeline_products s !! f)) ->
  exists moved' s',
    Automate.move_loop input_name fs moved s = (Ok moved', s')
    /\ (forall k, In k fs -> str_in input_name k = true ->
          Automate.pipeline_products s' !! k = None
          /\ Automate.final_dir s' !! k = Automate.pipeline_products s !! k)
    /\ (forall k, ~ (In k fs /\ str_in input_name k = true) ->
          Automate.pipeline_products s' !! k = Automate.pipeline_products s !! k
          /\ Automate.final_dir s' !! k = Automate.final_dir s !! k)
    /\ Automate.launches s' = Automate.launches s
    /\ Automate.clock s' = Automate.clock s
    /\ Automate.appends s' = Automate.appends s
    /\ Automate.console s' = Automate.console s
    /\ Automate.pipeline_log s' = Automate.pipeline_log s.
Proof.
  induction fs as [|f rest IH]; intros moved s Hnodup Hpresent.
  - exists moved, s. split; [reflexivity|]. split_and!; auto.
    intros k [].
  - apply List.NoDup_cons_iff in Hnodup as [Hfresh Hnodup].
    cbn [Automate.move_loop]. destruct (str_in input_name f) eqn:Hstem.
    + rewrite bind_run. unfold Automate.shutil_move.
      destruct (Hpresent f (or_introl eq_refl)) as [data Hdata]. rewrite Hdata.
      match goal with
      | |- context [Automate.move_loop input_name rest ?m ?s1] =>
          destruct (IH m s1 Hnodup)
            as (moved' & s' & E & Hmoved & Hkept & Hlaunches & Hclock
                & Happends & Hconsole & Hlog)
      end.
      { intros f' Hf'. cbn. rewrite lookup_delete_ne by congruence.
        apply Hpresent. now right. }
      cbn in Hmoved, Hkept, Hlaunches, Hclock, Happends, Hconsole, Hlog.
      exists moved', s'. split; [exact E|]. split_and!; auto.
      * intros k [<- | Hk] Hin.
        -- destruct (Hkept f) as [-> ->]; [now intros [? _]|].
           now rewrite lookup_delete_eq, lookup_insert_eq.
        -- destruct (Hmoved k Hk Hin) as [-> ->].
           split; [reflexivity|]. apply lookup_delete_ne. congruence.
      * intros k Hk. destruct (Hkept k) as [-> ->];
          [intros [? ?]; apply Hk; split; [now right | assumption]|].
        assert (f <> k) by (intros <-; apply Hk; split; [now left | exact Hstem]).
        now rewrite lookup_delete_ne, lookup_insert_ne.
    + destruct (IH moved s Hnodup)
        as (moved' & s' & E & Hmoved & Hkept & Hrest).
      { intros f' Hf'. apply Hpresent. now right. }
      exists moved', s'. split; [exact E|]. split_and!; try apply Hrest.
      * intros k [<- | Hk] Hin; [congruence | auto].
      * intros k Hk. apply Hkept. intros [? ?]. apply Hk.
        split; [now right | assumption].
Qed.

(** [append_log]: the record is printed, and added to the log unless that
    raises; the directories are not touched. *)
Lemma append_log_run env message s :
  let msg := Automate.isoformat_now env (Automate.clock s) +:+ " " +:+ message in
  exists r s',
    Automate.append_log env message s = (r, s')
    /\ Automate.pipeline_products s' = Automate.pipeline_products s
    /\ Automate.final_dir s' = Automate.final_dir s
    /\ Automate.launches s' = Automate.launches s
    /\ Automate.appends s' = S (Automate.appends s)
    /\ Automate.clock s' = S (Automate.clock s)
    /\ Automate.console s' = Automate.console s ++ [msg]
    /\ match Automate.append_fault env (Automate.appends s) with
       | Some (e, _) => r = Raise e
       | None =>
           r = Ok tt
           /\ Automate.pipeline_log s'
              = Automate.pipeline_log s +:+ msg +:+ newline
       end.
Proof.
  unfold Automate.append_log, Automate.now_isoformat, Automate.print,
    Automate.mkdir, Automate.append_to_log.
  run. cbn.
  destruct (Automate.append_fault env (Automate.appends s)) as [[e n]|];
    eexists _, _; (split; [reflexivity|]); cbn; now repeat split.
Qed.

(** [move_outputs]: the regular files of [PIPELINE_OUTPUT_DIR] whose name
    ends in [.fits] and contains the stem are moved, the others stay; the
    call raises only when its record cannot be added to the log, after the
    files have been moved. *)
Lemma move_outputs_run env input_fits_file s :
  let selected k :=
    is_Some (Automate.pipeline_products s !! k) /\ fnmatch_fits k = true
    /\ str_in (stem (Automate.basename input_fits_file)) k = true in
  exists r s',
    Automate.move_outputs env input_fits_file s = (r, s')
    /\ (forall k, selected k ->
          Automate.pipeline_products s' !! k = None
          /\ Automate.final_dir s' !! k = Automate.pipeline_products s !! k)
    /\ (forall k, ~ selected k ->
          Automate.pipeline_products s' !! k = Automate.pipeline_products s !! k
          /\ Automate.final_dir s' !! k = Automate.final_dir s !! k)
    /\ Automate.launches s' = Automate.launches s
    /\ r = match Automate.append_fault env (Automate.appends s) with
           | Some (e, _) => Raise e
           | None => Ok tt
           end
    /\ exists record,
         Automate.console s' = Automate.console s ++ [record]
         /\ (Automate.append_fault env (Automate.appends s) = None ->
             Automate.pipeline_log s'
             = Automate.pipeline_log s +:+ record +:+ newline).
Proof.
  intros selected. unfold Automate.move_outputs, Automate.mkdir.
  rewrite ret_bind, bind_run.
  destruct (glob_fits_run s) as (fs & -> & Hnodup & Hfs).
  rewrite bind_run.
  destruct (move_loop_run (stem (Automate.basename input_fits_file)) fs [] s Hnodup)
    as (moved & s1 & -> & Hmoved & Hkept & Hlaunches & Hclock & Happends
        & Hconsole & Hlog).
  { intros f Hf. now apply Hfs. }
  match goal with
  | |- context [Automate.append_log env ?m s1] =>
      destruct (append_log_run env m s1)
        as (r & s2 & -> & Hpp & Hfd & Hl & _ & _ & Hconsole2 & Hr)
  end.
  exists r, s2. split; [reflexivity|]. rewrite Hpp, Hfd, Hl. split_and!; auto.
  - intros k (Hsome & Hpat & Hin). apply Hmoved; [|exact Hin]. now apply Hfs.
  - intros k Hk. apply Hkept. intros [Hin Hstem]. apply Hk.
    apply Hfs in Hin as [Hpat Hsome]. now repeat split.
  - rewrite Happends in Hr.
    now destruct (Automate.append_fault env (Automate.appends s)) as [[e n]|].
  - eexists. rewrite Hconsole2, Hconsole. split; [reflexivity|].
    intros Hnone. rewrite Happends, Hnone in Hr. destruct Hr as [_ ->].
    now rewrite Hlog.
Qed.

(** The loop over the engine's output: every line is printed and written
    to the log, up to the first write that raises. *)
Lemma print_write_loop_run process logf lines : forall s,
  exists r s',
    for_each lines
      (fun line => Automate.print (fst line);; Automate.write process logf line) s
    = (r, s')
    /\ Automate.launches s' = Automate.launches s
    /\ Automate.clock s' = Automate.clock s
    /\ Automate.appends s' = Automate.appends s
    /\ Automate.pipeline_products s' = Automate.pipeline_products s
    /\ Automate.final_dir s' = Automate.final_dir s
    /\ (forallb (fun line => no_fault (snd line)) lines = true ->
        r = Ok tt
        /\ Automate.console s' = Automate.console s ++ map fst lines
        /\ Automate.pipeline_log s'
           = Automate.pipeline_log s +:+ stream_text lines)
    /\ (forallb (fun line => no_fault (snd line)) lines = false ->
        exists e, r = Raise e).
Proof.
  induction lines as [|line rest IH]; intros s.
  - exists (Ok tt), s. split_and!; auto; [|discriminate].
    intros _. cbn. now rewrite app_nil_r, append_nil_r.
  - cbn [for_each forallb]. rewrite bind_run, bind_run.
    unfold Automate.print at 1, Automate.write at 1. cbv zeta.
    destruct (snd line) as [e|]; cbn [no_fault andb].
    + eexists _, _. split; [reflexivity|]. split_and!; auto; [discriminate | eauto].
    + match goal with
      | |- context [for_each rest _ ?s1] =>
          destruct (IH s1) as (r & s' & -> & Hl & Hc & Ha & Hpp & Hfd & Hok & Hraise)
      end.
      exists r, s'. split; [reflexivity|]. split_and!; auto.
      intros Hall. destruct (Hok Hall) as (-> & Hconsole & Hlog).
      split; [reflexivity|]. rewrite Hconsole, Hlog. cbn.
      now rewrite <- app_assoc, append_assoc.
Qed.

(** The [with] block of [run_pipeline]. *)
Lemma stream_block_run_a process logf s :
  exists r s',
    with_closing (Automate.close_a process logf)
      (for_each (stdout process)
         (fun line => Automate.print (fst line);;
                      Automate.write process logf line);;
       Automate.end_of_stream process) s = (r, s')
    /\ Automate.launches s' = Automate.launches s
    /\ Automate.clock s' = Automate.clock s
    /\ Automate.appends s' = Automate.appends s
    /\ Automate.pipeline_products s' = Automate.pipeline_products s
    /\ Automate.final_dir s' = Automate.final_dir s
    /\ (forallb (fun line => no_fault (snd line)) (stdout process)
        && no_fault (read_fault process)
        && no_fault (close_fault process) = true ->
        r = Ok tt
        /\ Automate.console s' = Automate.console s ++ map fst (stdout process)
        /\ Automate.pipeline_log s'
           = Automate.pipeline_log s +:+ stream_text (stdout process))
    /\ (forallb (fun line => no_fault (snd line)) (stdout process)
        && no_fault (read_fault process)
        && no_fault (close_fault process) = false ->
        exists e, r = Raise e).
Proof.
  unfold with_closing. rewrite bind_run.
  destruct (print_write_loop_run process logf (stdout process) s)
    as (r1 & s1 & E & Hl & Hc & Ha & Hpp & Hfd & Hok & Hraise).
  rewrite E. unfold Automate.end_of_stream, Automate.close_a.
  destruct (forallb _ (stdout process)).
  - destruct (Hok eq_refl) as (-> & Hconsole & Hlog).
    destruct (read_fault process) as [e|], (close_fault process) as [e'|];
      cbn; eexists _, _; (split; [reflexivity|]); cbn;
      split_and!; auto; try discriminate; eauto.
  - destruct (Hraise eq_refl) as [e ->].
    destruct (close_fault process) as [e'|];
      cbn; eexists _, _; (split; [reflexivity|]); cbn;
      split_and!; auto; try discriminate; eauto.
Qed.

(** A run of the pipeline, up to the record of the exit status. *)
Lemma run_pipeline_run env input_fits_file s :
  let process := Automate.launch env (Automate.launches s) in
  let input := Automate.resolve env input_fits_file in
  match Automate.append_fault env (Automate.appends s) with
  | Some (e, _) =>
      exists s',
        Automate.run_pipeline env input_fits_file s = (Raise e, s')
        /\ Automate.launches s' = Automate.launches s
        /\ Automate.pipeline_products s' = Automate.pipeline_products s
        /\ Automate.final_dir s' = Automate.final_dir s
  | None =>
      if reaches_wait process
      then
        let launching :=
          Automate.isoformat_now env (Automate.clock s) +:+ " "
          +:+ "[run_pipeline] Launching: "
          +:+ join " "
                ["/home/michael/install/esoreflex-2.11.5/esoreflex/bin/esoreflex";
                 "/home/michael/install/share/reflex/workflows/spher-0.58.1/sphere_ifs_custom1.kar"] in
        exists s3,
          Automate.run_pipeline env input_fits_file s
          = (Automate.append_log env
               ("[run_pipeline] Exit code: " +:+ pretty (returncode process));;
             if (returncode process =? 0)%Z
             then Automate.move_outputs env input
             else Automate.append_log env
                    ("[ERROR] Pipeline failed for " +:+ input)) s3
          /\ Automate.launches s3 = S (Automate.launches s)
          /\ Automate.appends s3 = S (Automate.appends s)
          /\ Automate.clock s3 = S (Automate.clock s)
          /\ Automate.pipeline_products s3 = products_after process
          /\ Automate.final_dir s3 = Automate.final_dir s
          /\ Automate.console s3
             = Automate.console s
               ++ ["[run_pipeline] Called with: " +:+ input;
                   "[run_pipeline] CWD: " +:+ Automate.getcwd env;
                   launching]
               ++ map fst (stdout process)
          /\ Automate.pipeline_log s3
             = Automate.pipeline_log s +:+ launching +:+ newline
               +:+ stream_text (stdout process)
      else
        exists e s',
          Automate.run_pipeline env input_fits_file s = (Raise e, s')
          /\ Automate.launches s' = S (Automate.launches s)
          /\ Automate.final_dir s' = Automate.final_dir s
          /\ Automate.pipeline_products s'
             = if no_fault (popen_fault process) then products_after process
               else Automate.pipeline_products s
  end.
Proof.
  intros process input. unfold reaches_wait.
  remember (Automate.run_pipeline env input_fits_file s) as result eqn:E.
  unfold Automate.run_pipeline in E. cbv zeta in E. fold input in E.
  rewrite bind_run in E. unfold Automate.print at 1 in E. cbv beta iota in E.
  rewrite bind_run in E. unfold Automate.print at 1 in E. cbv beta iota in E.
  rewrite bind_run in E.
  match type of E with
  | context [Automate.append_log env ?m ?s0] =>
      destruct (append_log_run env m s0)
        as (r1 & s1 & E1 & Hpp1 & Hfd1 & Hl1 & Ha1 & Hc1 & Hconsole1 & Hr1);
      rewrite E1 in E; clear E1
  end.
  cbn in Hpp1, Hfd1, Hl1, Ha1, Hc1, Hconsole1, Hr1.
  destruct (Automate.append_fault env (Automate.appends s)) as [[e n]|].
  { subst r1 result. exists s1. now split_and!. }
  destruct Hr1 as [-> Hlog1].
  rewrite bind_run in E. unfold Automate.popen in E.
  rewrite Hl1 in E. fold process in E.
  destruct (popen_fault process) as [e|]; cbn [no_fault andb].
  { subst result. eexists _, _. split; [reflexivity|]. cbn. split_and!; congruence. }
  rewrite bind_run in E. unfold Automate.open_a in E.
  destruct (log_open_fault process) as [e|]; cbn [no_fault andb].
  { subst result. eexists _, _. split; [reflexivity|]. cbn. split_and!; congruence. }
  rewrite bind_run in E.
  match type of E with
  | context [with_closing (Automate.close_a _ ?logf) _ ?s2] =>
      destruct (stream_block_run_a process logf s2)
        as (r & s3 & E3 & Hl3 & Hc3 & Ha3 & Hpp3 & Hfd3 & Hok & Hraise);
      rewrite E3 in E; clear E3
  end.
  cbn in Hl3, Hc3, Ha3, Hpp3, Hfd3, Hok.
  destruct (forallb _ (stdout process) && no_fault (read_fault process)
            && no_fault (close_fault process)).
  - destruct (Hok eq_refl) as (-> & Hconsole3 & Hlog3).
    exists s3. split; [exact E|]. split_and!; try congruence.
    + rewrite Hconsole3, Hconsole1, <- !app_assoc. reflexivity.
    + rewrite Hlog3, Hlog1. cbn. rewrite !append_assoc. reflexivity.
  - destruct (Hraise eq_refl) as [e ->]. subst result.
    eexists _, _. split; [reflexivity|]. cbn. split_and!; congruence.
Qed.

(** ** More on the relocator *)


(** No step of the relocation removes a file of the destination. *)
Lemma move_one_monotone env product w k :
  is_Some (reduced w !! k) ->
  is_Some (reduced (snd (SphereBatch.move_one env product w)) !! k).
Proof.
  unfold SphereBatch.move_one, SphereBatch.dest_exists,
    SphereBatch.timestamp_now, SphereBatch.copy2, SphereBatch.log_info,
    SphereBatch.log.
  run. simpl.
  destruct (bool_decide (is_Some (reduced w !! path_name product))); simpl;
    destruct (option_bind _ _ (fun root => lookup_path root product) (products w))
      as [[name data | name children] |]; simpl;
    try destruct (copy_fault env (copy_calls w)) as [e|]; simpl; auto;
    intros Hk; rewrite lookup_insert; case_decide; eauto.
Qed.

Lemma move_all_monotone env found : forall w k,
  is_Some (reduced w !! k) ->
  is_Some (reduced (snd (for_each found (SphereBatch.move_one env) w)) !! k).
Proof.
  induction found as [|product rest IH]; intros w k Hk; [exact Hk|].
  cbn [for_each]. rewrite bind_run.
  pose proof (move_one_monotone env product w k Hk) as H1.
  destruct (SphereBatch.move_one env product w) as [[[]|e|status] w1];
    cbn [snd] in *; auto.
Qed.



(** A file of the destination survives the relocation unless its name is a
    timestamped name of one of the products. *)
Lemma move_all_keeps env found : forall w k old,
  reduced w !! k = Some old ->
  (forall product timestamp,
     In product found -> k <> timestamped (path_name product) timestamp) ->
  reduced (snd (for_each found (SphereBatch.move_one env) w)) !! k = Some old.
Proof.
  induction found as [|p rest IH]; intros w k old Hk Hfresh; [exact Hk|].
  cbn [for_each]. rewrite bind_run.
  destruct (move_one_summary env p w)
    as (r & w1 & E & Hr & _ & _ & _ & _ & Hkept & _).
  rewrite E.
  assert (reduced w1 !! k = Some old) as Hk1.
  { rewrite Hkept; [exact Hk|]. unfold move_target. case_bool_decide as Hc.
    - apply (Hfresh p). now left.
    - intros ->. apply Hc. eauto. }
  destruct Hr as [-> | [e ->]]; [|exact Hk1].
  apply IH; [exact Hk1|]. intros product timestamp Hin.
  apply Hfresh. now right.
Qed.

(** ** Counting located products *)

(** When a step succeeds, and what it counts. *)
Lemma move_one_result env product w :
  (fst (SphereBatch.move_one env product w) = Ok tt
   <-> is_Some (product_data w product)
       /\ copy_fault env (copy_calls w) = None)
  /\ copy_calls (snd (SphereBatch.move_one env product w)) = S (copy_calls w)
  /\ clock_reads (snd (SphereBatch.move_one env product w))
     = clock_reads w
       + (if bool_decide (is_Some (reduced w !! path_name product))
          then 1 else 0).
Proof.
  unfold SphereBatch.move_one, product_data, SphereBatch.dest_exists,
    SphereBatch.timestamp_now, SphereBatch.copy2, SphereBatch.log_info,
    SphereBatch.log.
  run. simpl.
  destruct (bool_decide (is_Some (reduced w !! path_name product))); simpl;
    destruct (option_bind _ _ (fun root => lookup_path root product) (products w))
      as [[name data | name children] |]; simpl;
    try destruct (copy_fault env (copy_calls w)) as [e|]; simpl;
    (split; [split; [intros H; try discriminate; split; eauto
                    | intros [[? H] H']; try discriminate; reflexivity]
            | split; [reflexivity | lia]]).
Qed.

Lemma move_one_product_data env product w other :
  product_data (snd (SphereBatch.move_one env product w)) other
  = product_data w other.
Proof.
  destruct (move_one_summary env product w)
    as (r & w1 & E & _ & Hp & _). rewrite E. cbn [snd].
  unfold product_data. now rewrite Hp.
Qed.








(** * The claims *)

(** ** The artifact locator *)

(** C1, counterexample.  The output tree holds [run1/A_out.fits]; for the
    input [A.fits] the stem is [A] and the path of that file contains it,
    yet the locator returns nothing: the directory [run1] does not contain
    the stem, and the file's own name is never looked at. *)
Lemma locator_omits_file_named_after_stem :
  entry_at stray_tree ["run1"; "A_out.fits"]
           (File "A_out.fits" (bytes_of "stray"))
  /\ str_in (stem "A.fits")
            (SphereBatch.str_path SphereBatch.REFLEX_PRODUCTS_ROOT
                                  ["run1"; "A_out.fits"]) = true
  /\ fst (SphereBatch.find_output_products (steady_environment 0 None)
                                           "A.fits" stray_world) = Ok [].
Proof.
  split; [|split; vm_compute; reflexivity].
  apply (entry_below stray_tree "run1"
           [File "A_out.fits" (bytes_of "stray")] ["A_out.fits"]).
  - now left.
  - apply (entry_here _ (File "A_out.fits" (bytes_of "stray"))). now left.
Qed.

(** C1, as amended.  [find_output_products] returns a list unless the
    search of the tree raises, and then that exception leaves it; the
    members of the list are exactly the paths [q ++ r] where [q] leads, from
    the output root, to a directory whose own name contains the stem and [r]
    leads, from that directory, to an entry whose name matches [*.fits]; the
    path of every member contains the stem.  The script's [move_outputs]
    takes a regular file of its output directory exactly when its name
    matches [*.fits] and contains the stem. *)
Theorem locator_returns_products_below_matching_directories :
  (forall env fits_file w,
     match search_fault env (popen_calls w) with
     | Some e => fst (SphereBatch.find_output_products env fits_file w) = Raise e
     | None =>
     exists found,
       fst (SphereBatch.find_output_products env fits_file w) = Ok found
       /\ (forall p,
             In p found <->
             exists root q d children r n,
               products w = Some root
               /\ entry_at root q (Dir d children)
               /\ str_in (stem fits_file) d = true
               /\ entry_at children r n
               /\ fnmatch_fits (node_name n) = true
               /\ p = q ++ r)
       /\ (forall p,
             In p found ->
             str_in (stem fits_file)
                    (SphereBatch.str_path SphereBatch.REFLEX_PRODUCTS_ROOT p)
             = true)
     end)
  /\ (forall env input_fits_file s k data,
        Automate.pipeline_products s !! k = Some data ->
        (Automate.pipeline_products
           (snd (Automate.move_outputs env input_fits_file s)) !! k = None
         <-> fnmatch_fits k = true
             /\ str_in (stem (Automate.basename input_fits_file)) k = true)).
Proof.
  split.
  - intros env fits_file w. rewrite find_output_products_run.
    destruct (search_fault env (popen_calls w)) as [e|]; [reflexivity|].
    destruct (products w) as [root|]; cbn [fst].
    + eexists. split; [reflexivity|]. split.
      * intros p. rewrite collect_products_spec. split.
        -- intros (q & d & ch & r & n & H). now exists root, q, d, ch, r, n.
        -- intros (root' & q & d & ch & r & n & E & H). injection E as <-.
           now exists q, d, ch, r, n.
      * intros p (d & Hd & Hstem)%collect_products_component.
        unfold SphereBatch.str_path. eapply str_in_join; [|exact Hstem].
        now right.
    + exists []. split; [reflexivity|]. split; [|intros p []].
      intros p. split; [intros []|].
      intros (root & q & d & ch & r & n & E & _). discriminate.
  - intros env input s k data Hk.
    destruct (move_outputs_run env input s) as (r & s' & E & Hmoved & Hkept & _).
    rewrite E. cbn [snd]. split.
    + intros Hgone.
      destruct (fnmatch_fits k) eqn:Hpat;
        [destruct (str_in (stem (Automate.basename input)) k) eqn:Hstem|];
        [now split|..];
        (destruct (Hkept k) as [Hsame _];
         [intros (_ & ? & ?); congruence | congruence]).
    + intros [Hpat Hstem]. apply Hmoved. split; [eauto | now split].
Qed.

(** C1, witness: the tree of the specification's scenario, and the script's
    clash. *)
Lemma locator_returns_products_below_matching_directories_witness :
  (exists found,
     fst (SphereBatch.find_output_products (steady_environment 0 None) "A.fits"
            (world_of [] (Some scenario_tree) ∅)) = Ok found
     /\ In ["run1"; "A_tpl"; "out1.fits"] found
     /\ str_in (stem "A.fits")
               (SphereBatch.str_path SphereBatch.REFLEX_PRODUCTS_ROOT
                                     ["run1"; "A_tpl"; "out1.fits"]) = true)
  /\ Automate.pipeline_products
        (snd (Automate.move_outputs (script_surroundings 0 ∅)
                "/home/michael/automation/raw_data/A.fits" clash_state))
      !! "A_1.fits" = None.
Proof.
  split.
  - pose proof (proj1 locator_returns_products_below_matching_directories
                  (steady_environment 0 None) "A.fits"
                  (world_of [] (Some scenario_tree) ∅)) as Hlocator.
    cbn [search_fault steady_environment] in Hlocator.
    destruct Hlocator as (found & E & Hmembers & Hpath).
    exists found. split; [exact E|].
    assert (In ["run1"; "A_tpl"; "out1.fits"] found) as Hin.
    { apply Hmembers.
      exists scenario_tree, ["run1"; "A_tpl"], "A_tpl",
        [File "out1.fits" (bytes_of "reduced")], ["out1.fits"],
        (File "out1.fits" (bytes_of "reduced")).
      split; [reflexivity|]. split.
      - apply (entry_below scenario_tree "run1"
                 [Dir "A_tpl" [File "out1.fits" (bytes_of "reduced")]] ["A_tpl"]).
        + now left.
        + apply (entry_here _ (Dir "A_tpl" [File "out1.fits" (bytes_of "reduced")])).
          now left.
      - split; [reflexivity|]. split.
        + apply (entry_here _ (File "out1.fits" (bytes_of "reduced"))). now left.
        + split; reflexivity. }
    split; [exact Hin | exact (Hpath _ Hin)].
  - apply (proj2 locator_returns_products_below_matching_directories
             (script_surroundings 0 ∅)
             "/home/michael/automation/raw_data/A.fits" clash_state
             "A_1.fits" (bytes_of "new")).
    + vm_compute. reflexivity.
    + split; vm_compute; reflexivity.
Defined.



(** ** The relocator *)

(** C2, counterexample.  The destination holds [out.fits]; the locator
    returns two products of that name, from the directories [x] and [y] of
    [A_tpl]; the clock reads the same second for both.  The first is copied
    to [out_20260101_120000.fits], and the second copy replaces that file:
    the relocation reports success and the first product is in no file of the
    destination.  In the script, [move_outputs] replaces a destination file
    that has the name of a product. *)
Lemma relocation_overwrites_copy :
  SphereBatch.collect_products "A" twin_tree
  = [["A_tpl"; "x"; "out.fits"]; ["A_tpl"; "y"; "out.fits"]]
  /\ reduced (snd (SphereBatch.move_one (steady_environment 0 None)
                     ["A_tpl"; "x"; "out.fits"] twin_world))
     !! "out_20260101_120000.fits" = Some (bytes_of "first")
  /\ fst (SphereBatch.move_products_to_reduced_dir (steady_environment 0 None)
            [["A_tpl"; "x"; "out.fits"]; ["A_tpl"; "y"; "out.fits"]]
            "A.fits" twin_world) = Ok true
  /\ map_to_list
       (reduced (snd (SphereBatch.move_products_to_reduced_dir
                        (steady_environment 0 None)
                        [["A_tpl"; "x"; "out.fits"]; ["A_tpl"; "y"; "out.fits"]]
                        "A.fits" twin_world)))
     = [("out_20260101_120000.fits", bytes_of "second");
        ("out.fits", bytes_of "old")]
  /\ Automate.final_dir clash_state !! "A_1.fits" = Some (bytes_of "old")
  /\ Automate.final_dir
       (snd (Automate.move_outputs (script_surroundings 0 ∅)
               "/home/michael/automation/raw_data/A.fits" clash_state))
     !! "A_1.fits" = Some (bytes_of "new").
Proof. repeat split; vm_compute; reflexivity. Qed.

(** C2, as amended.  In the batch relocator, a file of the destination is
    left as it is by the whole relocation unless its name is made of the
    stem of a product, a timestamp and the product's suffix; a step that
    finds the product's name taken writes to the name with the current
    timestamp, which differs from the product's name, and a step that
    succeeds has written the product's content there; a step changes no file
    but the one it writes.  The script's [move_outputs] puts every product it
    takes under its own name, whatever the destination held. *)
Theorem relocation_collision_handling :
  (forall env found fits_file w k old,
     reduced w !! k = Some old ->
     (forall product timestamp,
        In product found -> k <> timestamped (path_name product) timestamp) ->
     reduced (snd (SphereBatch.move_products_to_reduced_dir
                     env found fits_file w)) !! k = Some old)
  /\ (forall env product w,
        let w' := snd (SphereBatch.move_one env product w) in
        (is_Some (reduced w !! path_name product) ->
         move_target env product w
         = timestamped (path_name product) (now env (clock_reads w))
         /\ move_target env product w <> path_name product
         /\ reduced w' !! path_name product = reduced w !! path_name product)
        /\ (reduced w !! path_name product = None ->
            move_target env product w = path_name product)
        /\ (forall k, k <> move_target env product w ->
                      reduced w' !! k = reduced w !! k)
        /\ (fst (SphereBatch.move_one env product w) = Ok tt ->
            exists data,
              product_data w product = Some data
              /\ reduced w' !! move_target env product w = Some data))
  /\ (forall env input_fits_file s k data,
        Automate.pipeline_products s !! k = Some data ->
        fnmatch_fits k = true ->
        str_in (stem (Automate.basename input_fits_file)) k = true ->
        Automate.final_dir (snd (Automate.move_outputs env input_fits_file s))
        !! k = Some data).
Proof.
  split; [|split].
  - intros env found fits_file w k old Hk Hfresh.
    unfold SphereBatch.move_products_to_reduced_dir, SphereBatch.mkdir.
    rewrite ret_bind. destruct found as [|p rest] eqn:Efound; [exact Hk|].
    rewrite <- Efound in *. unfold try_except. rewrite bind_run.
    pose proof (move_all_keeps env found w k old Hk Hfresh) as Hkept.
    destruct (for_each found (SphereBatch.move_one env) w) as [[[]|e|status] w1];
      exact Hkept.
  - intros env product w w'.
    destruct (move_one_summary env product w)
      as (r & w1 & E & _ & _ & _ & _ & _ & Hkept & _ & Hdata).
    subst w'. rewrite E. cbn [fst snd]. split_and!.
    + intros Hc. unfold move_target at 1 2.
      rewrite (bool_decide_eq_true_2 _ Hc). split; [reflexivity|].
      split; [apply timestamped_name_fresh|].
      apply Hkept. unfold move_target. rewrite (bool_decide_eq_true_2 _ Hc).
      apply not_eq_sym, timestamped_name_fresh.
    + intros Hfree. unfold move_target. rewrite bool_decide_eq_false_2; [reflexivity|].
      rewrite Hfree. now intros [? ?].
    + exact Hkept.
    + exact Hdata.
  - intros env input s k data Hk Hpat Hstem.
    destruct (move_outputs_run env input s) as (r & s' & E & Hmoved & _).
    rewrite E. cbn [snd]. destruct (Hmoved k) as [_ ->]; [|exact Hk].
    split; [eauto | now split].
Qed.

(** C2, witness: the two products of [twin_tree], the old [out.fits], and
    the script's clash. *)
Lemma relocation_collision_handling_witness :
  reduced (snd (SphereBatch.move_products_to_reduced_dir
                  (steady_environment 0 None)
                  [["A_tpl"; "x"; "out.fits"]; ["A_tpl"; "y"; "out.fits"]]
                  "A.fits" twin_world)) !! "out.fits" = Some (bytes_of "old")
  /\ (move_target (steady_environment 0 None) ["A_tpl"; "x"; "out.fits"] twin_world
      = timestamped "out.fits" "20260101_120000"
      /\ move_target (steady_environment 0 None) ["A_tpl"; "x"; "out.fits"] twin_world
         <> "out.fits"
      /\ reduced (snd (SphereBatch.move_one (steady_environment 0 None)
                         ["A_tpl"; "x"; "out.fits"] twin_world)) !! "out.fits"
         = reduced twin_world !! "out.fits")
  /\ Automate.final_dir
       (snd (Automate.move_outputs (script_surroundings 0 ∅)
               "/home/michael/automation/raw_data/A.fits" clash_state))
     !! "A_1.fits" = Some (bytes_of "new").
Proof.
  split; [|split].
  - apply (proj1 relocation_collision_handling (steady_environment 0 None)
             [["A_tpl"; "x"; "out.fits"]; ["A_tpl"; "y"; "out.fits"]]
             "A.fits" twin_world "out.fits" (bytes_of "old")).
    + vm_compute. reflexivity.
    + intros product timestamp Hin.
      apply not_eq_sym.
      destruct Hin as [<- | [<- | []]]; apply timestamped_name_fresh.
  - apply (proj1 (proj1 (proj2 relocation_collision_handling)
                    (steady_environment 0 None) ["A_tpl"; "x"; "out.fits"]
                    twin_world)).
    vm_compute. eauto.
  - apply (proj2 (proj2 relocation_collision_handling)
             (script_surroundings 0 ∅)
             "/home/michael/automation/raw_data/A.fits" clash_state
             "A_1.fits" (bytes_of "new")); vm_compute; reflexivity.
Defined.

(** C3, counterexample.  The script moves: after [move_outputs] the product
    [A_1.fits] is no longer in the engine's output directory. *)
Lemma script_removes_product_from_output_directory :
  Automate.pipeline_products clash_state !! "A_1.fits" = Some (bytes_of "new")
  /\ Automate.pipeline_products
       (snd (Automate.move_outputs (script_surroundings 0 ∅)
               "/home/michael/automation/raw_data/A.fits" clash_state))
     !! "A_1.fits" = None.
Proof. split; vm_compute; reflexivity. Qed.

(** C3, as amended.  In the batch pipeline neither the locator nor the
    relocator changes the engine's product tree: products are copied, and
    the tree is the same before and after.  The script's [move_outputs]
    moves: a product it takes is afterwards absent from the engine's output
    directory and present in the destination, and the files it does not take
    stay where they are. *)
Theorem relocation_copies_and_script_moves :
  (forall env found fits_file w,
     products (snd (SphereBatch.find_output_products env fits_file w))
     = products w
     /\ products (snd (SphereBatch.move_products_to_reduced_dir
                         env found fits_file w)) = products w)
  /\ (forall env input_fits_file s k,
        let s' := snd (Automate.move_outputs env input_fits_file s) in
        let taken :=
          is_Some (Automate.pipeline_products s !! k)
          /\ fnmatch_fits k = true
          /\ str_in (stem (Automate.basename input_fits_file)) k = true in
        (taken ->
         Automate.pipeline_products s' !! k = None
         /\ Automate.final_dir s' !! k = Automate.pipeline_products s !! k)
        /\ (~ taken ->
            Automate.pipeline_products s' !! k
            = Automate.pipeline_products s !! k)).
Proof.
  split.
  - intros env found fits_file w. split.
    + rewrite find_output_products_run.
      destruct (search_fault env (popen_calls w)); [reflexivity|].
      destruct (products w) eqn:Etree; cbn; exact Etree.
    + destruct (relocate_summary env found fits_file w) as (b & w' & E & Hp & _).
      now rewrite E.
  - intros env input s k s' taken. subst s' taken.
    destruct (move_outputs_run env input s) as (r & s' & E & Hmoved & Hkept & _).
    rewrite E. cbn [snd]. split.
    + apply Hmoved.
    + intros Hk. now apply Hkept.
Qed.

(** C3, witness: the script's clash. *)
Lemma relocation_copies_and_script_moves_witness :
  Automate.pipeline_products
    (snd (Automate.move_outputs (script_surroundings 0 ∅)
            "/home/michael/automation/raw_data/A.fits" clash_state))
  !! "A_1.fits" = None
  /\ Automate.final_dir
       (snd (Automate.move_outputs (script_surroundings 0 ∅)
               "/home/michael/automation/raw_data/A.fits" clash_state))
     !! "A_1.fits" = Automate.pipeline_products clash_state !! "A_1.fits".
Proof.
  apply (proj1 (proj2 relocation_copies_and_script_moves
                  (script_surroundings 0 ∅)
                  "/home/michael/automation/raw_data/A.fits" clash_state
                  "A_1.fits")).
  split; [vm_compute; eauto | split; vm_compute; reflexivity].
Defined.

(** C7.  With no product the relocator returns [False] and hands the ledger
    one record, the warning that no products were found; when it returns
    [False] on a list that is not empty, the records it hands over are
    informational ones for the products already copied and then one error
    record with the exception of the copy.  The two failures leave different
    records. *)
Theorem empty_products_reported_apart :
  forall env fits_file w,
    SphereBatch.move_products_to_reduced_dir env [] fits_file w
    = (Ok false,
       set_ledger
         (ledger w ++ [(WARNING, "No products found to move for " +:+ fits_file)])
         w)
    /\ forall found,
         found <> [] ->
         fst (SphereBatch.move_products_to_reduced_dir env found fits_file w)
         = Ok false ->
         exists moved e,
           ledger (snd (SphereBatch.move_products_to_reduced_dir
                          env found fits_file w))
           = ledger w ++ moved
             ++ [(ERROR, "Failed to move products: " +:+ exn_str e)]
           /\ Forall (fun record => fst record = INFO) moved.
Proof.
  intros env fits_file w. split; [reflexivity|].
  intros found Hfound Hfailed.
  destruct (relocate_summary env found fits_file w)
    as (b & w' & E & _ & _ & _ & _ & moved & tail & Hledger & Hinfo & _ & Hfalse).
  rewrite E in *. cbn [fst snd] in *. injection Hfailed as ->.
  destruct (Hfalse eq_refl) as [[Hempty _] | [_ [e ->]]]; [contradiction|].
  now exists moved, e.
Qed.

(** C7, witness: a product that is not in the tree, so that the copy fails. *)
Lemma empty_products_reported_apart_witness :
  exists moved e,
    ledger (snd (SphereBatch.move_products_to_reduced_dir
                   (steady_environment 0 None) [["gone.fits"]] "A.fits"
                   idle_world))
    = ledger idle_world ++ moved
      ++ [(ERROR, "Failed to move products: " +:+ exn_str e)]
    /\ Forall (fun record => fst record = INFO) moved.
Proof.
  apply (proj2 (empty_products_reported_apart (steady_environment 0 None)
                  "A.fits" idle_world) [["gone.fits"]]).
  - discriminate.
  - vm_compute. reflexivity.
Defined.

(** ** The engine invoker *)

Lemma no_fault_lines (lines : list (string * option exn)) :
  forallb (fun line => no_fault (snd line)) lines
  = forallb no_fault (map snd lines).
Proof.
  induction lines as [|line rest IH]; [reflexivity|].
  cbn [forallb map]. now rewrite IH.
Qed.

Lemma same_but_text_reaches_wait {T} (p p' : invocation T) :
  same_but_text p p' -> reaches_wait p' = reaches_wait p.
Proof.
  intros (Hpopen & Hopen & Hlines & Hread & Hclose & _). unfold reaches_wait.
  now rewrite Hpopen, Hopen, Hread, Hclose, !no_fault_lines, Hlines.
Qed.

(** C5, counterexample.  The engine starts and exits with status 0, but
    the per-input log cannot be opened: the invoker returns [False], and it
    does so without waiting for the engine. *)
Lemma invoker_fails_engine_that_exits_with_status_0 :
  popen_fault (engine unloggable_environment (popen_calls idle_world)) = None
  /\ returncode (engine unloggable_environment (popen_calls idle_world)) = 0%Z
  /\ fst (SphereBatch.launch_reflex_with_gui_automation
            unloggable_environment "A.fits" idle_world) = Ok false
  /\ List.last
       (ledger (snd (SphereBatch.launch_reflex_with_gui_automation
                       unloggable_environment "A.fits" idle_world)))
       (INFO, EmptyString)
     = (ERROR, "Failed to launch Reflex: [Errno 13] Permission denied").
Proof. repeat split; vm_compute; reflexivity. Qed.

(** C5, as amended.  The invoker returns [True] exactly when it got as far
    as [process.wait()] and the exit status is 0: a launch that fails gives
    [False]; once the output has been streamed to the log and the log closed
    without an exception, the result is the test of the exit status against
    0; and an engine that prints other lines, with or without completion
    markers, gets the same result. *)
Theorem invoker_outcome_is_exit_status :
  forall env fits_file w,
    let process := engine env (popen_calls w) in
    fst (SphereBatch.launch_reflex_with_gui_automation env fits_file w)
    = Ok (reaches_wait process && (returncode process =? 0)%Z)
    /\ (forall e,
          popen_fault process = Some e ->
          fst (SphereBatch.launch_reflex_with_gui_automation env fits_file w)
          = Ok false)
    /\ (reaches_wait process = true ->
        fst (SphereBatch.launch_reflex_with_gui_automation env fits_file w)
        = Ok (returncode process =? 0)%Z)
    /\ (forall env',
          (forall k, same_but_text (engine env k) (engine env' k)) ->
          fst (SphereBatch.launch_reflex_with_gui_automation env' fits_file w)
          = fst (SphereBatch.launch_reflex_with_gui_automation env fits_file w)).
Proof.
  intros env fits_file w process.
  destruct (launch_run env fits_file w) as (w' & E & _). fold process in E.
  rewrite E. cbn [fst]. split_and!.
  - reflexivity.
  - intros e He. unfold reaches_wait. now rewrite He.
  - now intros ->.
  - intros env' Hsame.
    destruct (launch_run env' fits_file w) as (w'' & E' & _). rewrite E'.
    cbn [fst]. destruct (Hsame (popen_calls w)) as (_ & _ & _ & _ & _ & Hcode).
    fold process in Hcode. rewrite Hcode.
    now rewrite (same_but_text_reaches_wait _ _ (Hsame (popen_calls w))).
Qed.

(** C5, witness: an engine that exits with status 3 after a completion
    marker. *)
Lemma invoker_outcome_is_exit_status_witness :
  fst (SphereBatch.launch_reflex_with_gui_automation
         (steady_environment 3 None) "A.fits" idle_world)
  = Ok (returncode (engine (steady_environment 3 None) (popen_calls idle_world))
        =? 0)%Z.
Proof.
  apply (proj1 (proj2 (proj2 (invoker_outcome_is_exit_status
                                (steady_environment 3 None) "A.fits" idle_world)))).
  reflexivity.
Defined.

(** C9.  The invoker always returns a Boolean, whatever the engine and the
    log do; and when launching the engine, opening the log, writing a line
    to it, reading the stream or closing the log raises, the Boolean is
    [False]. *)
Theorem invoker_never_raises :
  forall env fits_file w,
    let process := engine env (popen_calls w) in
    exists b,
      fst (SphereBatch.launch_reflex_with_gui_automation env fits_file w) = Ok b
      /\ (popen_fault process <> None
          \/ log_open_fault process <> None
          \/ Exists (fun line => snd line <> None) (stdout process)
          \/ read_fault process <> None
          \/ close_fault process <> None ->
          b = false).
Proof.
  intros env fits_file w process.
  destruct (launch_run env fits_file w) as (w' & E & _). fold process in E.
  rewrite E. eexists. split; [reflexivity|].
  intros Hfault. apply andb_false_intro1. unfold reaches_wait.
  destruct Hfault as [H | [H | [H | [H | H]]]].
  - destruct (popen_fault process); [reflexivity | contradiction].
  - destruct (log_open_fault process); [|contradiction].
    now rewrite andb_false_r.
  - assert (forallb (fun line => no_fault (snd line)) (stdout process) = false)
      as ->; [|now rewrite !andb_false_r].
    induction H as [line rest H | line rest H IH]; cbn [forallb].
    + destruct (snd line); [reflexivity | contradiction].
    + rewrite IH. apply andb_false_r.
  - destruct (read_fault process); [|contradiction].
    cbn [no_fault]. now rewrite !andb_false_r.
  - destruct (close_fault process); [|contradiction]. apply andb_false_r.
Qed.

(** C9, witness: the engine binary is missing. *)
Lemma invoker_never_raises_witness :
  exists b,
    fst (SphereBatch.launch_reflex_with_gui_automation
           {| engine := fun _ =>
                {| popen_fault :=
                     Some (Exn "FileNotFoundError"
                               "[Errno 2] No such file or directory");
                   log_open_fault := None; stdout := []; read_fault := None;
                   close_fault := None; flushed := 0;
                   returncode := 0%Z; products_after := None |};
              now := fun _ => "20260101_120000";
              copy_fault := fun _ => None;
              search_fault := fun _ => None |}
           "A.fits" idle_world) = Ok b
    /\ b = false.
Proof.
  destruct (invoker_never_raises
              {| engine := fun _ =>
                   {| popen_fault :=
                        Some (Exn "FileNotFoundError"
                                  "[Errno 2] No such file or directory");
                      log_open_fault := None; stdout := []; read_fault := None;
                      close_fault := None; flushed := 0;
                      returncode := 0%Z; products_after := None |};
                 now := fun _ => "20260101_120000";
                 copy_fault := fun _ => None;
                 search_fault := fun _ => None |}
              "A.fits" idle_world) as (b & E & Hfalse).
  exists b. split; [exact E|]. apply Hfalse. left. discriminate.
Defined.

(** ** The batch controller *)

Lemma no_failure_iff (outcomes : list (result bool)) :
  length (List.filter (fun r => negb (succeeded r)) outcomes) = 0
  <-> Forall (fun r => r = Ok true) outcomes.
Proof.
  induction outcomes as [|r rest IH]; [now split|].
  cbn [List.filter]. split.
  - destruct r as [[]|e|status]; cbn [succeeded negb length];
      try discriminate.
    intros H. constructor; [reflexivity | now apply IH].
  - intros H. apply Forall_cons_1 in H as [-> H]. cbn [succeeded negb].
    now apply IH.
Qed.

Lemma some_failure_iff (outcomes : list (result bool)) :
  Forall (fun r => exists b, r = Ok b) outcomes ->
  length (List.filter (fun r => negb (succeeded r)) outcomes) <> 0
  <-> Exists (fun r => r = Ok false) outcomes.
Proof.
  induction 1 as [|r rest [b ->] Hrest IH]; cbn [List.filter].
  - split; [now intros [] | intros H; inversion H].
  - destruct b; cbn [succeeded negb length].
    + rewrite IH. split; [now right|].
      intros H. apply Exists_cons in H as [H | H]; [discriminate | exact H].
    + split; [now left | discriminate].
Qed.

Lemma not_all_succeeded (outcomes : list (result bool)) :
  ~ Forall (fun r => r = Ok true) outcomes
  <-> Exists (fun r => r <> Ok true) outcomes.
Proof.
  induction outcomes as [|r rest IH].
  - split; [intros H; destruct H; constructor | intros H; inversion H].
  - split.
    + intros H. destruct r as [[]|e|status];
        try (left; discriminate).
      right. apply IH. intros Hrest. apply H. now constructor.
    + intros H Hall. apply Forall_cons_1 in Hall as [Hr Hrest].
      apply Exists_cons in H as [H | H]; [contradiction|].
      now apply IH in H.
Qed.

Lemma all_succeeded_iff (outcomes : list (result bool)) :
  forallb succeeded outcomes = true
  <-> Forall (fun r => r = Ok true) outcomes.
Proof.
  induction outcomes as [|r rest IH]; [now split|].
  cbn [forallb]. rewrite andb_true_iff, IH. split.
  - intros [Hr Hrest]. constructor; [|exact Hrest].
    now destruct r as [[]|e|status].
  - intros H. apply Forall_cons_1 in H as [-> H]. now split.
Qed.

(** The exit status of the batch and the outcomes of the files. *)
Lemma exit_status_run env w :
  let outcomes :=
    item_outcomes env (sorted (List.filter fnmatch_fits (raw_data w)))
                  (at_loop_start w) in
  popen_calls (snd (SphereBatch.main env w)) = popen_calls w + length outcomes
  /\ SphereBatch.exit_status env w
     = (if forallb succeeded outcomes then 0%Z else 1%Z)
  /\ (forall attempted e,
        outcomes = attempted ++ [Raise e] ->
        fst (SphereBatch.main env w) = Raise e).
Proof.
  intros outcomes.
  pose proof (main_run env w) as Hmain. cbv zeta in Hmain.
  pose proof (item_outcomes_shape env
                (sorted (List.filter fnmatch_fits (raw_data w)))
                (at_loop_start w)) as Hshape.
  cbv zeta in Hshape. fold outcomes in Hmain, Hshape.
  unfold SphereBatch.exit_status, status_of, id.
  destruct (sorted (List.filter fnmatch_fits (raw_data w))) as [|f rest] eqn:Efiles.
  - rewrite Hmain. subst outcomes. cbn. split; [lia|].
    split; [reflexivity|]. intros [|? ?] e; discriminate.
  - destruct Hmain as (r & w' & E & Hpopen & Hok & Habort). rewrite E.
    cbn [fst snd]. split; [exact Hpopen|]. split; [|exact Habort].
    destruct Hshape as [[Hall _] | (attempted & e & Hsplit & _)].
    + rewrite (Hok Hall).
      pose proof (no_failure_iff outcomes) as Hnone.
      pose proof (all_succeeded_iff outcomes) as Hgood.
      destruct (length (List.filter _ outcomes) =? 0) eqn:Hfailed.
      * apply Nat.eqb_eq in Hfailed. apply Hnone, Hgood in Hfailed.
        now rewrite Hfailed.
      * apply Nat.eqb_neq in Hfailed.
        destruct (forallb succeeded outcomes); [|reflexivity].
        exfalso. apply Hfailed, Hnone, Hgood. reflexivity.
    + rewrite (Habort _ _ Hsplit).
      destruct (forallb succeeded outcomes) eqn:Hgood; [|reflexivity].
      apply all_succeeded_iff in Hgood. rewrite Hsplit in Hgood.
      apply Forall_app in Hgood as [_ H].
      apply Forall_cons_1 in H as [H _]. discriminate.
Qed.

(** C4.  The batch on the inputs [A.fits] and [B.fits], when the engine
    succeeds for [A.fits] and leaves a tree that may not be searched: the
    locator raises, nothing catches the exception, and the batch ends there.
    [B.fits] is never attempted, the engine has been launched once, and the
    exit status is 1. *)
Lemma batch_stops_when_the_search_raises :
  sorted (List.filter fnmatch_fits (raw_data scenario_world)) = ["A.fits"; "B.fits"]
  /\ item_outcomes locked_environment ["A.fits"; "B.fits"]
                   (at_loop_start scenario_world)
     = [Raise (Exn "PermissionError" "[Errno 13] Permission denied")]
  /\ fst (SphereBatch.main locked_environment scenario_world)
     = Raise (Exn "PermissionError" "[Errno 13] Permission denied")
  /\ popen_calls (snd (SphereBatch.main locked_environment scenario_world)) = 1
  /\ logs (snd (SphereBatch.main locked_environment scenario_world))
     !! "reflex_B.log" = None
  /\ SphereBatch.exit_status locked_environment scenario_world = 1%Z.
Proof. repeat split; vm_compute; reflexivity. Qed.

(** C6.  When the source directory has no file matching [*.fits], the exit
    status is 0, no file is processed, and all that changes is the ledger,
    which receives no error record and ends with the warning that no FITS
    files were found. *)
Theorem empty_input_exits_cleanly :
  forall env w,
    List.filter fnmatch_fits (raw_data w) = [] ->
    SphereBatch.exit_status env w = 0%Z
    /\ item_outcomes env (sorted (List.filter fnmatch_fits (raw_data w)))
                     (at_loop_start w) = []
    /\ exists records,
         snd (SphereBatch.main env w) = set_ledger (ledger w ++ records) w
         /\ Forall (fun record => fst record <> ERROR) records
         /\ List.last records (INFO, EmptyString)
            = (WARNING, "No FITS files found in raw_data directory").
Proof.
  intros env w Hempty.
  pose proof (main_run env w) as Hmain. cbv zeta in Hmain.
  unfold SphereBatch.exit_status. rewrite Hempty in *. cbn [sorted foldr] in *.
  rewrite Hmain. split; [reflexivity|]. split; [reflexivity|].
  unfold at_loop_start. rewrite Hempty. cbn [snd set_ledger ledger].
  eexists. split.
  - rewrite <- app_assoc. reflexivity.
  - split; [|reflexivity]. repeat constructor; discriminate.
Qed.

(** C6, witness: a source directory with two files, neither a FITS file. *)
Lemma empty_input_exits_cleanly_witness :
  SphereBatch.exit_status (steady_environment 0 None) idle_world = 0%Z
  /\ item_outcomes (steady_environment 0 None)
       (sorted (List.filter fnmatch_fits (raw_data idle_world)))
       (at_loop_start idle_world) = []
  /\ exists records,
       snd (SphereBatch.main (steady_environment 0 None) idle_world)
       = set_ledger (ledger idle_world ++ records) idle_world
       /\ Forall (fun record => fst record <> ERROR) records
       /\ List.last records (INFO, EmptyString)
          = (WARNING, "No FITS files found in raw_data directory").
Proof.
  apply (empty_input_exits_cleanly (steady_environment 0 None) idle_world).
  reflexivity.
Defined.

(** ** The single-item entry point *)

(** C8.  With any number of arguments other than one, the script prints its
    usage and exits with status 1; the engine is not launched and no file is
    touched.  With one argument it runs the pipeline on that argument, and on
    nothing else: the engine is launched at most once, and a file of the
    destination changes only if it is a product that the engine left for
    this input, whose content it then has.  When the run ends without an
    exception, the engine was launched once, its output was printed and
    added to the log between the record of the launch and the record of the
    exit status, and the products of this input were moved if the exit
    status was 0 and nothing was moved otherwise. *)
Theorem script_requires_one_argument :
  forall env argv s,
    (length argv <> 2 ->
     Automate.exit_status env argv s = 1%Z
     /\ snd (Automate.main env argv s)
        = Automate.set_console
            (Automate.console s ++ ["Usage: run_sphere_pipeline.py <fits_file>"])
            s)
    /\ (length argv = 2 ->
        let input := Automate.resolve env (nth 1 argv EmptyString) in
        let process := Automate.launch env (Automate.launches s) in
        let s' := snd (Automate.main env argv s) in
        let taken k :=
          is_Some (products_after process !! k) /\ fnmatch_fits k = true
          /\ str_in (stem (Automate.basename input)) k = true in
        let exit_code :=
          Automate.isoformat_now env (S (Automate.clock s)) +:+ " "
          +:+ "[run_pipeline] Exit code: " +:+ pretty (returncode process) in
        Automate.main env argv s
        = Automate.run_pipeline env (nth 1 argv EmptyString) s
        /\ Automate.launches s' <= S (Automate.launches s)
        /\ (forall k,
              Automate.final_dir s' !! k <> Automate.final_dir s !! k ->
              taken k
              /\ Automate.final_dir s' !! k = products_after process !! k)
        /\ (fst (Automate.main env argv s) = Ok tt ->
            Automate.launches s' = S (Automate.launches s)
            /\ (exists launching last,
                  Automate.console s'
                  = Automate.console s
                    ++ ["[run_pipeline] Called with: " +:+ input;
                        "[run_pipeline] CWD: " +:+ Automate.getcwd env;
                        launching]
                    ++ map fst (stdout process) ++ [exit_code; last]
                  /\ Automate.pipeline_log s'
                     = Automate.pipeline_log s +:+ launching +:+ newline
                       +:+ stream_text (stdout process)
                       +:+ exit_code +:+ newline +:+ last +:+ newline)
            /\ (returncode process = 0%Z ->
                forall k,
                  (taken k ->
                   Automate.pipeline_products s' !! k = None
                   /\ Automate.final_dir s' !! k = products_after process !! k)
                  /\ (~ taken k ->
                      Automate.pipeline_products s' !! k
                      = products_after process !! k
                      /\ Automate.final_dir s' !! k = Automate.final_dir s !! k))
            /\ (returncode process <> 0%Z ->
                Automate.pipeline_products s' = products_after process
                /\ Automate.final_dir s' = Automate.final_dir s))).
Proof.
  intros env argv s. unfold Automate.exit_status, Automate.main. split.
  - intros Hlen. apply Nat.eqb_neq in Hlen. rewrite Hlen. now cbn.
  - intros Hlen. rewrite Hlen. cbn [Nat.eqb negb]. cbv zeta.
    set (arg := nth 1 argv EmptyString).
    split; [reflexivity|].
    pose proof (run_pipeline_run env arg s) as Hrun. cbv zeta in Hrun.
    destruct (Automate.append_fault env (Automate.appends s)) as [[e n]|].
    { destruct Hrun as (s1 & -> & Hl & _ & Hfd). cbn [fst snd].
      split; [lia|]. split; [|discriminate].
      intros k Hk. now rewrite Hfd in Hk. }
    destruct (reaches_wait (Automate.launch env (Automate.launches s))).
    2:{ destruct Hrun as (e & s1 & -> & Hl & Hfd & _). cbn [fst snd].
        split; [lia|]. split; [|discriminate].
        intros k Hk. now rewrite Hfd in Hk. }
    destruct Hrun as (s3 & -> & Hl3 & Ha3 & Hc3 & Hpp3 & Hfd3 & Hconsole3 & Hlog3).
    rewrite bind_run.
    match goal with
    | |- context [Automate.append_log env ?m s3] =>
        destruct (append_log_run env m s3)
          as (r4 & s4 & -> & Hpp4 & Hfd4 & Hl4 & Ha4 & Hc4 & Hconsole4 & Hr4)
    end.
    cbv zeta in Hconsole4, Hr4. rewrite Hc3 in Hconsole4, Hr4.
    destruct (Automate.append_fault env (Automate.appends s3)) as [[e n]|].
    { subst r4. cbn [fst snd]. split; [lia|]. split; [|discriminate].
      intros k Hk. now rewrite Hfd4, Hfd3 in Hk. }
    destruct Hr4 as [-> Hlog4].
    destruct (returncode (Automate.launch env (Automate.launches s)) =? 0)%Z
      eqn:Hcode.
    + destruct (move_outputs_run env (Automate.resolve env arg) s4)
        as (r5 & s5 & -> & Hmoved & Hkept & Hl5 & Hr5 & last & Hconsole5 & Hlog5).
      cbn [fst snd]. rewrite Hpp4, Hpp3 in Hmoved, Hkept.
      split; [lia|]. split.
      * intros k Hk.
        destruct (decide
                    (is_Some (products_after
                                (Automate.launch env (Automate.launches s)) !! k)
                     /\ fnmatch_fits k = true
                     /\ str_in (stem (Automate.basename (Automate.resolve env arg))) k
                        = true)) as [Htaken | Hnot].
        -- split; [exact Htaken | apply (Hmoved k Htaken)].
        -- destruct (Hkept k Hnot) as [_ Hsame].
           now rewrite Hsame, Hfd4, Hfd3 in Hk.
      * intros Hdone. split; [lia|]. split; [|split].
        -- assert (Automate.append_fault env (Automate.appends s4) = None) as Hnone.
           { destruct (Automate.append_fault env (Automate.appends s4))
               as [[e n]|]; [subst r5; discriminate | reflexivity]. }
           eexists _, last. split.
           ++ rewrite Hconsole5, Hconsole4, Hconsole3, <- !app_assoc. reflexivity.
           ++ rewrite (Hlog5 Hnone), Hlog4, Hlog3, !append_assoc. reflexivity.
        -- intros _ k. split; [apply Hmoved|].
           intros Hnot. destruct (Hkept k Hnot) as [-> ->].
           now rewrite Hfd4, Hfd3.
        -- intros Hne. apply Z.eqb_eq in Hcode. contradiction.
    + match goal with
      | |- context [Automate.append_log env ?m s4] =>
          destruct (append_log_run env m s4)
            as (r5 & s5 & -> & Hpp5 & Hfd5 & Hl5 & Ha5 & Hc5 & Hconsole5 & Hr5)
      end.
      cbn [fst snd]. split; [lia|]. split.
      * intros k Hk. now rewrite Hfd5, Hfd4, Hfd3 in Hk.
      * intros Hdone. split; [lia|]. split; [|split].
        -- destruct (Automate.append_fault env (Automate.appends s4))
             as [[e n]|]; [subst r5; discriminate|].
           destruct Hr5 as [_ Hlog5]. eexists _, _. split.
           ++ rewrite Hconsole5, Hconsole4, Hconsole3, <- !app_assoc. reflexivity.
           ++ rewrite Hlog5, Hlog4, Hlog3, !append_assoc. reflexivity.
        -- intros Hzero. rewrite Hzero in Hcode. discriminate.
        -- intros _. split; congruence.
Qed.

(** C8, witness: no argument; one argument and an engine that exits with
    status 0, and with status 1. *)
Lemma script_requires_one_argument_witness :
  (Automate.exit_status (script_surroundings 0 ∅) ["automate.py"] clash_state
   = 1%Z
   /\ snd (Automate.main (script_surroundings 0 ∅) ["automate.py"] clash_state)
      = Automate.set_console
          (Automate.console clash_state
           ++ ["Usage: run_sphere_pipeline.py <fits_file>"])
          clash_state)
  /\ (Automate.launches
        (snd (Automate.main
                (script_surroundings 0 {[ "A_1.fits" := bytes_of "new" ]})
                ["automate.py"; "A.fits"] clash_state))
      = S (Automate.launches clash_state)
      /\ Automate.final_dir
           (snd (Automate.main
                   (script_surroundings 0 {[ "A_1.fits" := bytes_of "new" ]})
                   ["automate.py"; "A.fits"] clash_state)) !! "A_1.fits"
         = Some (bytes_of "new"))
  /\ (Automate.pipeline_products
        (snd (Automate.main
                (script_surroundings 1 {[ "A_1.fits" := bytes_of "new" ]})
                ["automate.py"; "A.fits"] clash_state))
      = {[ "A_1.fits" := bytes_of "new" ]}
      /\ Automate.final_dir
           (snd (Automate.main
                   (script_surroundings 1 {[ "A_1.fits" := bytes_of "new" ]})
                   ["automate.py"; "A.fits"] clash_state))
         = Automate.final_dir clash_state).
Proof.
  split; [|split].
  - apply (proj1 (script_requires_one_argument (script_surroundings 0 ∅)
                    ["automate.py"] clash_state)).
    cbn. lia.
  - destruct (proj2 (script_requires_one_argument
                       (script_surroundings 0 {[ "A_1.fits" := bytes_of "new" ]})
                       ["automate.py"; "A.fits"] clash_state) eq_refl)
      as (_ & _ & _ & Hdone).
    destruct Hdone as (Hlaunches & _ & Hmoved & _); [vm_compute; reflexivity|].
    split; [exact Hlaunches|].
    destruct (Hmoved eq_refl "A_1.fits") as [Htaken _].
    destruct Htaken as [_ ->].
    + split; [vm_compute; eauto | split; vm_compute; reflexivity].
    + vm_compute. reflexivity.
  - destruct (proj2 (script_requires_one_argument
                       (script_surroundings 1 {[ "A_1.fits" := bytes_of "new" ]})
                       ["automate.py"; "A.fits"] clash_state) eq_refl)
      as (_ & _ & _ & Hdone).
    destruct Hdone as (_ & _ & _ & Hkept); [vm_compute; reflexivity|].
    destruct Hkept as [-> ->]; [discriminate|]. split; reflexivity.
Defined.

(** The scenario of the specification, run: [out1.fits] reaches the
    destination, one file succeeds, one fails, and the exit status is 1. *)
Example scenario_of_the_specification :
  item_outcomes scenario_environment ["A.fits"; "B.fits"]
                (at_loop_start scenario_world) = [Ok true; Ok false]
  /\ SphereBatch.exit_status scenario_environment scenario_world = 1%Z
  /\ map_to_list (reduced (snd (SphereBatch.main scenario_environment
                                  scenario_world)))
     = [("out1.fits", bytes_of "reduced")].
Proof. repeat split; vm_compute; reflexivity. Qed.

(** * Further properties of the code *)

(** ** The input scanner *)

Lemma insert_sorted_permutation x xs : insert_sorted x xs ≡ₚ x :: xs.
Proof.
  induction xs as [|y ys IH]; [reflexivity|]. cbn [insert_sorted].
  destruct (String.leb x y); [reflexivity|].
  rewrite IH. apply Permutation_swap.
Qed.

Lemma sorted_permutation xs : sorted xs ≡ₚ xs.
Proof.
  unfold sorted. induction xs as [|x xs IH]; [reflexivity|]. cbn [foldr].
  now rewrite insert_sorted_permutation, IH.
Qed.

Lemma insert_sorted_ordered x xs :
  StronglySorted String.le xs -> StronglySorted String.le (insert_sorted x xs).
Proof.
  induction 1 as [|y ys Hsorted IH Hy]; cbn [insert_sorted].
  - repeat constructor.
  - destruct (String.leb x y) eqn:Hle.
    + apply Is_true_true in Hle. constructor; [now constructor|].
      constructor; [exact Hle|].
      eapply Forall_impl; [exact Hy|]. intros z Hz. cbn. now transitivity y.
    + constructor; [exact IH|].
      rewrite insert_sorted_permutation. constructor; [|exact Hy].
      destruct (total String.le x y) as [H | H]; [|exact H].
      apply Is_true_true in H. congruence.
Qed.

Lemma sorted_ordered xs : StronglySorted String.le (sorted xs).
Proof.
  unfold sorted. induction xs as [|x xs IH]; cbn [foldr]; [constructor|].
  now apply insert_sorted_ordered.
Qed.

Lemma sorted_ordered_leb xs :
  StronglySorted (fun a b => String.leb a b = true) (sorted xs).
Proof.
  induction (sorted_ordered xs) as [|x l Hsorted IH Hx]; constructor; [exact IH|].
  eapply Forall_impl; [exact Hx|]. intros y. apply Is_true_true.
Qed.

(** X1.  The scanner returns the names of the source directory that match
    [*.fits], each as often as the directory lists it and no other, in
    ascending order; it changes nothing but the ledger, which receives the
    count. *)
Theorem scanner_returns_sorted_fits_files :
  forall w,
    exists fits_files,
      SphereBatch.get_fits_files w
      = (Ok fits_files,
         set_ledger
           (ledger w ++ [(INFO, "Found " +:+ pretty (length fits_files)
                                +:+ " FITS file(s) to process")]) w)
      /\ fits_files ≡ₚ List.filter fnmatch_fits (raw_data w)
      /\ StronglySorted (fun a b => String.leb a b = true) fits_files
      /\ Forall (fun name => fnmatch_fits name = true) fits_files.
Proof.
  intros w. exists (sorted (List.filter fnmatch_fits (raw_data w))).
  pose proof (sorted_permutation (List.filter fnmatch_fits (raw_data w))) as Hperm.
  split_and!.
  - unfold SphereBatch.get_fits_files, SphereBatch.log_info. cbv zeta.
    rewrite log_bind. cbn [mret M_ret ret].
    now rewrite (Permutation_length Hperm).
  - exact Hperm.
  - apply sorted_ordered_leb.
  - rewrite Hperm. apply Forall_forall. intros name Hin.
    apply list_elem_of_In, filter_In in Hin. tauto.
Qed.

(** X2.  The order in which the operating system lists the source directory
    does not matter: two listings of the same names give the same sequence
    of input files. *)
Theorem scanner_ignores_listing_order :
  forall w1 w2,
    raw_data w1 ≡ₚ raw_data w2 ->
    fst (SphereBatch.get_fits_files w1) = fst (SphereBatch.get_fits_files w2).
Proof.
  intros w1 w2 Hperm.
  unfold SphereBatch.get_fits_files, SphereBatch.log_info. cbv zeta.
  rewrite !log_bind. cbn [mret M_ret ret fst]. f_equal.
  apply (StronglySorted_unique String.le); try apply sorted_ordered.
  rewrite !sorted_permutation.
  clear -Hperm. induction Hperm as [|x l l' H IH|x y l|l l' l'' H1 IH1 H2 IH2].
  - reflexivity.
  - cbn [List.filter]. destruct (fnmatch_fits x); [now constructor | exact IH].
  - cbn [List.filter]. destruct (fnmatch_fits x), (fnmatch_fits y);
      try reflexivity. apply Permutation_swap.
  - now transitivity (List.filter fnmatch_fits l').
Qed.

(** X2, witness: the same two names, listed in either order. *)
Lemma scanner_ignores_listing_order_witness :
  fst (SphereBatch.get_fits_files (world_of ["B.fits"; "A.fits"] None ∅))
  = fst (SphereBatch.get_fits_files (world_of ["A.fits"; "B.fits"] None ∅)).
Proof.
  apply (scanner_ignores_listing_order
           (world_of ["B.fits"; "A.fits"] None ∅)
           (world_of ["A.fits"; "B.fits"] None ∅)).
  apply Permutation_swap.
Defined.

(** ** Names *)

Lemma prefix_decompose (sub s : string) :
  String.prefix sub s = true -> exists b, s = sub +:+ b.
Proof.
  revert s. induction sub as [|c sub IH]; intros s H.
  - now exists s.
  - destruct s as [|c' s]; [discriminate|]. cbn in H.
    destruct (ascii_dec c c') as [<-|]; [|discriminate].
    destruct (IH s H) as [b ->]. now exists b.
Qed.

Lemma str_in_decompose (sub s : string) :
  str_in sub s = true -> exists a b, s = a +:+ sub +:+ b.
Proof.
  induction s as [|c s IH]; rewrite ?str_in_cons.
  - change (str_in sub EmptyString)
      with (if String.prefix sub EmptyString then true else false).
    destruct (String.prefix sub EmptyString) eqn:E; [|discriminate].
    intros _. apply prefix_decompose in E as [b E]. now exists EmptyString, b.
  - destruct (String.prefix sub (String c s)) eqn:E.
    + intros _. apply prefix_decompose in E as [b E]. now exists EmptyString, b.
    + intros H. destruct (IH H) as (a & b & ->). now exists (String c a), b.
Qed.

(** Containment of substrings is transitive. *)
Lemma str_in_trans (a b d : string) :
  str_in a b = true -> str_in b d = true -> str_in a d = true.
Proof.
  intros Hab (x & y & ->)%str_in_decompose.
  apply str_in_app_r, str_in_app_l, Hab.
Qed.

Lemma rfind_app (c : ascii) (x y : string) :
  rfind c (x +:+ y)
  = match rfind c y with
    | Some i => Some (String.length x + i)
    | None => rfind c x
    end.
Proof.
  induction x as [|a x IH].
  - change (EmptyString +:+ y) with y. now destruct (rfind c y).
  - change (String a x +:+ y) with (String a (x +:+ y)).
    cbn [rfind String.length]. rewrite IH. now destruct (rfind c y).
Qed.

Lemma str_drop_app (x y : string) : str_drop (String.length x) (x +:+ y) = y.
Proof. induction x as [|a x IH]; [reflexivity | exact IH]. Qed.

Lemma str_take_app (x y : string) : str_take (String.length x) (x +:+ y) = x.
Proof.
  induction x as [|a x IH]; [now destruct y|].
  change (String a x +:+ y) with (String a (x +:+ y)).
  cbn [String.length str_take]. now rewrite IH.
Qed.

Lemma endswith_decompose (suf s : string) :
  endswith suf s = true -> exists x, s = x +:+ suf.
Proof.
  unfold endswith. intros H%String.eqb_eq.
  exists (str_take (String.length s - String.length suf) s).
  rewrite <- H at 2. symmetry. apply str_take_drop.
Qed.

Lemma endswith_app (suf x : string) : endswith suf (x +:+ suf) = true.
Proof.
  unfold endswith. rewrite length_append, Nat.add_sub, str_drop_app.
  apply String.eqb_refl.
Qed.

Lemma append_inv_tail (a b c : string) : a +:+ c = b +:+ c -> a = b.
Proof.
  revert b. induction a as [|x a IH]; intros b H.
  - destruct b as [|y b]; [reflexivity|].
    apply (f_equal String.length) in H.
    rewrite !length_append in H. cbn [String.length] in H. lia.
  - destruct b as [|y b].
    + apply (f_equal String.length) in H.
      rewrite !length_append in H. cbn [String.length] in H. lia.
    + change (String x (a +:+ c) = String y (b +:+ c)) in H.
      injection H as -> H. now rewrite (IH b H).
Qed.

(** The stem and suffix of a name that ends in [.fits], the name [.fits]
    itself apart. *)
Lemma fits_name_splits (name : string) :
  fnmatch_fits name = true -> name <> ".fits" ->
  suffix name = ".fits" /\ stem name +:+ ".fits" = name.
Proof.
  intros [x ->]%endswith_decompose Hname.
  assert (dot_splits (x +:+ ".fits") = Some (String.length x)) as Hdot.
  { unfold dot_splits. rewrite rfind_app.
    change (rfind "." ".fits") with (Some 0). cbv beta iota.
    rewrite Nat.add_0_r, length_append. cbn [String.length].
    destruct x as [|a x]; [contradiction|]. cbn [String.length].
    replace (0 <? S (String.length x)) with true
      by (symmetry; apply Nat.ltb_lt; lia).
    replace (S (S (String.length x)) <? S (String.length x) + 5) with true
      by (symmetry; apply Nat.ltb_lt; lia).
    reflexivity. }
  unfold suffix, stem. rewrite Hdot, str_drop_app, str_take_app. now split.
Qed.

(** X3.  On a collision, a product whose name ends in [.fits] is written
    under a name that still ends in [.fits]: a step of the relocation loop
    that finds the product's name taken and succeeds has put the content of
    the product under the name without the extension, an underscore, the
    timestamp and the extension, and has left the file of the product's own
    name as it was (the hidden-file name [.fits] apart, which has no suffix
    for pathlib). *)
Theorem collision_name_keeps_extension :
  forall env product w,
    fnmatch_fits (path_name product) = true -> path_name product <> ".fits" ->
    is_Some (reduced w !! path_name product) ->
    fst (SphereBatch.move_one env product w) = Ok tt ->
    let w' := snd (SphereBatch.move_one env product w) in
    exists base data,
      path_name product = base +:+ ".fits"
      /\ product_data w product = Some data
      /\ reduced w' !! (base +:+ "_" +:+ now env (clock_reads w) +:+ ".fits")
         = Some data
      /\ fnmatch_fits (base +:+ "_" +:+ now env (clock_reads w) +:+ ".fits")
         = true
      /\ reduced w' !! path_name product = reduced w !! path_name product.
Proof.
  intros env product w Hfits Hname Htaken Hok w'. subst w'.
  destruct (fits_name_splits (path_name product) Hfits Hname) as [Hsuffix Hstem].
  destruct (move_one_summary env product w)
    as (r & w1 & E & _ & _ & _ & _ & _ & Hkept & _ & Hdata).
  rewrite E in *. cbn [fst snd] in *. subst r.
  destruct (Hdata eq_refl) as (data & Hproduct & Hwritten).
  assert (move_target env product w
          = stem (path_name product) +:+ "_" +:+ now env (clock_reads w)
            +:+ ".fits") as Htarget.
  { unfold move_target. rewrite (bool_decide_eq_true_2 _ Htaken).
    now rewrite Hsuffix. }
  exists (stem (path_name product)), data. rewrite <- Htarget.
  split; [now symmetry|]. split; [exact Hproduct|]. split; [exact Hwritten|].
  split.
  - rewrite Htarget. unfold fnmatch_fits. rewrite <- !append_assoc.
    apply endswith_app.
  - apply Hkept. unfold move_target. rewrite (bool_decide_eq_true_2 _ Htaken).
    apply not_eq_sym, timestamped_name_fresh.
Qed.

(** X3, witness: the product [out.fits], whose name the destination has. *)
Lemma collision_name_keeps_extension_witness :
  exists base data,
    path_name ["A_tpl"; "x"; "out.fits"] = base +:+ ".fits"
    /\ product_data twin_world ["A_tpl"; "x"; "out.fits"] = Some data
    /\ reduced (snd (SphereBatch.move_one (steady_environment 0 None)
                       ["A_tpl"; "x"; "out.fits"] twin_world))
       !! (base +:+ "_"
           +:+ now (steady_environment 0 None) (clock_reads twin_world)
           +:+ ".fits") = Some data
    /\ fnmatch_fits (base +:+ "_"
                     +:+ now (steady_environment 0 None) (clock_reads twin_world)
                     +:+ ".fits") = true
    /\ reduced (snd (SphereBatch.move_one (steady_environment 0 None)
                       ["A_tpl"; "x"; "out.fits"] twin_world))
       !! path_name ["A_tpl"; "x"; "out.fits"]
       = reduced twin_world !! path_name ["A_tpl"; "x"; "out.fits"].
Proof.
  apply (collision_name_keeps_extension (steady_environment 0 None)
           ["A_tpl"; "x"; "out.fits"] twin_world).
  - reflexivity.
  - discriminate.
  - vm_compute. eauto.
  - vm_compute. reflexivity.
Defined.

(** The hidden-file name [.fits] matches [*.fits] and has no suffix: its
    collision name does not end in [.fits]. *)
Example collision_name_of_dot_fits :
  fnmatch_fits ".fits" = true
  /\ timestamped ".fits" "20260101_120000" = ".fits_20260101_120000"
  /\ fnmatch_fits (timestamped ".fits" "20260101_120000") = false
  /\ timestamped "out1.fits" "20260101_120000" = "out1_20260101_120000.fits".
Proof. repeat split; reflexivity. Qed.

Lemma timestamped_inj (name t1 t2 : string) :
  timestamped name t1 = timestamped name t2 -> t1 = t2.
Proof.
  unfold timestamped. intros E.
  apply (inj (String.app _)) in E. apply (inj (String.app _)) in E.
  now apply append_inv_tail in E.
Qed.

(** X4.  When a product is relocated twice while its name is taken and the
    clock reads differently the two times, the two copies go to different
    names and both are kept, each with the content of the product; the file
    of the product's own name stays as it was. *)
Theorem collision_names_differ_with_the_clock :
  forall env product w,
    let w1 := snd (SphereBatch.move_one env product w) in
    let w2 := snd (SphereBatch.move_one env product w1) in
    let first := timestamped (path_name product) (now env (clock_reads w)) in
    let second :=
      timestamped (path_name product) (now env (S (clock_reads w))) in
    is_Some (reduced w !! path_name product) ->
    fst (SphereBatch.move_one env product w) = Ok tt ->
    fst (SphereBatch.move_one env product w1) = Ok tt ->
    now env (clock_reads w) <> now env (S (clock_reads w)) ->
    exists data,
      product_data w product = Some data
      /\ first <> second
      /\ reduced w2 !! first = Some data
      /\ reduced w2 !! second = Some data
      /\ reduced w2 !! path_name product = reduced w !! path_name product.
Proof.
  intros env product w w1 w2 first second Htaken Hok1 Hok2 Hclock.
  assert (first <> second) as Hdiffer.
  { intros E. apply Hclock. exact (timestamped_inj _ _ _ E). }
  assert (move_target env product w = first) as Htarget1.
  { unfold move_target. now rewrite (bool_decide_eq_true_2 _ Htaken). }
  destruct (move_one_result env product w) as (_ & _ & Hclock1).
  rewrite (bool_decide_eq_true_2 _ Htaken), Nat.add_1_r in Hclock1.
  pose proof (move_one_product_data env product w product) as Hsame.
  destruct (move_one_summary env product w)
    as (r1 & wa & E1 & _ & _ & _ & _ & _ & Hkept1 & _ & Hdata1).
  fold w1 in Hclock1, Hsame. subst w2.
  assert (w1 = wa) as Hw1 by (subst w1; now rewrite E1).
  rewrite E1 in Hok1. cbn [fst] in Hok1. subst r1. rewrite <- Hw1 in *.
  destruct (Hdata1 eq_refl) as (data & Hproduct & Hwritten1).
  rewrite Htarget1 in Hkept1, Hwritten1.
  assert (reduced w1 !! path_name product = reduced w !! path_name product)
    as Hname1.
  { apply Hkept1. subst first. apply not_eq_sym, timestamped_name_fresh. }
  assert (is_Some (reduced w1 !! path_name product)) as Htaken1
    by now rewrite Hname1.
  assert (move_target env product w1 = second) as Htarget2.
  { unfold move_target. rewrite (bool_decide_eq_true_2 _ Htaken1).
    subst second. now rewrite Hclock1. }
  destruct (move_one_summary env product w1)
    as (r2 & wb & E2 & _ & _ & _ & _ & _ & Hkept2 & _ & Hdata2).
  rewrite E2 in *. cbn [fst snd] in *. subst r2.
  destruct (Hdata2 eq_refl) as (data' & Hproduct' & Hwritten2).
  rewrite Htarget2 in Hkept2, Hwritten2.
  assert (data' = data) as -> by congruence.
  exists data. split; [exact Hproduct|]. split; [exact Hdiffer|]. split_and!.
  - rewrite (Hkept2 first Hdiffer). exact Hwritten1.
  - exact Hwritten2.
  - rewrite Hkept2; [exact Hname1|].
    subst second. apply not_eq_sym, timestamped_name_fresh.
Qed.

(** X4, witness: a clock that counts, and [out.fits] in the destination. *)
Lemma collision_names_differ_with_the_clock_witness :
  exists data,
    product_data twin_world ["A_tpl"; "x"; "out.fits"] = Some data
    /\ timestamped (path_name ["A_tpl"; "x"; "out.fits"])
         (now ticking_environment (clock_reads twin_world))
       <> timestamped (path_name ["A_tpl"; "x"; "out.fits"])
            (now ticking_environment (S (clock_reads twin_world)))
    /\ reduced
         (snd (SphereBatch.move_one ticking_environment
                 ["A_tpl"; "x"; "out.fits"]
                 (snd (SphereBatch.move_one ticking_environment
                         ["A_tpl"; "x"; "out.fits"] twin_world))))
       !! timestamped (path_name ["A_tpl"; "x"; "out.fits"])
            (now ticking_environment (clock_reads twin_world)) = Some data
    /\ reduced
         (snd (SphereBatch.move_one ticking_environment
                 ["A_tpl"; "x"; "out.fits"]
                 (snd (SphereBatch.move_one ticking_environment
                         ["A_tpl"; "x"; "out.fits"] twin_world))))
       !! timestamped (path_name ["A_tpl"; "x"; "out.fits"])
            (now ticking_environment (S (clock_reads twin_world))) = Some data
    /\ reduced
         (snd (SphereBatch.move_one ticking_environment
                 ["A_tpl"; "x"; "out.fits"]
                 (snd (SphereBatch.move_one ticking_environment
                         ["A_tpl"; "x"; "out.fits"] twin_world))))
       !! path_name ["A_tpl"; "x"; "out.fits"]
       = reduced twin_world !! path_name ["A_tpl"; "x"; "out.fits"].
Proof.
  apply (collision_names_differ_with_the_clock ticking_environment
           ["A_tpl"; "x"; "out.fits"] twin_world).
  - vm_compute. eauto.
  - vm_compute. reflexivity.
  - vm_compute. reflexivity.
  - vm_compute. discriminate.
Defined.

(** ** The locator *)

(** X5.  When the stem of one input occurs in the stem of another, every
    product located for the second is located for the first as well. *)
Theorem shorter_stem_locates_more :
  forall env fits_file1 fits_file2 w found1 found2,
    str_in (stem fits_file1) (stem fits_file2) = true ->
    fst (SphereBatch.find_output_products env fits_file1 w) = Ok found1 ->
    fst (SphereBatch.find_output_products env fits_file2 w) = Ok found2 ->
    forall p, In p found2 -> In p found1.
Proof.
  intros env f1 f2 w found1 found2 Hstems
    [_ ->]%find_output_products_found [_ ->]%find_output_products_found p Hin.
  destruct (products w) as [root|]; [|exact Hin].
  apply collect_products_spec in Hin
    as (q & d & children & r & n & Hq & Hstem & Hr & Hpat & ->).
  apply collect_products_spec. exists q, d, children, r, n.
  split_and!; auto. now apply (str_in_trans _ (stem f2)).
Qed.

(** X5, witness: the inputs [A.fits] and [AB.fits], and a tree with the
    products of both. *)
Lemma shorter_stem_locates_more_witness :
  str_in (stem "A.fits") (stem "AB.fits") = true
  /\ In ["run2"; "AB_tpl"; "out2.fits"]
        [["run1"; "A_tpl"; "out1.fits"]; ["run2"; "AB_tpl"; "out2.fits"]].
Proof.
  split; [reflexivity|].
  apply (shorter_stem_locates_more (steady_environment 0 None)
           "A.fits" "AB.fits"
           (world_of [] (Some [Dir "run1" [Dir "A_tpl" [File "out1.fits" []]];
                               Dir "run2" [Dir "AB_tpl" [File "out2.fits" []]]])
                     ∅)
           _ [["run2"; "AB_tpl"; "out2.fits"]]).
  - reflexivity.
  - vm_compute. reflexivity.
  - vm_compute. reflexivity.
  - left. reflexivity.
Defined.

Lemma last_app_nonempty {A} (q r : list A) (d : A) :
  r <> [] -> List.last (q ++ r) d = List.last r d.
Proof.
  intros Hr. induction q as [|x q IH]; [reflexivity|].
  cbn [app]. destruct (q ++ r) eqn:E; [|exact IH].
  apply app_eq_nil in E as [_ E]. contradiction.
Qed.

(** X6.  Every located path has at least two components, so that no entry
    directly in the output root is ever located, and its last component
    matches [*.fits]. *)
Theorem located_paths_end_in_fits :
  forall env fits_file w found p,
    fst (SphereBatch.find_output_products env fits_file w) = Ok found ->
    In p found ->
    2 <= length p /\ fnmatch_fits (path_name p) = true.
Proof.
  intros env fits_file w found p [_ ->]%find_output_products_found Hin.
  destruct (products w) as [root|]; [|destruct Hin].
  apply collect_products_spec in Hin
    as (q & d & children & r & n & Hq & _ & Hr & Hpat & ->).
  pose proof (entry_at_nonempty _ _ _ Hq) as Hq0.
  pose proof (entry_at_nonempty _ _ _ Hr) as Hr0.
  split.
  - rewrite length_app. destruct q, r; cbn; try contradiction; lia.
  - pose proof (entry_at_last _ _ _ Hr) as Hlast. unfold path_name in *.
    rewrite last_app_nonempty by exact Hr0. now rewrite Hlast.
Qed.

(** X6, witness: the product of the specification's scenario. *)
Lemma located_paths_end_in_fits_witness :
  2 <= length ["run1"; "A_tpl"; "out1.fits"]
  /\ fnmatch_fits (path_name ["run1"; "A_tpl"; "out1.fits"]) = true.
Proof.
  apply (located_paths_end_in_fits (steady_environment 0 None) "A.fits"
           (world_of [] (Some scenario_tree) ∅)
           [["run1"; "A_tpl"; "out1.fits"]]).
  - vm_compute. reflexivity.
  - now left.
Defined.

Lemma find_by_name entries n :
  NoDup (map node_name entries) -> In n entries ->
  List.find (fun m => String.eqb (node_name m) (node_name n)) entries = Some n.
Proof.
  induction entries as [|m rest IH]; intros Hnodup Hin; [destruct Hin|].
  cbn [map] in Hnodup. apply NoDup_cons in Hnodup as [Hfresh Hnodup].
  cbn [List.find]. destruct Hin as [-> | Hin].
  - now rewrite String.eqb_refl.
  - destruct (String.eqb (node_name m) (node_name n)) eqn:E; [|now apply IH].
    apply String.eqb_eq in E. exfalso. apply Hfresh. rewrite E.
    apply list_elem_of_In, in_map, Hin.
Qed.

Lemma distinct_entries_below entries d children :
  distinct_entries entries = true -> In (Dir d children) entries ->
  distinct_entries children = true.
Proof.
  unfold distinct_entries. intros [_ Hall]%andb_prop Hin.
  rewrite forallb_forall in Hall. exact (Hall _ Hin).
Qed.

(** In a tree with distinct sibling names a path leads to one entry. *)
Lemma lookup_path_entry entries q n :
  distinct_entries entries = true -> entry_at entries q n ->
  lookup_path entries q = Some n.
Proof.
  intros Hdistinct H.
  induction H as [entries n Hin | entries d children q n Hin H IH].
  - cbn [lookup_path]. rewrite find_by_name; [reflexivity| |exact Hin].
    apply andb_prop in Hdistinct as [Hnodup _].
    now apply bool_decide_eq_true in Hnodup.
  - assert (List.find (fun m => String.eqb (node_name m) d) entries
            = Some (Dir d children)) as Hfind.
    { apply (find_by_name entries (Dir d children)); [|exact Hin].
      apply andb_prop in Hdistinct as [Hnodup _].
      now apply bool_decide_eq_true in Hnodup. }
    cbn [lookup_path]. rewrite Hfind.
    destruct q as [|c q]; [now apply entry_at_nonempty in H|].
    apply IH. eapply distinct_entries_below; eauto.
Qed.

Lemma collected_paths_resolve input_stem root p :
  distinct_entries root = true ->
  In p (SphereBatch.collect_products input_stem root) ->
  exists n, lookup_path root p = Some n /\ fnmatch_fits (node_name n) = true.
Proof.
  intros Hdistinct Hin.
  apply collect_products_spec in Hin
    as (q & d & children & r & n & Hq & _ & Hr & Hpat & ->).
  exists n. split; [|exact Hpat].
  apply lookup_path_entry; [exact Hdistinct|]. eapply entry_at_app; eauto.
Qed.

(** X7.  In a tree with distinct sibling names, every located path leads,
    from the output root, to an entry whose name matches [*.fits]: what the
    locator returns, the relocator finds. *)
Theorem located_paths_resolve :
  forall env fits_file w root found p,
    products w = Some root -> distinct_entries root = true ->
    fst (SphereBatch.find_output_products env fits_file w) = Ok found ->
    In p found ->
    exists n, lookup_path root p = Some n /\ fnmatch_fits (node_name n) = true.
Proof.
  intros env fits_file w root found p Hroot Hdistinct
    [_ ->]%find_output_products_found Hin.
  rewrite Hroot in Hin.
  now apply (collected_paths_resolve (stem fits_file)).
Qed.

(** X7, witness: the tree of the specification's scenario. *)
Lemma located_paths_resolve_witness :
  exists n,
    lookup_path scenario_tree ["run1"; "A_tpl"; "out1.fits"] = Some n
    /\ fnmatch_fits (node_name n) = true.
Proof.
  apply (located_paths_resolve (steady_environment 0 None) "A.fits"
           (world_of [] (Some scenario_tree) ∅)
           scenario_tree [["run1"; "A_tpl"; "out1.fits"]]).
  - reflexivity.
  - vm_compute. reflexivity.
  - vm_compute. reflexivity.
  - now left.
Defined.

(** ** The relocator, further *)

(** The loop over the products succeeds exactly when every product is a
    regular file of the tree and no copy meets an I/O fault. *)
Lemma move_all_result env found : forall w,
  fst (for_each found (SphereBatch.move_one env) w) = Ok tt
  <-> forall i product,
        found !! i = Some product ->
        is_Some (product_data w product)
        /\ copy_fault env (copy_calls w + i) = None.
Proof.
  induction found as [|p rest IH]; intros w.
  - split; [intros _ i product H; discriminate | reflexivity].
  - cbn [for_each]. rewrite bind_run.
    destruct (move_one_result env p w) as (Hok & Hcopies & _).
    pose proof (move_one_product_data env p w) as Hdata.
    destruct (SphereBatch.move_one env p w) as [[[]|e|status] w1];
      cbn [fst snd] in *.
    + rewrite IH. split.
      * intros Hrest [|i] product Hi.
        -- injection Hi as <-. rewrite Nat.add_0_r. now apply Hok.
        -- destruct (Hrest i product Hi) as [H1 H2].
           rewrite Hdata, Hcopies in *. split; [exact H1|].
           now replace (copy_calls w + S i) with (S (copy_calls w) + i) by lia.
      * intros Hall i product Hi.
        destruct (Hall (S i) product Hi) as [H1 H2].
        rewrite Hdata, Hcopies. split; [exact H1|].
        now replace (S (copy_calls w) + i) with (copy_calls w + S i) by lia.
    + split; [discriminate|]. intros Hall.
      destruct (Hall 0 p eq_refl) as [H1 H2]. rewrite Nat.add_0_r in H2.
      assert (@Raise unit e = Ok tt) by now apply Hok. discriminate.
    + split; [discriminate|]. intros Hall.
      destruct (Hall 0 p eq_refl) as [H1 H2]. rewrite Nat.add_0_r in H2.
      assert (@Exit unit status = Ok tt) by now apply Hok. discriminate.
Qed.

Lemma relocation_result env found fits_file w :
  fst (SphereBatch.move_products_to_reduced_dir env found fits_file w)
  = Ok true
  <-> found <> []
      /\ forall i product,
           found !! i = Some product ->
           is_Some (product_data w product)
           /\ copy_fault env (copy_calls w + i) = None.
Proof.
  unfold SphereBatch.move_products_to_reduced_dir, SphereBatch.mkdir.
  rewrite ret_bind. destruct found as [|p rest] eqn:Efound.
  - split; [discriminate | now intros [H _]].
  - rewrite <- Efound. unfold try_except. rewrite bind_run.
    rewrite <- (move_all_result env found w).
    destruct (for_each found (SphereBatch.move_one env) w) as [[[]|e|status] w1];
      cbn; split; try discriminate; try (intros [_ H]; discriminate).
    + intros _. split; [now rewrite Efound | reflexivity].
    + reflexivity.
Qed.

(** X8.  The relocator returns [True] exactly when the list is not empty,
    every product on it is a regular file of the product tree, and no copy
    meets an I/O fault. *)
Theorem relocation_succeeds_iff_all_copied :
  forall env found fits_file w,
    fst (SphereBatch.move_products_to_reduced_dir env found fits_file w)
    = Ok true
    <-> found <> []
        /\ forall i product,
             found !! i = Some product ->
             is_Some (product_data w product)
             /\ copy_fault env (copy_calls w + i) = None.
Proof. exact relocation_result. Qed.

Lemma relocation_monotone env found fits_file w name :
  is_Some (reduced w !! name) ->
  is_Some (reduced (snd (SphereBatch.move_products_to_reduced_dir
                           env found fits_file w)) !! name).
Proof.
  intros Hname.
  unfold SphereBatch.move_products_to_reduced_dir, SphereBatch.mkdir.
  rewrite ret_bind. destruct found as [|p rest] eqn:Efound; [exact Hname|].
  rewrite <- Efound. unfold try_except. rewrite bind_run.
  pose proof (move_all_monotone env found w name Hname) as H.
  destruct (for_each found (SphereBatch.move_one env) w) as [[[]|e|status] w1];
    exact H.
Qed.

(** X9.  The relocator never removes a file from the destination: a name
    that is there before is there afterwards, whatever the outcome. *)
Theorem relocation_never_removes_a_file :
  forall env found fits_file w name,
    is_Some (reduced w !! name) ->
    is_Some (reduced (snd (SphereBatch.move_products_to_reduced_dir
                             env found fits_file w)) !! name).
Proof. exact relocation_monotone. Qed.

(** X9, witness: the old [out.fits] while the two products of [twin_tree]
    are relocated. *)
Lemma relocation_never_removes_a_file_witness :
  is_Some (reduced (snd (SphereBatch.move_products_to_reduced_dir
                           (steady_environment 0 None)
                           (SphereBatch.collect_products "A" twin_tree)
                           "A.fits" twin_world)) !! "out.fits").
Proof.
  apply (relocation_never_removes_a_file (steady_environment 0 None)
           (SphereBatch.collect_products "A" twin_tree) "A.fits" twin_world
           "out.fits").
  vm_compute. eauto.
Defined.




Lemma move_one_free env product w w' :
  reduced w !! path_name product = None ->
  SphereBatch.move_one env product w = (Ok tt, w') ->
  clock_reads w' = clock_reads w
  /\ (exists data,
        product_data w product = Some data
        /\ reduced w' !! path_name product = Some data)
  /\ forall k, k <> path_name product -> reduced w' !! k = reduced w !! k.
Proof.
  intros Hfree E.
  destruct (move_one_summary env product w)
    as (r & w1 & E1 & _ & _ & _ & _ & _ & Hkept & _ & Hdata).
  destruct (move_one_result env product w) as (_ & _ & Hclock).
  rewrite E in *. injection E1 as <- <-. cbn [snd] in Hclock.
  assert (move_target env product w = path_name product) as Htarget.
  { unfold move_target. rewrite bool_decide_eq_false_2; [reflexivity|].
    rewrite Hfree. now intros [? ?]. }
  rewrite Htarget in *.
  rewrite bool_decide_eq_false_2 in Hclock by (rewrite Hfree; now intros [? ?]).
  split; [lia|]. split; [now apply Hdata | exact Hkept].
Qed.

Lemma move_all_free env found : forall w w',
  NoDup (map path_name found) ->
  (forall p, In p found -> reduced w !! path_name p = None) ->
  for_each found (SphereBatch.move_one env) w = (Ok tt, w') ->
  clock_reads w' = clock_reads w
  /\ (forall p, In p found ->
        exists data,
          product_data w p = Some data
          /\ reduced w' !! path_name p = Some data)
  /\ forall k, ~ In k (map path_name found) -> reduced w' !! k = reduced w !! k.
Proof.
  induction found as [|p rest IH]; intros w w' Hnodup Hfree E.
  - injection E as <-. split_and!; [reflexivity | intros p [] | reflexivity].
  - cbn [map] in Hnodup. apply NoDup_cons in Hnodup as [Hfresh Hnodup].
    rewrite list_elem_of_In in Hfresh.
    cbn [for_each] in E. rewrite bind_run in E.
    pose proof (move_one_product_data env p w) as Hdata.
    destruct (SphereBatch.move_one env p w) as [[[]|e|status] w1] eqn:E1;
      try discriminate.
    cbn [snd] in Hdata.
    destruct (move_one_free env p w w1 (Hfree p (or_introl eq_refl)) E1)
      as (Hclock1 & (data & Hp & Hwritten) & Hkept1).
    destruct (IH w1 w' Hnodup) as (Hclock & Hrest & Hkept); [|exact E|].
    { intros q Hq. rewrite Hkept1; [apply Hfree; now right|].
      intros Heq. apply Hfresh. rewrite <- Heq. now apply in_map. }
    split_and!.
    + congruence.
    + intros q [<- | Hq].
      * exists data. split; [exact Hp|]. now rewrite Hkept.
      * destruct (Hrest q Hq) as (dq & Hdq & Hwq). exists dq.
        rewrite <- Hdata. now split.
    + intros k Hk. cbn [map] in Hk.
      rewrite Hkept by (intros H; apply Hk; now right).
      apply Hkept1. intros ->. apply Hk. now left.
Qed.

(** X11.  When the names of the products are pairwise distinct and none of
    them is in the destination, a relocation that succeeds puts every
    product's content under the product's own name, changes no other file,
    and never reads the clock. *)
Theorem relocation_keeps_free_names :
  forall env found fits_file w,
    NoDup (map path_name found) ->
    (forall p, In p found -> reduced w !! path_name p = None) ->
    fst (SphereBatch.move_products_to_reduced_dir env found fits_file w)
    = Ok true ->
    let w' := snd (SphereBatch.move_products_to_reduced_dir
                     env found fits_file w) in
    clock_reads w' = clock_reads w
    /\ (forall p, In p found ->
          exists data,
            product_data w p = Some data
            /\ reduced w' !! path_name p = Some data)
    /\ forall k, ~ In k (map path_name found) ->
                 reduced w' !! k = reduced w !! k.
Proof.
  intros env found fits_file w Hnodup Hfree.
  unfold SphereBatch.move_products_to_reduced_dir, SphereBatch.mkdir.
  rewrite ret_bind. destruct found as [|p rest] eqn:Efound; [discriminate|].
  rewrite <- Efound in *. unfold try_except. rewrite bind_run.
  destruct (for_each found (SphereBatch.move_one env) w) as [[[]|e|status] w1] eqn:E;
    cbn; try discriminate.
  intros _. exact (move_all_free env found w w1 Hnodup Hfree E).
Qed.

(** X11, witness: the product of the scenario and an empty destination. *)
Lemma relocation_keeps_free_names_witness :
  clock_reads
    (snd (SphereBatch.move_products_to_reduced_dir (steady_environment 0 None)
            [["run1"; "A_tpl"; "out1.fits"]] "A.fits"
            (world_of [] (Some scenario_tree) ∅)))
  = clock_reads (world_of [] (Some scenario_tree) ∅)
  /\ (forall p,
        In p [["run1"; "A_tpl"; "out1.fits"]] ->
        exists data,
          product_data (world_of [] (Some scenario_tree) ∅) p = Some data
          /\ reduced
               (snd (SphereBatch.move_products_to_reduced_dir
                       (steady_environment 0 None)
                       [["run1"; "A_tpl"; "out1.fits"]] "A.fits"
                       (world_of [] (Some scenario_tree) ∅)))
             !! path_name p = Some data)
  /\ forall k,
       ~ In k (map path_name [["run1"; "A_tpl"; "out1.fits"]]) ->
       reduced
         (snd (SphereBatch.move_products_to_reduced_dir
                 (steady_environment 0 None)
                 [["run1"; "A_tpl"; "out1.fits"]] "A.fits"
                 (world_of [] (Some scenario_tree) ∅)))
       !! k = reduced (world_of [] (Some scenario_tree) ∅) !! k.
Proof.
  apply (relocation_keeps_free_names (steady_environment 0 None)
           [["run1"; "A_tpl"; "out1.fits"]] "A.fits"
           (world_of [] (Some scenario_tree) ∅)).
  - apply NoDup_singleton.
  - intros p [<- | []]. reflexivity.
  - vm_compute. reflexivity.
Defined.

(** X12.  Locator and relocator compose: in a tree with distinct sibling
    names, when the locator finds something, every entry it finds is a
    regular file and no copy meets an I/O fault, the relocator returns
    [True]. *)
Theorem located_files_are_relocated :
  forall env fits_file w root,
    products w = Some root -> distinct_entries root = true ->
    SphereBatch.collect_products (stem fits_file) root <> [] ->
    (forall p n,
       In p (SphereBatch.collect_products (stem fits_file) root) ->
       lookup_path root p = Some n -> is_dir n = false) ->
    (forall k, copy_fault env k = None) ->
    fst (SphereBatch.move_products_to_reduced_dir env
           (SphereBatch.collect_products (stem fits_file) root) fits_file w)
    = Ok true.
Proof.
  intros env fits_file w root Hroot Hdistinct Hfound Hfiles Hfaults.
  apply relocation_result. split; [exact Hfound|].
  intros i p Hi. split; [|apply Hfaults].
  apply list_elem_of_lookup_2, list_elem_of_In in Hi.
  destruct (collected_paths_resolve (stem fits_file) root p Hdistinct Hi)
    as (n & Hn & _).
  specialize (Hfiles p n Hi Hn). unfold product_data. rewrite Hroot. cbn.
  rewrite Hn. destruct n; [eauto | discriminate].
Qed.

(** X12, witness: the scenario's tree. *)
Lemma located_files_are_relocated_witness :
  fst (SphereBatch.move_products_to_reduced_dir (steady_environment 0 None)
         (SphereBatch.collect_products (stem "A.fits") scenario_tree) "A.fits"
         (world_of [] (Some scenario_tree) ∅))
  = Ok true.
Proof.
  apply (located_files_are_relocated (steady_environment 0 None) "A.fits"
           (world_of [] (Some scenario_tree) ∅) scenario_tree).
  - reflexivity.
  - vm_compute. reflexivity.
  - vm_compute. discriminate.
  - intros p n Hin. vm_compute in Hin. destruct Hin as [<- | []].
    vm_compute. intros [= <-]. reflexivity.
  - reflexivity.
Defined.

(** ** The engine invoker, further *)

Lemma str_take_idem (n : nat) (s : string) :
  str_take n (str_take n s) = str_take n s.
Proof.
  revert s. induction n as [|n IH]; intros [|c s]; cbn; try reflexivity.
  now rewrite IH.
Qed.

Lemma attempted_text_all (lines : list (string * option exn)) :
  forallb (fun line => no_fault (snd line)) lines = true ->
  attempted_text lines = stream_text lines.
Proof.
  induction lines as [|line rest IH]; [reflexivity|].
  cbn [forallb attempted_text stream_text foldr].
  destruct (snd line); [discriminate|]. cbn [no_fault andb].
  intros H. now rewrite (IH H).
Qed.

Lemma log_line_effects process log_file line w cur :
  logs w !! log_file = Some cur ->
  logs (snd (SphereBatch.log_line process log_file line w))
  = <[log_file := match snd line with
                  | None => cur +:+ fst line
                  | Some _ => str_take (flushed process) (cur +:+ fst line)
                  end]> (logs w).
Proof.
  intros Hcur.
  unfold SphereBatch.log_line, SphereBatch.write, SphereBatch.log_info,
    SphereBatch.log.
  rewrite bind_run. cbv zeta. rewrite Hcur. cbn [default].
  destruct (snd line) as [e|]; [reflexivity|].
  now destruct (str_in _ _ || str_in _ _).
Qed.

Lemma stream_loop_logs process log_file lines : forall w cur,
  logs w !! log_file = Some cur ->
  logs (snd (for_each lines (SphereBatch.log_line process log_file) w))
  = <[log_file := if forallb (fun line => no_fault (snd line)) lines
                  then cur +:+ attempted_text lines
                  else str_take (flushed process)
                         (cur +:+ attempted_text lines)]> (logs w).
Proof.
  induction lines as [|line rest IH]; intros w cur Hcur.
  - cbn. rewrite append_nil_r. symmetry. now apply insert_id.
  - cbn [for_each attempted_text forallb]. rewrite bind_run.
    pose proof (log_line_effects process log_file line w cur Hcur) as Hlogs.
    destruct (log_line_run process log_file line w) as (r & w1 & E & _ & Hr).
    rewrite E in *. cbn [snd] in Hlogs.
    destruct (snd line) as [e|]; subst r; cbn [snd no_fault andb].
    + exact Hlogs.
    + rewrite (IH w1 (cur +:+ fst line)).
      * rewrite Hlogs, insert_insert_eq. now rewrite !append_assoc.
      * rewrite Hlogs. apply lookup_insert_eq.
Qed.

(** Everything a call of the invoker leaves behind. *)
Lemma launch_effects env fits_file w :
  let process := engine env (popen_calls w) in
  let w' := snd (SphereBatch.launch_reflex_with_gui_automation env fits_file w) in
  reduced w' = reduced w /\ raw_data w' = raw_data w
  /\ clock_reads w' = clock_reads w /\ copy_calls w' = copy_calls w
  /\ popen_calls w' = S (popen_calls w)
  /\ products w'
     = (if no_fault (popen_fault process) then products_after process
        else products w)
  /\ logs w'
     = if no_fault (popen_fault process) && no_fault (log_open_fault process)
       then <["reflex_" +:+ stem fits_file +:+ ".log"
              := if forallb (fun line => no_fault (snd line)) (stdout process)
                    && no_fault (close_fault process)
                 then stream_text (stdout process)
                 else str_take (flushed process)
                        (attempted_text (stdout process))]> (logs w)
       else logs w.
Proof.
  intros process w'. subst w'.
  unfold SphereBatch.launch_reflex_with_gui_automation,
    SphereBatch.log_info, SphereBatch.log_error, SphereBatch.log.
  rewrite bind_run. cbv beta iota. unfold try_except. rewrite bind_run.
  unfold SphereBatch.popen. cbn [popen_calls set_ledger].
  fold process. destruct (popen_fault process) as [e|]; cbn [no_fault andb].
  { cbn. now repeat split. }
  rewrite bind_run. unfold SphereBatch.open_w.
  destruct (log_open_fault process) as [e|]; cbn [no_fault].
  { cbn. now repeat split. }
  rewrite bind_run. unfold with_closing. rewrite bind_run.
  match goal with
  | |- context [for_each _ (SphereBatch.log_line _ ?f) ?w0] =>
      pose proof (stream_loop_logs process f (stdout process) w0 EmptyString
                    (lookup_insert_eq _ _ _)) as Hlogs;
      destruct (stream_loop_run process f (stdout process) w0)
        as (r & w1 & E & Hsame & Hok & Hraise); rewrite E in *
  end.
  cbn [snd logs set_logs tick_popen set_products] in Hlogs.
  rewrite insert_insert_eq in Hlogs.
  change (EmptyString +:+ attempted_text (stdout process))
    with (attempted_text (stdout process)) in Hlogs.
  destruct Hsame as (Hraw & Hp & Hred & Hpopen & Hclock & Hcopy).
  cbn [raw_data products reduced popen_calls clock_reads copy_calls
       set_logs set_ledger tick_popen set_products] in *.
  unfold SphereBatch.end_of_stream, SphereBatch.close_w.
  destruct (forallb _ (stdout process)) eqn:Hlines; cbn [andb].
  - rewrite (Hok eq_refl). rewrite (attempted_text_all _ Hlines) in *.
    destruct (read_fault process) as [e|], (close_fault process) as [e'|];
      cbn [mret M_ret ret raise no_fault];
      try (unfold SphereBatch.wait; rewrite ?bind_run; cbn [mret M_ret ret];
           destruct (returncode process =? 0)%Z);
      cbn; rewrite ?Hlogs, ?lookup_insert_eq, ?insert_insert_eq; cbn;
      now repeat split.
  - destruct (Hraise eq_refl) as [e ->].
    destruct (close_fault process) as [e'|];
      cbn; rewrite ?Hlogs, ?lookup_insert_eq, ?insert_insert_eq; cbn;
      rewrite ?str_take_idem; now repeat split.
Qed.

(** X13.  Once the engine has started and the per-input log is open, what
    that file held before is gone and no other log is touched.  When no
    write and the close of the log raise no exception, the log holds the
    text of all the lines of the engine's output, also when reading the
    stream raised after them; when a write or the close raises, the log
    holds a prefix of the text handed to [write] until then. *)
Theorem invoker_log_holds_streamed_lines :
  forall env fits_file w,
    let process := engine env (popen_calls w) in
    popen_fault process = None -> log_open_fault process = None ->
    logs (snd (SphereBatch.launch_reflex_with_gui_automation env fits_file w))
    = <["reflex_" +:+ stem fits_file +:+ ".log"
        := if forallb (fun line => no_fault (snd line)) (stdout process)
              && no_fault (close_fault process)
           then stream_text (stdout process)
           else str_take (flushed process)
                  (attempted_text (stdout process))]> (logs w).
Proof.
  intros env fits_file w process Hpopen Hopen.
  destruct (launch_effects env fits_file w) as (_ & _ & _ & _ & _ & _ & Hlogs).
  fold process in Hlogs. now rewrite Hpopen, Hopen in Hlogs.
Qed.

(** X13, witness: an engine whose second line cannot be written, when four
    characters had reached the disk. *)
Lemma invoker_log_holds_streamed_lines_witness :
  logs (snd (SphereBatch.launch_reflex_with_gui_automation
               {| engine := fun _ =>
                    {| popen_fault := None; log_open_fault := None;
                       stdout := [("starting", None);
                                  ("reducing", Some (Exn "OSError" "disk full"));
                                  ("done", None)];
                       read_fault := None; close_fault := None; flushed := 4;
                       returncode := 0%Z; products_after := None |};
                  now := fun _ => "20260101_120000";
                  copy_fault := fun _ => None;
                  search_fault := fun _ => None |}
               "A.fits" idle_world))
  = <["reflex_" +:+ stem "A.fits" +:+ ".log" := "star"]> (logs idle_world).
Proof.
  apply (invoker_log_holds_streamed_lines
           {| engine := fun _ =>
                {| popen_fault := None; log_open_fault := None;
                   stdout := [("starting", None);
                              ("reducing", Some (Exn "OSError" "disk full"));
                              ("done", None)];
                   read_fault := None; close_fault := None; flushed := 4;
                   returncode := 0%Z; products_after := None |};
              now := fun _ => "20260101_120000";
              copy_fault := fun _ => None;
              search_fault := fun _ => None |}
           "A.fits" idle_world); reflexivity.
Defined.

(** X14.  The invoker touches neither the destination nor the source
    directory, reads no clock and copies nothing; it launches the engine
    exactly once, and the product tree afterwards is the one the engine
    left, or the old one when the engine could not be started. *)
Theorem invoker_leaves_destination_alone :
  forall env fits_file w,
    let process := engine env (popen_calls w) in
    let w' := snd (SphereBatch.launch_reflex_with_gui_automation
                     env fits_file w) in
    reduced w' = reduced w /\ raw_data w' = raw_data w
    /\ clock_reads w' = clock_reads w /\ copy_calls w' = copy_calls w
    /\ popen_calls w' = S (popen_calls w)
    /\ products w'
       = (if no_fault (popen_fault process) then products_after process
          else products w).
Proof.
  intros env fits_file w process w'.
  destruct (launch_effects env fits_file w) as (H1 & H2 & H3 & H4 & H5 & H6 & _).
  now repeat split.
Qed.

(** ** One input file, further *)

(** What processing one input file amounts to. *)
Lemma item_effects env fits_file w :
  let process := engine env (popen_calls w) in
  exists r w',
    SphereBatch.process_single_file env fits_file w = (r, w')
    /\ popen_calls w' = S (popen_calls w)
    /\ (forall name, is_Some (reduced w !! name) -> is_Some (reduced w' !! name))
    /\ (engine_succeeds process = false ->
        r = Ok false /\ reduced w' = reduced w /\ copy_calls w' = copy_calls w
        /\ clock_reads w' = clock_reads w
        /\ List.last (ledger w') (INFO, EmptyString)
           = (ERROR, "Skipping " +:+ fits_file +:+ " - Reflex failed"))
    /\ (engine_succeeds process = true ->
        match search_fault env (S (popen_calls w)) with
        | Some e => r = Raise e /\ reduced w' = reduced w
        | None =>
            exists w1,
              products w1 = products_after process /\ reduced w1 = reduced w
              /\ copy_calls w1 = copy_calls w /\ clock_reads w1 = clock_reads w
              /\ let found :=
                   match products_after process with
                   | Some root =>
                       SphereBatch.collect_products (stem fits_file) root
                   | None => []
                   end in
                 r = fst (SphereBatch.move_products_to_reduced_dir
                            env found fits_file w1)
                 /\ reduced w'
                    = reduced (snd (SphereBatch.move_products_to_reduced_dir
                                      env found fits_file w1))
        end).
Proof.
  intros process.
  unfold SphereBatch.process_single_file, SphereBatch.log_info,
    SphereBatch.log_warning, SphereBatch.log_error, SphereBatch.sleep.
  repeat (rewrite log_bind; cbv beta). rewrite ret_bind. rewrite bind_run.
  match goal with
  | |- context [SphereBatch.launch_reflex_with_gui_automation env fits_file ?w0] =>
      pose proof (launch_effects env fits_file w0) as Heffects;
      destruct (launch_run env fits_file w0) as (w1 & E & _); rewrite E in *
  end.
  cbv zeta in Heffects. cbn [snd popen_calls set_ledger reduced raw_data
    clock_reads copy_calls products logs] in Heffects.
  fold process in Heffects.
  destruct Heffects as (Hred & _ & Hclock & Hcopy & Hpopen & Hproducts & _).
  cbn [popen_calls set_ledger]. fold process. unfold engine_succeeds.
  destruct (reaches_wait process && (returncode process =? 0)%Z) eqn:Hengine;
    cbn [negb].
  - assert (popen_fault process = None) as Hstarted.
    { unfold reaches_wait in Hengine. destruct (popen_fault process);
        [discriminate | reflexivity]. }
    rewrite Hstarted in Hproducts. cbn [no_fault] in Hproducts.
    rewrite ret_bind, bind_run, find_output_products_run, Hpopen, Hproducts.
    destruct (search_fault env (S (popen_calls w))) as [e|].
    { eexists _, _. split; [reflexivity|]. split; [exact Hpopen|].
      split; [intros name; now rewrite Hred|]. split; [discriminate|].
      intros _. now split. }
    set (found := match products_after process with
                  | Some root => SphereBatch.collect_products (stem fits_file) root
                  | None => []
                  end).
    assert (exists w2,
              (match products_after process with
               | Some root =>
                   let found0 := SphereBatch.collect_products (stem fits_file) root in
                   (Ok found0,
                    set_ledger (ledger w1 ++ [(INFO, "Found " +:+ pretty (length found0)
                                               +:+ " output product(s) for "
                                               +:+ fits_file)]) w1)
               | None =>
                   (Ok [],
                    set_ledger (ledger w1 ++ [(WARNING,
                                  "Reflex products directory does not exist: "
                                  +:+ SphereBatch.REFLEX_PRODUCTS_ROOT)]) w1)
               end) = (Ok found, w2)
              /\ products w2 = products_after process /\ reduced w2 = reduced w
              /\ copy_calls w2 = copy_calls w /\ clock_reads w2 = clock_reads w
              /\ popen_calls w2 = S (popen_calls w))
      as (w2 & -> & Hp2 & Hred2 & Hcopy2 & Hclock2 & Hpopen2).
    { subst found. destruct (products_after process);
        eexists; (split; [reflexivity|]); cbn; now repeat split. }
    rewrite bind_run.
    pose proof (fun name => relocation_monotone env found fits_file w2 name) as Hmono.
    destruct (relocate_summary env found fits_file w2)
      as (b & w3 & E3 & _ & _ & _ & Hpopen3 & _).
    rewrite E3 in *. cbn [snd] in Hmono.
    destruct b; cbn [negb]; rewrite log_bind;
      eexists _, _; (split; [reflexivity|]); cbn [popen_calls set_ledger reduced];
      (split; [congruence|]);
      (split; [intros name Hname; apply Hmono; now rewrite Hred2|]);
      (split; [discriminate|]); intros _; exists w2;
      rewrite E3; now repeat split.
  - rewrite log_bind. eexists _, _. split; [reflexivity|].
    cbn [popen_calls set_ledger reduced copy_calls clock_reads ledger].
    split; [exact Hpopen|]. split; [intros name; now rewrite Hred|].
    split; [|discriminate]. intros _. split_and!; auto.
    apply last_last.
Qed.

(** X15.  When the engine fails for an input file (it does not start, its
    output cannot be logged, or it exits with a status other than 0), the
    file fails: nothing is located or copied, the destination is as before,
    and the last ledger record says that the file is skipped. *)
Theorem item_fails_when_engine_fails :
  forall env fits_file w,
    engine_succeeds (engine env (popen_calls w)) = false ->
    let w' := snd (SphereBatch.process_single_file env fits_file w) in
    fst (SphereBatch.process_single_file env fits_file w) = Ok false
    /\ reduced w' = reduced w /\ copy_calls w' = copy_calls w
    /\ clock_reads w' = clock_reads w
    /\ List.last (ledger w') (INFO, EmptyString)
       = (ERROR, "Skipping " +:+ fits_file +:+ " - Reflex failed").
Proof.
  intros env fits_file w Hengine.
  destruct (item_effects env fits_file w) as (r & w' & E & _ & _ & Hfail & _).
  rewrite E. cbn [fst snd]. destruct (Hfail Hengine) as (-> & H). exact (conj eq_refl H).
Qed.

(** X15, witness: an engine that exits with status 3. *)
Lemma item_fails_when_engine_fails_witness :
  fst (SphereBatch.process_single_file (steady_environment 3 None) "A.fits"
         twin_world) = Ok false
  /\ reduced (snd (SphereBatch.process_single_file (steady_environment 3 None)
                     "A.fits" twin_world)) = reduced twin_world
  /\ copy_calls (snd (SphereBatch.process_single_file
                        (steady_environment 3 None) "A.fits" twin_world))
     = copy_calls twin_world
  /\ clock_reads (snd (SphereBatch.process_single_file
                         (steady_environment 3 None) "A.fits" twin_world))
     = clock_reads twin_world
  /\ List.last
       (ledger (snd (SphereBatch.process_single_file
                       (steady_environment 3 None) "A.fits" twin_world)))
       (INFO, EmptyString)
     = (ERROR, "Skipping " +:+ "A.fits" +:+ " - Reflex failed").
Proof.
  apply (item_fails_when_engine_fails (steady_environment 3 None) "A.fits"
           twin_world).
  reflexivity.
Defined.

(** X16.  An input file succeeds exactly when the engine succeeds, the
    search of the tree the engine left raises no exception and finds at
    least one product, every product found is a regular file of that tree,
    and no copy meets an I/O fault. *)
Theorem item_succeeds_iff :
  forall env fits_file w,
    let process := engine env (popen_calls w) in
    let found :=
      match products_after process with
      | Some root => SphereBatch.collect_products (stem fits_file) root
      | None => []
      end in
    fst (SphereBatch.process_single_file env fits_file w) = Ok true
    <-> engine_succeeds process = true
        /\ search_fault env (S (popen_calls w)) = None
        /\ found <> []
        /\ forall i product,
             found !! i = Some product ->
             is_Some (product_data (set_products (products_after process) w)
                                   product)
             /\ copy_fault env (copy_calls w + i) = None.
Proof.
  intros env fits_file w process found.
  destruct (item_effects env fits_file w)
    as (r & w' & E & _ & _ & Hfail & Hok).
  fold process in Hfail, Hok. rewrite E. cbn [fst].
  destruct (engine_succeeds process) eqn:Hengine.
  - specialize (Hok eq_refl).
    destruct (search_fault env (S (popen_calls w))) as [e|].
    { destruct Hok as [-> _]. split; [discriminate|].
      now intros (_ & ? & _). }
    destruct Hok as (w1 & Hp & _ & Hcopy & _ & Hb & _).
    fold found in Hb. cbv zeta in Hb.
    assert (forall p, product_data w1 p
                      = product_data (set_products (products_after process) w) p)
      as Hdata by (intros p; unfold product_data; now rewrite Hp).
    rewrite Hb, relocation_result, Hcopy.
    split.
    + intros [Hfound Hall]. split; [reflexivity|]. split; [reflexivity|].
      split; [exact Hfound|].
      intros i p Hi. rewrite <- Hdata. now apply Hall.
    + intros (_ & _ & Hfound & Hall). split; [exact Hfound|].
      intros i p Hi. rewrite Hdata. now apply Hall.
  - destruct (Hfail eq_refl) as (-> & _).
    split; [discriminate | now intros [? _]].
Qed.

(** ** The batch, further *)

(** [main] after its preamble: the loop and the summary, from the world in
    which the loop starts. *)
Lemma main_unfold env w :
  let fits_files := sorted (List.filter fnmatch_fits (raw_data w)) in
  SphereBatch.main env w
  = (match fits_files with
     | [] =>
         SphereBatch.log_warning "No FITS files found in raw_data directory";;
         mret 0%Z
     | _ =>
         counters ← SphereBatch.batch_loop env fits_files 0 0;
         SphereBatch.log_info (str_repeat "=" 70);;
         SphereBatch.log_info "BATCH PROCESSING COMPLETE";;
         SphereBatch.log_info
           ("Successfully processed: " +:+ pretty (fst counters)
            +:+ "/" +:+ pretty (length fits_files));;
         SphereBatch.log_info
           ("Failed: " +:+ pretty (snd counters) +:+ "/"
            +:+ pretty (length fits_files));;
         SphereBatch.log_info
           ("Output directory: " +:+ SphereBatch.REDUCED_DATA_DIR);;
         SphereBatch.log_info (str_repeat "=" 70);;
         mret (if snd counters =? 0 then 0%Z else 1%Z)
     end) (at_loop_start w).
Proof.
  intros fits_files. subst fits_files.
  unfold SphereBatch.main, SphereBatch.ensure_directories, SphereBatch.mkdir,
    SphereBatch.setup_logging, SphereBatch.get_fits_files, at_loop_start.
  cbn [for_each]. unfold SphereBatch.log_info, SphereBatch.log_warning.
  cbv beta. rewrite bind_run, !ret_bind. cbn [ret]. rewrite ret_bind.
  repeat (rewrite log_bind; cbv beta).
  rewrite bind_run. cbv beta zeta. rewrite log_bind.
  cbn [mret M_ret ret raw_data set_ledger ledger].
  rewrite <- !app_assoc. reflexivity.
Qed.

Lemma outcomes_partition (outcomes : list (result bool)) :
  length (List.filter succeeded outcomes)
  + length (List.filter (fun r => negb (succeeded r)) outcomes)
  = length outcomes.
Proof.
  induction outcomes as [|r rest IH]; [reflexivity|].
  cbn [List.filter]. destruct (succeeded r); cbn [negb length]; lia.
Qed.

(** X25.  The controller attempts the input files in order, one launch of
    the engine each, and stops only at a file whose processing raises: the exit status is 0 exactly when every attempted file
    succeeded, which implies that every file was attempted, and 1 otherwise.
    When no search of the product tree raises, every file is attempted
    whatever the outcomes of the files before it, every call returns a
    Boolean, and the exit status is 1 exactly when some file failed.  When
    the search raises for the file number [k], the batch ends with that
    exception and the files after it are not attempted. *)
Theorem batch_attempts_every_item :
  forall env w,
    let fits_files := sorted (List.filter fnmatch_fits (raw_data w)) in
    let outcomes := item_outcomes env fits_files (at_loop_start w) in
    popen_calls (snd (SphereBatch.main env w)) = popen_calls w + length outcomes
    /\ length outcomes <= length fits_files
    /\ (SphereBatch.exit_status env w = 0%Z
        <-> Forall (fun r => r = Ok true) outcomes
            /\ length outcomes = length fits_files)
    /\ (SphereBatch.exit_status env w = 1%Z
        <-> Exists (fun r => r <> Ok true) outcomes)
    /\ ((forall j, j < length fits_files ->
                   engine_succeeds (engine env (popen_calls w + j)) = true ->
                   search_fault env (popen_calls w + S j) = None) ->
        length outcomes = length fits_files
        /\ Forall (fun r => exists b, r = Ok b) outcomes
        /\ (SphereBatch.exit_status env w = 1%Z
            <-> Exists (fun r => r = Ok false) outcomes))
    /\ (forall k e,
          k < length fits_files ->
          (forall j, j < k ->
                     engine_succeeds (engine env (popen_calls w + j)) = true ->
                     search_fault env (popen_calls w + S j) = None) ->
          engine_succeeds (engine env (popen_calls w + k)) = true ->
          search_fault env (popen_calls w + S k) = Some e ->
          length outcomes = S k
          /\ outcomes !! k = Some (Raise e)
          /\ fst (SphereBatch.main env w) = Raise e
          /\ SphereBatch.exit_status env w = 1%Z).
Proof.
  intros env w fits_files outcomes.
  destruct (exit_status_run env w) as (Hpopen & Hstatus & Habort).
  fold fits_files in Hpopen, Hstatus, Habort.
  fold outcomes in Hpopen, Hstatus, Habort.
  pose proof (item_outcomes_shape env fits_files (at_loop_start w)) as Hshape.
  cbv zeta in Hshape. fold outcomes in Hshape.
  split; [exact Hpopen|]. split; [apply item_outcomes_length|].
  assert (SphereBatch.exit_status env w = 0%Z
          <-> Forall (fun r => r = Ok true) outcomes) as Hzero.
  { rewrite Hstatus, <- all_succeeded_iff.
    destruct (forallb succeeded outcomes); split; auto; discriminate. }
  split; [|split; [|split]].
  - rewrite Hzero. split; [|now intros [? _]].
    intros Hall. split; [exact Hall|].
    destruct Hshape as [[_ Hlen] | (attempted & e & Hsplit & _)]; [exact Hlen|].
    rewrite Hsplit in Hall. apply Forall_app in Hall as [_ Hall].
    apply Forall_cons_1 in Hall as [Hall _]. discriminate.
  - rewrite <- not_all_succeeded, <- all_succeeded_iff, Hstatus.
    destruct (forallb succeeded outcomes); split; auto; try discriminate.
    intros H. now destruct H.
  - intros Hsearch.
    destruct (item_outcomes_return env fits_files (at_loop_start w) Hsearch)
      as [Hreturn Hlen].
    fold outcomes in Hreturn, Hlen. split; [exact Hlen|]. split; [exact Hreturn|].
    rewrite <- (some_failure_iff outcomes Hreturn), Hstatus.
    destruct (forallb succeeded outcomes) eqn:Hall.
    + apply all_succeeded_iff, no_failure_iff in Hall.
      split; [discriminate | contradiction].
    + split; [|reflexivity]. intros _ Hnone.
      apply no_failure_iff, all_succeeded_iff in Hnone. congruence.
  - intros k e Hk Hbefore Hengine Hfault.
    destruct (item_outcomes_abort env fits_files (at_loop_start w) k e
                Hk Hbefore Hengine Hfault) as (attempted & Hsplit & Hlen & _).
    fold outcomes in Hsplit. split_and!.
    + rewrite Hsplit, length_app, Hlen. cbn. lia.
    + rewrite Hsplit, lookup_app_r by lia.
      now rewrite Hlen, Nat.sub_diag.
    + exact (Habort _ _ Hsplit).
    + rewrite Hstatus.
      destruct (forallb succeeded outcomes) eqn:Hgood; [|reflexivity].
      apply all_succeeded_iff in Hgood. rewrite Hsplit in Hgood.
      apply Forall_app in Hgood as [_ H].
      apply Forall_cons_1 in H as [H _]. discriminate.
Qed.

(** X25, witness: the scenario of the specification, and the same inputs
    with a tree that may not be searched. *)
Lemma batch_attempts_every_item_witness :
  (length (item_outcomes scenario_environment
             (sorted (List.filter fnmatch_fits (raw_data scenario_world)))
             (at_loop_start scenario_world))
   = length (sorted (List.filter fnmatch_fits (raw_data scenario_world)))
   /\ Forall (fun r => exists b, r = Ok b)
        (item_outcomes scenario_environment
           (sorted (List.filter fnmatch_fits (raw_data scenario_world)))
           (at_loop_start scenario_world))
   /\ (SphereBatch.exit_status scenario_environment scenario_world = 1%Z
       <-> Exists (fun r => r = Ok false)
             (item_outcomes scenario_environment
                (sorted (List.filter fnmatch_fits (raw_data scenario_world)))
                (at_loop_start scenario_world))))
  /\ (length (item_outcomes locked_environment
                (sorted (List.filter fnmatch_fits (raw_data scenario_world)))
                (at_loop_start scenario_world)) = 1
      /\ item_outcomes locked_environment
           (sorted (List.filter fnmatch_fits (raw_data scenario_world)))
           (at_loop_start scenario_world) !! 0
         = Some (Raise (Exn "PermissionError" "[Errno 13] Permission denied"))
      /\ fst (SphereBatch.main locked_environment scenario_world)
         = Raise (Exn "PermissionError" "[Errno 13] Permission denied")
      /\ SphereBatch.exit_status locked_environment scenario_world = 1%Z).
Proof.
  split.
  - apply (proj1 (proj2 (proj2 (proj2 (proj2
             (batch_attempts_every_item scenario_environment scenario_world)))))).
    intros j _ _. reflexivity.
  - apply (proj2 (proj2 (proj2 (proj2 (proj2
             (batch_attempts_every_item locked_environment scenario_world)))))
             0 (Exn "PermissionError" "[Errno 13] Permission denied")).
    + vm_compute. lia.
    + intros j Hj. lia.
    + reflexivity.
    + reflexivity.
Defined.

(** X17.  When a batch over at least one input file runs to its end, the
    ledger ends with the summary; the two counts it reports are the numbers
    of files that succeeded and failed, they add up to the number of input
    files, and the value returned is 0 exactly when the second is 0. *)
Theorem batch_summary_adds_up :
  forall env w status,
    let fits_files := sorted (List.filter fnmatch_fits (raw_data w)) in
    let outcomes := item_outcomes env fits_files (at_loop_start w) in
    let successful := length (List.filter succeeded outcomes) in
    let failed := length (List.filter (fun r => negb (succeeded r)) outcomes) in
    fits_files <> [] ->
    fst (SphereBatch.main env w) = Ok status ->
    successful + failed = length fits_files
    /\ status = (if failed =? 0 then 0%Z else 1%Z)
    /\ exists earlier,
         ledger (snd (SphereBatch.main env w))
         = earlier
           ++ [(INFO, str_repeat "=" 70);
               (INFO, "BATCH PROCESSING COMPLETE");
               (INFO, "Successfully processed: " +:+ pretty successful
                      +:+ "/" +:+ pretty (length fits_files));
               (INFO, "Failed: " +:+ pretty failed +:+ "/"
                      +:+ pretty (length fits_files));
               (INFO, "Output directory: " +:+ SphereBatch.REDUCED_DATA_DIR);
               (INFO, str_repeat "=" 70)].
Proof.
  intros env w status fits_files outcomes successful failed Hfiles.
  rewrite main_unfold. fold fits_files.
  pose proof (item_outcomes_shape env fits_files (at_loop_start w)) as Hshape.
  cbv zeta in Hshape. fold outcomes in Hshape.
  destruct fits_files as [|f rest] eqn:Efiles; [contradiction|].
  rewrite bind_run.
  destruct (batch_loop_run env (f :: rest) 0 0 (at_loop_start w))
    as (r & w1 & E & _ & Hok & Habort).
  fold outcomes in Hok, Habort. rewrite E.
  destruct Hshape as [[Hall Hlen] | (attempted & e & Hsplit & _)].
  - rewrite (Hok Hall). cbn [fst snd Nat.add]. fold successful failed.
    unfold SphereBatch.log_info. repeat (rewrite log_bind; cbv beta).
    cbn [mret M_ret ret fst snd ledger set_ledger]. intros [= <-].
    split; [subst successful failed; now rewrite outcomes_partition|].
    split; [reflexivity|].
    exists (ledger w1). now rewrite <- !app_assoc.
  - rewrite (Habort _ _ Hsplit). discriminate.
Qed.

(** X17, witness: the scenario of the specification. *)
Lemma batch_summary_adds_up_witness :
  length (List.filter succeeded
            (item_outcomes scenario_environment
               (sorted (List.filter fnmatch_fits (raw_data scenario_world)))
               (at_loop_start scenario_world)))
  + length (List.filter (fun r => negb (succeeded r))
              (item_outcomes scenario_environment
                 (sorted (List.filter fnmatch_fits (raw_data scenario_world)))
                 (at_loop_start scenario_world)))
  = length (sorted (List.filter fnmatch_fits (raw_data scenario_world))).
Proof.
  refine (proj1 (batch_summary_adds_up scenario_environment scenario_world
                   1%Z _ _)).
  - discriminate.
  - vm_compute. reflexivity.
Defined.

(** A file that is attempted while the engine fails for it, fails. *)
Lemma item_outcomes_failed_launch env fits_files : forall w k,
  k < length (item_outcomes env fits_files w) ->
  engine_succeeds (engine env (popen_calls w + k)) = false ->
  item_outcomes env fits_files w !! k = Some (Ok false).
Proof.
  induction fits_files as [|f rest IH]; intros w k Hk Hengine;
    [cbn in Hk; lia|].
  cbn [item_outcomes] in *.
  destruct (item_effects env f w) as (r & w' & E & Hpopen & _ & Hfail & _).
  rewrite E in *. cbn [fst snd] in *. destruct k as [|k].
  - rewrite Nat.add_0_r in Hengine. cbn. now destruct (Hfail Hengine) as [-> _].
  - cbn [lookup list_lookup]. destruct r as [b|e|status];
      [|cbn in Hk; lia..].
    apply IH; [cbn in Hk; lia|]. rewrite Hpopen.
    now replace (S (popen_calls w) + k) with (popen_calls w + S k) by lia.
Qed.

(** The file number [k] is attempted when no search raises before it. *)
Lemma item_outcomes_reaches env fits_files : forall w k,
  k < length fits_files ->
  (forall j, j < k ->
             engine_succeeds (engine env (popen_calls w + j)) = true ->
             search_fault env (popen_calls w + S j) = None) ->
  k < length (item_outcomes env fits_files w).
Proof.
  induction fits_files as [|f rest IH]; intros w k Hk Hbefore;
    [cbn in Hk; lia|].
  cbn [item_outcomes length]. destruct k as [|k]; [lia|].
  destruct (process_single_file_run env f w)
    as (r & w1 & E & Hpopen & _ & [(b & -> & _) | (e & -> & Hengine & Hfault)]);
    rewrite E; cbn [fst snd].
  - apply -> Nat.succ_lt_mono. apply IH; [cbn in Hk; lia|].
    intros j Hj. rewrite Hpopen.
    replace (S (popen_calls w) + j) with (popen_calls w + S j) by lia.
    replace (S (popen_calls w) + S j) with (popen_calls w + S (S j)) by lia.
    apply Hbefore. lia.
  - specialize (Hbefore 0). rewrite Nat.add_0_r, Nat.add_1_r in Hbefore.
    rewrite Hbefore in Hfault; [discriminate | lia | exact Hengine].
Qed.

(** X18.  The input files are processed in the scanner's order, one launch
    of the engine each: when the launch number [k] of the batch fails, the
    exit status of the batch is 1, and the input file number [k] fails,
    provided the batch gets that far, which it does when no search of the
    product tree raises before. *)
Theorem kth_file_fails_with_kth_launch :
  forall env w k,
    let fits_files := sorted (List.filter fnmatch_fits (raw_data w)) in
    let outcomes := item_outcomes env fits_files (at_loop_start w) in
    k < length fits_files ->
    engine_succeeds (engine env (popen_calls w + k)) = false ->
    SphereBatch.exit_status env w = 1%Z
    /\ (k < length outcomes -> outcomes !! k = Some (Ok false))
    /\ ((forall j, j < k ->
                   engine_succeeds (engine env (popen_calls w + j)) = true ->
                   search_fault env (popen_calls w + S j) = None) ->
        outcomes !! k = Some (Ok false)).
Proof.
  intros env w k fits_files outcomes Hk Hengine.
  assert (k < length outcomes -> outcomes !! k = Some (Ok false)) as Hfailed.
  { intros Hreached. now apply item_outcomes_failed_launch. }
  split; [|split; [exact Hfailed|]].
  - destruct (exit_status_run env w) as (_ & -> & _).
    fold fits_files. fold outcomes.
    destruct (forallb succeeded outcomes) eqn:Hgood; [|reflexivity].
    apply all_succeeded_iff in Hgood. exfalso.
    pose proof (item_outcomes_shape env fits_files (at_loop_start w)) as Hshape.
    cbv zeta in Hshape. fold outcomes in Hshape.
    destruct Hshape as [[_ Hlen] | (attempted & e & Hsplit & _)].
    + rewrite <- Hlen in Hk. specialize (Hfailed Hk).
      apply list_elem_of_lookup_2 in Hfailed.
      rewrite Forall_forall in Hgood. specialize (Hgood _ Hfailed). discriminate.
    + rewrite Hsplit in Hgood. apply Forall_app in Hgood as [_ H].
      apply Forall_cons_1 in H as [H _]. discriminate.
  - intros Hbefore. apply Hfailed.
    now apply item_outcomes_reaches.
Qed.

(** X18, witness: the scenario, whose second launch exits with status 1. *)
Lemma kth_file_fails_with_kth_launch_witness :
  SphereBatch.exit_status scenario_environment scenario_world = 1%Z
  /\ item_outcomes scenario_environment
       (sorted (List.filter fnmatch_fits (raw_data scenario_world)))
       (at_loop_start scenario_world) !! 1 = Some (Ok false).
Proof.
  destruct (kth_file_fails_with_kth_launch scenario_environment scenario_world 1)
    as (Hstatus & _ & Hfailed).
  - vm_compute. lia.
  - reflexivity.
  - split; [exact Hstatus|]. apply Hfailed. intros j _ _. reflexivity.
Defined.

Lemma batch_loop_monotone env fits_files : forall successful failed w name,
  is_Some (reduced w !! name) ->
  is_Some (reduced (snd (SphereBatch.batch_loop env fits_files
                           successful failed w)) !! name).
Proof.
  induction fits_files as [|f rest IH]; intros successful failed w name Hname;
    [exact Hname|].
  cbn [SphereBatch.batch_loop]. rewrite bind_run.
  destruct (item_effects env f w) as (r & w1 & E & _ & Hmono & _).
  rewrite E. unfold SphereBatch.sleep.
  destruct r as [b|e|status]; [|now apply Hmono..].
  rewrite ret_bind. destruct b; apply IH; now apply Hmono.
Qed.

(** X19.  A whole batch never removes a file from the destination: every
    name that is there when [main] starts is there when it ends, also when
    it ends with an exception. *)
Theorem batch_never_removes_a_file :
  forall env w name,
    is_Some (reduced w !! name) ->
    is_Some (reduced (snd (SphereBatch.main env w)) !! name).
Proof.
  intros env w name Hname. rewrite main_unfold.
  destruct (sorted (List.filter fnmatch_fits (raw_data w))) as [|f rest] eqn:E.
  - exact Hname.
  - rewrite bind_run.
    pose proof (batch_loop_monotone env (f :: rest) 0 0 (at_loop_start w) name
                  Hname) as Hmono.
    destruct (SphereBatch.batch_loop env (f :: rest) 0 0 (at_loop_start w))
      as [[counters|e|status] w1]; exact Hmono.
Qed.

(** X19, witness: the old [out.fits] across a batch over [A.fits]. *)
Lemma batch_never_removes_a_file_witness :
  is_Some (reduced
             (snd (SphereBatch.main (steady_environment 0 (Some twin_tree))
                     (world_of ["A.fits"] None
                        {[ "out.fits" := bytes_of "old" ]})))
           !! "out.fits").
Proof.
  apply (batch_never_removes_a_file (steady_environment 0 (Some twin_tree))
           (world_of ["A.fits"] None {[ "out.fits" := bytes_of "old" ]})
           "out.fits").
  vm_compute. eauto.
Defined.

(** ** The single-item script, further *)

(** X20.  With one argument, when the engine starts, its output is logged
    and the records can be added to the log, the script exits with status 0
    although the engine exited with a status other than 0: the failure shows
    only in the record printed last.  Conversely an exit status 0 implies
    that the engine was started and its output logged. *)
Theorem script_exit_status_ignores_engine_status :
  forall env argv s,
    let process := Automate.launch env (Automate.launches s) in
    let input := Automate.resolve env (nth 1 argv EmptyString) in
    length argv = 2 ->
    (reaches_wait process = true -> returncode process <> 0%Z ->
     (forall i, i < 3 ->
                Automate.append_fault env (Automate.appends s + i) = None) ->
     Automate.exit_status env argv s = 0%Z
     /\ List.last (Automate.console (snd (Automate.main env argv s))) EmptyString
        = Automate.isoformat_now env (S (S (Automate.clock s))) +:+ " "
          +:+ "[ERROR] Pipeline failed for " +:+ input)
    /\ (Automate.exit_status env argv s = 0%Z ->
        reaches_wait process = true
        /\ Automate.append_fault env (Automate.appends s) = None).
Proof.
  intros env argv s process input Hlen.
  unfold Automate.exit_status, Automate.main.
  rewrite Hlen. cbn [Nat.eqb negb].
  pose proof (run_pipeline_run env (nth 1 argv EmptyString) s) as Hrun.
  cbv zeta in Hrun. fold process input in Hrun. split.
  - intros Hreach Hcode Happends.
    pose proof (Happends 0 ltac:(lia)) as Hfirst.
    rewrite Nat.add_0_r in Hfirst. rewrite Hfirst, Hreach in Hrun.
    destruct Hrun as (s3 & -> & _ & Ha3 & Hc3 & _).
    rewrite bind_run.
    match goal with
    | |- context [Automate.append_log env ?m s3] =>
        destruct (append_log_run env m s3)
          as (r4 & s4 & -> & _ & _ & _ & Ha4 & Hc4 & _ & Hr4)
    end.
    rewrite Ha3 in Hr4. replace (S (Automate.appends s))
      with (Automate.appends s + 1) in Hr4 by lia.
    rewrite (Happends 1) in Hr4 by lia. destruct Hr4 as [-> _].
    apply Z.eqb_neq in Hcode. rewrite Hcode.
    match goal with
    | |- context [Automate.append_log env ?m s4] =>
        destruct (append_log_run env m s4)
          as (r5 & s5 & -> & _ & _ & _ & _ & _ & Hconsole5 & Hr5)
    end.
    cbv zeta in Hconsole5. rewrite Ha4, Ha3 in Hr5.
    replace (S (S (Automate.appends s)))
      with (Automate.appends s + 2) in Hr5 by lia.
    rewrite (Happends 2) in Hr5 by lia. destruct Hr5 as [-> _].
    cbn [fst snd status_of]. split; [reflexivity|].
    rewrite Hconsole5, last_last, Hc4, Hc3. reflexivity.
  - destruct (Automate.append_fault env (Automate.appends s)) as [[e n]|].
    { destruct Hrun as (s1 & -> & _). discriminate. }
    destruct (reaches_wait process).
    + now intros _.
    + destruct Hrun as (e & s1 & -> & _). discriminate.
Qed.

(** X20, witness: an engine that exits with status 1. *)
Lemma script_exit_status_ignores_engine_status_witness :
  Automate.exit_status (script_surroundings 1 ∅) ["automate.py"; "A.fits"]
                       clash_state = 0%Z
  /\ List.last
       (Automate.console
          (snd (Automate.main (script_surroundings 1 ∅)
                  ["automate.py"; "A.fits"] clash_state))) EmptyString
     = Automate.isoformat_now (script_surroundings 1 ∅)
         (S (S (Automate.clock clash_state))) +:+ " "
       +:+ "[ERROR] Pipeline failed for "
       +:+ Automate.resolve (script_surroundings 1 ∅)
             (nth 1 ["automate.py"; "A.fits"] EmptyString).
Proof.
  apply (proj1 (script_exit_status_ignores_engine_status
                  (script_surroundings 1 ∅) ["automate.py"; "A.fits"]
                  clash_state eq_refl)).
  - reflexivity.
  - discriminate.
  - intros i _. reflexivity.
Defined.

(** X21.  When the engine was started and its output logged, and it exits
    with a status other than 0, the script moves nothing: the destination
    is as before and the engine's output directory is as the engine left
    it. *)
Theorem script_moves_nothing_after_failed_engine :
  forall env input_fits_file s,
    let process := Automate.launch env (Automate.launches s) in
    let s' := snd (Automate.run_pipeline env input_fits_file s) in
    Automate.append_fault env (Automate.appends s) = None ->
    reaches_wait process = true -> returncode process <> 0%Z ->
    Automate.final_dir s' = Automate.final_dir s
    /\ Automate.pipeline_products s' = products_after process.
Proof.
  intros env input s process s' Hfirst Hreach Hcode. subst s'.
  pose proof (run_pipeline_run env input s) as Hrun. cbv zeta in Hrun.
  fold process in Hrun. rewrite Hfirst, Hreach in Hrun.
  destruct Hrun as (s3 & -> & _ & _ & _ & Hpp & Hfd & _).
  rewrite bind_run.
  match goal with
  | |- context [Automate.append_log env ?m s3] =>
      destruct (append_log_run env m s3)
        as (r4 & s4 & -> & Hpp4 & Hfd4 & _)
  end.
  destruct r4 as [[]|e|status]; cbn [snd]; [|split; congruence..].
  apply Z.eqb_neq in Hcode. rewrite Hcode.
  match goal with
  | |- context [Automate.append_log env ?m s4] =>
      destruct (append_log_run env m s4) as (r5 & s5 & -> & Hpp5 & Hfd5 & _)
  end.
  cbn [snd]. split; congruence.
Qed.

(** X21, witness: the engine leaves [A_1.fits] and exits with status 1. *)
Lemma script_moves_nothing_after_failed_engine_witness :
  Automate.final_dir
    (snd (Automate.run_pipeline
            (script_surroundings 1 {[ "A_1.fits" := bytes_of "new" ]})
            "A.fits" clash_state))
  = Automate.final_dir clash_state
  /\ Automate.pipeline_products
       (snd (Automate.run_pipeline
               (script_surroundings 1 {[ "A_1.fits" := bytes_of "new" ]})
               "A.fits" clash_state))
     = products_after
         (Automate.launch
            (script_surroundings 1 {[ "A_1.fits" := bytes_of "new" ]})
            (Automate.launches clash_state)).
Proof.
  apply (script_moves_nothing_after_failed_engine
           (script_surroundings 1 {[ "A_1.fits" := bytes_of "new" ]})
           "A.fits" clash_state).
  - reflexivity.
  - reflexivity.
  - discriminate.
Defined.

(** X22.  When the engine was started and its output logged, its exit
    status is 0 and the status could be recorded in the log, the script
    moves, out of what the engine left, exactly the regular files whose name
    matches [*.fits] and contains the stem of the resolved input path, and
    leaves every other file of both directories as it is. *)
Theorem script_moves_outputs_after_successful_engine :
  forall env input_fits_file s k,
    let process := Automate.launch env (Automate.launches s) in
    let s' := snd (Automate.run_pipeline env input_fits_file s) in
    let taken :=
      is_Some (products_after process !! k)
      /\ fnmatch_fits k = true
      /\ str_in (stem (Automate.basename
                         (Automate.resolve env input_fits_file))) k = true in
    Automate.append_fault env (Automate.appends s) = None ->
    Automate.append_fault env (S (Automate.appends s)) = None ->
    reaches_wait process = true -> returncode process = 0%Z ->
    (taken ->
     Automate.pipeline_products s' !! k = None
     /\ Automate.final_dir s' !! k = products_after process !! k)
    /\ (~ taken ->
        Automate.pipeline_products s' !! k = products_after process !! k
        /\ Automate.final_dir s' !! k = Automate.final_dir s !! k).
Proof.
  intros env input s k process s' taken Hfirst Hsecond Hreach Hcode.
  subst s' taken.
  pose proof (run_pipeline_run env input s) as Hrun. cbv zeta in Hrun.
  fold process in Hrun. rewrite Hfirst, Hreach in Hrun.
  destruct Hrun as (s3 & -> & _ & Ha3 & _ & Hpp & Hfd & _).
  rewrite bind_run.
  match goal with
  | |- context [Automate.append_log env ?m s3] =>
      destruct (append_log_run env m s3)
        as (r4 & s4 & -> & Hpp4 & Hfd4 & _ & _ & _ & _ & Hr4)
  end.
  rewrite Ha3, Hsecond in Hr4. destruct Hr4 as [-> _].
  rewrite Hcode. cbn [Z.eqb].
  destruct (move_outputs_run env (Automate.resolve env input) s4)
    as (r5 & s5 & -> & Hmoved & Hkept & _).
  cbn [snd]. rewrite Hpp4, Hpp in Hmoved, Hkept. rewrite <- Hfd, <- Hfd4. split.
  - apply Hmoved.
  - apply Hkept.
Qed.

(** X22, witness: the engine leaves [A_1.fits] and exits with status 0. *)
Lemma script_moves_outputs_after_successful_engine_witness :
  Automate.pipeline_products
    (snd (Automate.run_pipeline
            (script_surroundings 0 {[ "A_1.fits" := bytes_of "new" ]})
            "A.fits" clash_state)) !! "A_1.fits" = None
  /\ Automate.final_dir
       (snd (Automate.run_pipeline
               (script_surroundings 0 {[ "A_1.fits" := bytes_of "new" ]})
               "A.fits" clash_state)) !! "A_1.fits"
     = products_after
         (Automate.launch
            (script_surroundings 0 {[ "A_1.fits" := bytes_of "new" ]})
            (Automate.launches clash_state)) !! "A_1.fits".
Proof.
  apply (proj1 (script_moves_outputs_after_successful_engine
                  (script_surroundings 0 {[ "A_1.fits" := bytes_of "new" ]})
                  "A.fits" clash_state "A_1.fits"
                  eq_refl eq_refl eq_refl eq_refl)).
  split; [vm_compute; eauto | split; vm_compute; reflexivity].
Defined.

(** X23.  Moving the outputs twice is moving them once: a second call of
    [move_outputs] for the same input finds nothing to take and leaves both
    directories as the first call left them. *)
Theorem move_outputs_twice_moves_once :
  forall env input_fits_file s,
    let s1 := snd (Automate.move_outputs env input_fits_file s) in
    let s2 := snd (Automate.move_outputs env input_fits_file s1) in
    Automate.pipeline_products s2 = Automate.pipeline_products s1
    /\ Automate.final_dir s2 = Automate.final_dir s1.
Proof.
  intros env input s s1 s2. subst s2 s1.
  destruct (move_outputs_run env input s) as (r1 & s1 & -> & Hmoved & Hkept & _).
  cbn [snd].
  destruct (move_outputs_run env input s1) as (r2 & s2 & -> & _ & Hkept2 & _).
  cbn [snd].
  assert (forall k,
            ~ (is_Some (Automate.pipeline_products s1 !! k)
               /\ fnmatch_fits k = true
               /\ str_in (stem (Automate.basename input)) k = true)) as Hnone.
  { intros k (Hsome & Hpat & Hstem).
    destruct (Automate.pipeline_products s !! k) as [data|] eqn:Hk.
    - destruct (Hmoved k) as [Hgone _]; [split; [eauto | now split]|].
      rewrite Hgone in Hsome. now destruct Hsome.
    - destruct (Hkept k) as [Hsame _].
      + intros ([? H] & _). congruence.
      + rewrite Hsame, Hk in Hsome. now destruct Hsome. }
  split; apply map_eq; intros k; now destruct (Hkept2 k (Hnone k)).
Qed.

(** ** copy_to_reflex_data_tree *)

(** X24.  When making the engine's input directory raises, the exception
    leaves [copy_to_reflex_data_tree] and nothing has changed.  Otherwise
    the function returns a Boolean, the directory exists afterwards and the
    source directory is unchanged; the result is [True] exactly when the
    input file is a regular file of the source directory and the copy meets
    no I/O fault, and then the input directory holds the file's content
    under the file's name.  Whatever the result, the other files of the
    input directory are unchanged; on [False] the last ledger record is the
    error, and the file of that name is as before or holds the beginning of
    the input file. *)
Theorem copy_to_reflex_data_tree_result :
  forall mkdir_fault fault fits_file s,
    match mkdir_fault with
    | Some e =>
        copy_to_reflex_data_tree mkdir_fault fault fits_file s = (Raise e, s)
    | None =>
        exists b s' files,
          copy_to_reflex_data_tree mkdir_fault fault fits_file s = (Ok b, s')
          /\ raw_files s' = raw_files s
          /\ automation_input s' = Some files
          /\ (forall k, k <> fits_file ->
                        files !! k = default ∅ (automation_input s) !! k)
          /\ (b = true <-> is_Some (raw_files s !! fits_file) /\ fault = None)
          /\ (b = true -> files !! fits_file = raw_files s !! fits_file)
          /\ (b = false ->
              (files !! fits_file
               = default ∅ (automation_input s) !! fits_file
               \/ exists data n,
                    raw_files s !! fits_file = Some data
                    /\ files !! fits_file = Some (take n data))
              /\ exists e,
                   List.last (staging_ledger s') (INFO, EmptyString)
                   = (ERROR, "Failed to copy " +:+ fits_file
                             +:+ " to Reflex tree: " +:+ exn_str e))
    end.
Proof.
  intros mkdir_fault fault fits_file s.
  unfold copy_to_reflex_data_tree, staging_mkdir, staging_copy2, staging_log.
  destruct mkdir_fault as [e0|]; [reflexivity|].
  run. cbn.
  destruct (raw_files s !! fits_file) as [data|] eqn:Hfile;
    [destruct fault as [[e [n|]]|]|]; cbn; eexists _, _, _;
    (split; [reflexivity|]); cbn; (split; [reflexivity|]);
    (split; [reflexivity|]).
  - split; [intros k Hk; now apply lookup_insert_ne|].
    split; [split; [discriminate | now intros [_ ?]]|].
    split; [discriminate|]. intros _. split.
    + right. exists data, n. split; [reflexivity | apply lookup_insert_eq].
    + exists e. apply last_last.
  - split; [reflexivity|].
    split; [split; [discriminate | now intros [_ ?]]|].
    split; [discriminate|]. intros _. split; [now left|].
    exists e. apply last_last.
  - split; [intros k Hk; now apply lookup_insert_ne|].
    split; [split; [eauto | reflexivity]|].
    split; [|discriminate]. intros _. apply lookup_insert_eq.
  - split; [reflexivity|].
    split; [split; [discriminate | intros [[? ?] _]; discriminate]|].
    split; [discriminate|]. intros _. split; [now left|].
    eexists (Exn "FileNotFoundError" _). cbn [exn_str]. apply last_last.
Qed.
